(** * Shopify app-proxy routes of audacem-blog: a shallow embedding

    The two route handlers [src/app/api/shopify-proxy/route.ts] and
    [src/app/api/shopify-proxy/[[...path]]/route.ts] are embedded as Rocq
    functions.  JavaScript strings are modelled by [string], read as the
    UTF-8 bytes of the text (the bytes [crypto] hashes); an exception is a
    value of the error monad [Exc]; a possibly missing property is an
    [option].  The platform pieces the handlers call but do not define
    (collation, rich-text conversion, date formatting, the content store)
    are the fields of the class [Runtime] and of the record [Store]. *)

From Stdlib Require Import ZArith List String Ascii Bool Lia Permutation Sorted.
Import ListNotations.
Open Scope string_scope.
Open Scope Z_scope.

(** ** JavaScript values used by the handlers *)

Module Js.

(** What a [throw] carries.  [ErrorMsg] is [new Error(msg)]; [TypeError] is
    the engine's error on a property read of [undefined] or [null];
    [External] is whatever a collaborator could raise. *)
Inductive Error : Type :=
| ErrorMsg (msg : string)
| TypeError
| External (detail : string).

(** A computation that returns or throws. *)
Inductive Exc (A : Type) : Type :=
| Ok (a : A)
| Throw (e : Error).
Arguments Ok {A} a.
Arguments Throw {A} e.

Definition bind {A B : Type} (m : Exc A) (k : A -> Exc B) : Exc B :=
  match m with
  | Ok a => k a
  | Throw e => Throw e
  end.

(** [Array.prototype.map] with a callback that may throw: elements are
    visited left to right and the first exception aborts the loop. *)
Fixpoint mapM {A B : Type} (f : A -> Exc B) (l : list A) : Exc (list B) :=
  match l with
  | [] => Ok []
  | x :: l' =>
      bind (f x) (fun y => bind (mapM f l') (fun ys => Ok (y :: ys)))
  end.

(** Truthiness of a possibly missing string: [undefined], [null] and the
    empty string are falsy. *)
Definition truthy (v : option string) : bool :=
  match v with
  | Some s => negb (String.eqb s "")
  | None => false
  end.

(** [a || b] on possibly missing strings. *)
Definition orElse (a b : option string) : option string :=
  if truthy a then a else b.

(** What a template literal prints for a possibly missing string. *)
Definition interpolate (v : option string) : string :=
  match v with
  | Some s => s
  | None => "undefined"
  end.

(** [Array.prototype.join]. *)
Definition join (sep : string) (l : list string) : string :=
  String.concat sep l.

(** [s.replace(/c/g, rep)] for a one-character pattern. *)
Fixpoint replaceAll (c : ascii) (rep : string) (s : string) : string :=
  match s with
  | EmptyString => EmptyString
  | String x s' =>
      if Ascii.eqb x c then rep ++ replaceAll c rep s'
      else String x (replaceAll c rep s')
  end.

(** Insertion of [x] in front of the first element it does not follow. *)
Fixpoint insertBy {A : Type} (cmp : A -> A -> Z) (x : A) (l : list A) : list A :=
  match l with
  | [] => [x]
  | y :: l' => if cmp x y <=? 0 then x :: y :: l' else y :: insertBy cmp x l'
  end.

(** [Array.prototype.sort(cmp)].  ECMAScript requires the sort to be stable,
    and for a consistent comparator the stable sorted order is unique, so
    the stable insertion sort below returns what every engine returns. *)
Fixpoint sort {A : Type} (cmp : A -> A -> Z) (l : list A) : list A :=
  match l with
  | [] => []
  | x :: l' => insertBy cmp x (sort cmp l')
  end.

(** [String.prototype.includes]. *)
Fixpoint includes (s needle : string) : bool :=
  String.prefix needle s
  || match s with
     | EmptyString => false
     | String _ s' => includes s' needle
     end.

(** Number of occurrences of one character. *)
Fixpoint countChar (c : ascii) (s : string) : nat :=
  match s with
  | EmptyString => O
  | String x s' => (if Ascii.eqb x c then 1 else 0) + countChar c s'
  end.

End Js.

Module JsNotations.
Notation "x <- m ;; k" := (Js.bind m (fun x => k))
  (at level 61, m at next level, right associativity).
End JsNotations.

(** ** SHA-256 and HMAC, as [crypto.createHmac('sha256', key)] computes them *)

Module Sha256.

Local Open Scope list_scope.

Definition byte := Z.
Definition word := Z.

Definition w32 (x : Z) : word := x mod 2 ^ 32.
Definition add32 (x y : word) : word := w32 (x + y).
Definition rotr (n : Z) (x : word) : word :=
  Z.lor (Z.shiftr x n) (w32 (Z.shiftl x (32 - n))).
Definition not32 (x : word) : word := Z.lxor x (2 ^ 32 - 1).

Definition Ch (x y z : word) : word :=
  Z.lxor (Z.land x y) (Z.land (not32 x) z).
Definition Maj (x y z : word) : word :=
  Z.lxor (Z.lxor (Z.land x y) (Z.land x z)) (Z.land y z).
Definition bigSigma0 (x : word) : word :=
  Z.lxor (Z.lxor (rotr 2 x) (rotr 13 x)) (rotr 22 x).
Definition bigSigma1 (x : word) : word :=
  Z.lxor (Z.lxor (rotr 6 x) (rotr 11 x)) (rotr 25 x).
Definition smallSigma0 (x : word) : word :=
  Z.lxor (Z.lxor (rotr 7 x) (rotr 18 x)) (Z.shiftr x 3).
Definition smallSigma1 (x : word) : word :=
  Z.lxor (Z.lxor (rotr 17 x) (rotr 19 x)) (Z.shiftr x 10).

(** The first sixty-four primes. *)
Definition primes : list Z :=
  [2; 3; 5; 7; 11; 13; 17; 19; 23; 29; 31; 37; 41; 43; 47; 53;
   59; 61; 67; 71; 73; 79; 83; 89; 97; 101; 103; 107; 109; 113; 127; 131;
   137; 139; 149; 151; 157; 163; 167; 173; 179; 181; 191; 193; 197; 199;
   211; 223; 227; 229; 233; 239; 241; 251; 257; 263; 269; 271; 277; 281;
   283; 293; 307; 311].

(** Largest [r] below [2 ^ bits] with [r ^ 3 <= n], one bit at a time. *)
Fixpoint cbrtBits (bits : nat) (n r : Z) : Z :=
  match bits with
  | O => r
  | S b =>
      let r' := r + 2 ^ Z.of_nat b in
      cbrtBits b n (if r' * r' * r' <=? n then r' else r)
  end.

(** The round constants: the first 32 bits of the fractional part of the
    cube root of each prime. *)
Definition K : list word :=
  Eval vm_compute in
    map (fun p => w32 (cbrtBits 36 (p * 2 ^ 96) 0)) primes.

(** The initial hash value: the first 32 bits of the fractional part of the
    square root of each of the first eight primes. *)
Definition H0 : list word :=
  Eval vm_compute in
    map (fun p => w32 (Z.sqrt (p * 2 ^ 64))) (firstn 8 primes).

(** Big-endian bytes of a number. *)
Fixpoint bytesOf (n : nat) (x : Z) : list byte :=
  match n with
  | O => []
  | S n' => (Z.shiftr x (8 * Z.of_nat n')) mod 256 :: bytesOf n' x
  end.

Definition wordOf (bs : list byte) : word :=
  fold_left (fun acc b => acc * 256 + b) bs 0.

(** The message followed by the bit 1, zero bits up to 56 modulo 64 bytes,
    and the bit length on eight bytes. *)
Definition pad (msg : list byte) : list byte :=
  let len := Z.of_nat (List.length msg) in
  let zeros := Z.to_nat ((55 - len) mod 64) in
  msg ++ [128] ++ repeat 0 zeros ++ bytesOf 8 (8 * len).

Fixpoint chunks {A : Type} (fuel : nat) (size : nat) (l : list A) : list (list A) :=
  match fuel, l with
  | O, _ | _, [] => []
  | S fuel', _ => firstn size l :: chunks fuel' size (skipn size l)
  end.

(** The message schedule, extended by [n] words. *)
Fixpoint schedule (n : nat) (ws : list word) : list word :=
  match n with
  | O => ws
  | S n' =>
      let t := List.length ws in
      let at_ i := nth (t - i) ws 0 in
      schedule n'
        (ws ++ [add32 (add32 (smallSigma1 (at_ 2%nat)) (at_ 7%nat))
                      (add32 (smallSigma0 (at_ 15%nat)) (at_ 16%nat))])
  end.

Record state : Type := mkState {
  va : word; vb : word; vc : word; vd : word;
  ve : word; vf : word; vg : word; vh : word
}.

Definition round (s : state) (kw : word * word) : state :=
  let t1 := add32 (add32 (add32 (vh s) (bigSigma1 (ve s)))
                         (add32 (Ch (ve s) (vf s) (vg s)) (fst kw))) (snd kw) in
  let t2 := add32 (bigSigma0 (va s)) (Maj (va s) (vb s) (vc s)) in
  mkState (add32 t1 t2) (va s) (vb s) (vc s) (add32 (vd s) t1) (ve s) (vf s) (vg s).

Definition compress (h : state) (block : list byte) : state :=
  let ws := schedule 48 (map wordOf (chunks 16 4 block)) in
  let s := fold_left round (combine K ws) h in
  mkState (add32 (va h) (va s)) (add32 (vb h) (vb s))
          (add32 (vc h) (vc s)) (add32 (vd h) (vd s))
          (add32 (ve h) (ve s)) (add32 (vf h) (vf s))
          (add32 (vg h) (vg s)) (add32 (vh h) (vh s)).

Definition initial : state :=
  mkState (nth 0 H0 0) (nth 1 H0 0) (nth 2 H0 0) (nth 3 H0 0)
          (nth 4 H0 0) (nth 5 H0 0) (nth 6 H0 0) (nth 7 H0 0).

Definition stateBytes (s : state) : list byte :=
  bytesOf 4 (va s) ++ bytesOf 4 (vb s) ++ bytesOf 4 (vc s) ++ bytesOf 4 (vd s)
  ++ bytesOf 4 (ve s) ++ bytesOf 4 (vf s) ++ bytesOf 4 (vg s) ++ bytesOf 4 (vh s).

Definition sha256 (msg : list byte) : list byte :=
  let padded := pad msg in
  stateBytes (fold_left compress (chunks (List.length padded) 64 padded) initial).

End Sha256.

Module Hmac.

Import Sha256.
Local Open Scope list_scope.

Definition blockSize : nat := 64.

(** A key longer than a block is hashed; the result is filled with zeros
    up to the block size. *)
Definition normalizeKey (key : list byte) : list byte :=
  let k := if (blockSize <? List.length key)%nat then sha256 key else key in
  k ++ repeat 0 (blockSize - List.length k).

Definition hmacSha256 (key msg : list byte) : list byte :=
  let k := normalizeKey key in
  let ipad := map (Z.lxor 54) k in
  let opad := map (Z.lxor 92) k in
  sha256 (opad ++ sha256 (ipad ++ msg)).

Definition bytesOfString (s : string) : list byte :=
  map (fun c => Z.of_N (N_of_ascii c)) (list_ascii_of_string s).

Definition hexDigit (n : Z) : ascii :=
  ascii_of_N (Z.to_N (if n <? 10 then 48 + n else 87 + n)).

(** [digest('hex')]: two lowercase hexadecimal digits for each byte. *)
Fixpoint hex (bs : list byte) : string :=
  match bs with
  | [] => EmptyString
  | b :: bs' => String (hexDigit (b / 16)) (String (hexDigit (b mod 16)) (hex bs'))
  end.

(** [crypto.createHmac('sha256', key).update(msg).digest('hex')]. *)
Definition hmacSha256Hex (key msg : string) : string :=
  hex (hmacSha256 (bytesOfString key) (bytesOfString msg)).

End Hmac.

(** ** The platform the handlers run on *)

(** What the handlers call and do not define.  [localeCompare] is
    [String.prototype.localeCompare]; [PortableText] is the type of the
    rich-text values of the content store (whatever a block's [content] or
    a post's [body] holds) and [toHTML] is the converter of
    [@portabletext/to-html]; [toLocaleDateString d] is
    [new Date(d).toLocaleDateString('fr-FR', ...)] with the options of the
    source. *)
Class Runtime : Type := {
  localeCompare : string -> string -> Z;
  PortableText : Type;
  toHTML : PortableText -> Js.Exc string;
  toLocaleDateString : string -> string
}.

(** The query string of a request: an ordered list of name and value pairs,
    where a name may occur several times. *)
Module URLSearchParams.

Definition t : Type := list (string * string).

(** The value of the first pair with this name. *)
Fixpoint get (name : string) (q : t) : option string :=
  match q with
  | [] => None
  | (k, v) :: q' => if String.eqb k name then Some v else get name q'
  end.

(** Removes every pair with this name. *)
Definition delete (name : string) (q : t) : t :=
  filter (fun kv => negb (String.eqb (fst kv) name)) q.

Definition entries (q : t) : list (string * string) := q.

End URLSearchParams.

Record Response : Type := mkResponse {
  body : string;
  status : Z;
  headers : list (string * string)
}.

(** What a call of a handler leaves behind: the response, and what it
    wrote with [console.error]. *)
Record Handled : Type := mkHandled {
  response : Response;
  consoleError : option Js.Error
}.

(** The double quote, which a string literal of this file cannot hold. *)
Definition dq : string := String (ascii_of_nat 34) EmptyString.

(** ** Signature verification (the same text in both route files) *)

Section Verify.

Context {R : Runtime}.
Variable SHOPIFY_CLIENT_SECRET : string.

(** route.ts and [[...path]]/route.ts, lines 8-27.  The secret is the
    environment variable of line 6, taken to be set: with no secret
    [createHmac] would throw, after the guard on the signature. *)
Definition verifyShopifySignature (query : URLSearchParams.t) : bool :=
  let signature := URLSearchParams.get "signature" query in
  if negb (Js.truthy signature) then false
  else
    let params := URLSearchParams.delete "signature" query in
    let sortedParams :=
      Js.join "&"
        (map (fun kv => fst kv ++ "=" ++ snd kv)
           (Js.sort (fun a b => localeCompare (fst a) (fst b))
              (URLSearchParams.entries params))) in
    let hash := Hmac.hmacSha256Hex SHOPIFY_CLIENT_SECRET sortedParams in
    match signature with
    | Some s => String.eqb hash s
    | None => false
    end.

End Verify.

(** ** [src/app/api/shopify-proxy/[[...path]]/route.ts] *)

Module CatchAll.

Import JsNotations.

Record Author : Type := {
  fullName : option string;
  slug : option string;
  photoUrl : option string
}.

Record AuthorRef : Type := { refFullName : option string }.

Record FaqItem : Type := {
  question : option string;
  answer : option string
}.

(** Lines 238-245. *)
Definition escapeHTML (str : option string) : string :=
  match str with
  | None => ""
  | Some s =>
      if negb (Js.truthy str) then ""
      else
        Js.replaceAll "034" "&quot;"
          (Js.replaceAll ">" "&gt;"
             (Js.replaceAll "<" "&lt;"
                (Js.replaceAll "&" "&amp;" s)))
  end.

(** Lines 78-117: the list page up to [authorsHTML]. *)
Definition listPageHead : string :=
  "<!DOCTYPE html>
<html lang=" ++ dq ++ "fr" ++ dq ++ ">
<head>
  <meta charset=" ++ dq ++ "UTF-8" ++ dq ++ ">
  <meta name=" ++ dq ++ "viewport" ++ dq ++ " content=" ++ dq ++ "width=device-width, initial-scale=1.0" ++ dq ++ ">
  <title>Nos auteurs</title>
  <style>
    body {
      font-family: -apple-system, BlinkMacSystemFont, 'Segoe UI', Roboto, sans-serif;
      max-width: 900px;
      margin: 0 auto;
      padding: 40px 20px;
      color: #1a1a1a;
    }
    h1 { font-size: 2rem; margin-bottom: 2rem; }
    .authors-grid {
      display: grid;
      grid-template-columns: repeat(auto-fill, minmax(200px, 1fr));
      gap: 2rem;
    }
    .author-card {
      text-align: center;
    }
    .author-card img {
      width: 120px;
      height: 120px;
      border-radius: 50%;
      object-fit: cover;
      margin-bottom: 1rem;
    }
    .author-card h2 {
      font-size: 1rem;
      margin: 0;
    }
  </style>
</head>
<body>
  <h1>Nos auteurs</h1>
  <div class=" ++ dq ++ "authors-grid" ++ dq ++ ">
    ".

(** Lines 117-120: the list page after [authorsHTML]. *)
Definition listPageTail : string :=
  "
  </div>
</body>
</html>".

(** Lines 150-155: the post page up to the first title. *)
Definition postPageHead : string :=
  "<!DOCTYPE html>
<html lang=" ++ dq ++ "fr" ++ dq ++ ">
<head>
  <meta charset=" ++ dq ++ "UTF-8" ++ dq ++ ">
  <meta name=" ++ dq ++ "viewport" ++ dq ++ " content=" ++ dq ++ "width=device-width, initial-scale=1.0" ++ dq ++ ">
  <title>".

(** Lines 155-177: the post page between the two titles. *)
Definition postPageStyle : string :=
  "</title>
  <style>
    body {
      font-family: -apple-system, BlinkMacSystemFont, 'Segoe UI', Roboto, sans-serif;
      max-width: 800px;
      margin: 0 auto;
      padding: 20px;
      line-height: 1.6;
      color: #1a1a1a;
    }
    h1 { font-size: 2.5rem; margin-bottom: 1rem; }
    h2 { font-size: 1.75rem; margin-top: 2rem; }
    h3 { font-size: 1.375rem; margin-top: 1.5rem; }
    .meta { color: #666; margin-bottom: 2rem; font-size: 0.9rem; }
    img { max-width: 100%; height: auto; border-radius: 8px; margin-bottom: 2rem; }
    p { margin-bottom: 1rem; }
    .faq-item { margin-bottom: 1.5rem; }
    .faq-item strong { display: block; margin-bottom: 0.25rem; }
  </style>
</head>
<body>
  <article>
    <h1>".

(** Lines 71-76: the card of one author. *)
Definition authorCard (author : Author) : string :=
  "
    <div class=" ++ dq ++ "author-card" ++ dq ++ ">
      "
  ++ (if Js.truthy (photoUrl author)
      then "<img src=" ++ dq ++ Js.interpolate (photoUrl author)
           ++ dq ++ " alt=" ++ dq ++ escapeHTML (fullName author) ++ dq ++ ">"
      else "")
  ++ "
      <h2>" ++ escapeHTML (fullName author) ++ "</h2>
    </div>
  ".

(** Lines 211-216: one question and its answer. *)
Definition faqItem (item : FaqItem) : string :=
  "
            <div class=" ++ dq ++ "faq-item" ++ dq ++ ">
              <strong>" ++ escapeHTML (question item) ++ "</strong>
              <p>" ++ escapeHTML (answer item) ++ "</p>
            </div>
          ".

(** Lines 177-188: the post page from the second title on, with the four
    pieces the template computes in place. *)
Definition postPage (titleHTML metaDate metaAuthors image bodyHTML : string) : string :=
  postPageHead ++ titleHTML ++ postPageStyle ++ titleHTML
  ++ "</h1>
    <div class=" ++ dq ++ "meta" ++ dq ++ ">
      " ++ metaDate
  ++ "
      " ++ metaAuthors
  ++ "
    </div>
    " ++ image
  ++ "
    <div class=" ++ dq ++ "content" ++ dq ++ ">
      " ++ bodyHTML
  ++ "
    </div>
  </article>
</body>
</html>".

Section Route.

Context {R : Runtime}.
Variable SHOPIFY_CLIENT_SECRET : string.

(** A body block as the content store returns it: an object read through
    its [_type] tag, whose other properties may be missing. *)
Record Block : Type := {
  blockType : string;
  blockTitle : option string;
  content : PortableText;
  items : option (list FaqItem);
  description : option string;
  btnText : option string
}.

Record Post : Type := {
  title : option string;
  shortDescription : option string;
  postBody : option (list Block);
  mainPhotoUrl : option string;
  mainPhotoAlt : option string;
  publishedAt : option string;
  authors : option (list (option AuthorRef))
}.

(** The answers of [client.fetch] to the two queries of this file. *)
Record Store : Type := {
  fetchAuthors : Js.Exc (option (list Author));
  fetchPost : string -> Js.Exc (option Post)
}.

Record Request : Type := {
  searchParams : URLSearchParams.t;
  path : option (list string)
}.

(** Lines 200-235: the callback of [body.map]. *)
Definition renderBlock (block : Block) : Js.Exc string :=
  if String.eqb (blockType block) "wysiwygBlock" then
    html <- toHTML (content block) ;;
    Js.Ok ("<section>
          <h2>" ++ escapeHTML (blockTitle block) ++ "</h2>
          " ++ html ++ "
        </section>")
  else if String.eqb (blockType block) "faqBlock" then
    match items block with
    | None => Js.Throw Js.TypeError
    | Some its =>
        Js.Ok ("<section>
          <h2>" ++ escapeHTML (blockTitle block) ++ "</h2>
          " ++ Js.join "" (map faqItem its) ++ "
        </section>")
    end
  else if String.eqb (blockType block) "ctaBlock" then
    Js.Ok ("<section>
          <h2>" ++ escapeHTML (blockTitle block)
           ++ "</h2>
          <p>" ++ escapeHTML (description block)
           ++ "</p>
          <p><strong>" ++ escapeHTML (btnText block)
           ++ "</strong></p>
        </section>")
  else if String.eqb (blockType block) "quickAnswerBlock" then
    html <- toHTML (content block) ;;
    Js.Ok ("<section>
          <h2>" ++ escapeHTML (blockTitle block) ++ "</h2>
          " ++ html ++ "
        </section>")
  else Js.Ok "".

(** Lines 197-236. *)
Definition renderBody (body : option (list Block)) : Js.Exc string :=
  match body with
  | None => Js.Ok ""
  | Some blocks =>
      parts <- Js.mapM renderBlock blocks ;;
      Js.Ok (Js.join "" parts)
  end.

(** Lines 60-121. *)
Definition fetchAndRenderAuthorList (store : Store) : Js.Exc string :=
  authors <- fetchAuthors store ;;
  match authors with
  | None | Some [] => Js.Throw (Js.ErrorMsg "No authors found")
  | Some l =>
      let authorsHTML := Js.join "" (map authorCard l) in
      Js.Ok (listPageHead ++ authorsHTML ++ listPageTail)
  end.

(** Line 148: the callback of [post.authors?.map]; reading [fullName] of a
    [null] entry is a TypeError. *)
Definition authorName (a : option AuthorRef) : Js.Exc string :=
  match a with
  | None => Js.Throw Js.TypeError
  | Some a => Js.Ok (escapeHTML (refFullName a))
  end.

(** Lines 123-189. *)
Definition fetchAndRenderPost (store : Store) (slug : string) : Js.Exc string :=
  post <- fetchPost store slug ;;
  match post with
  | None => Js.Throw (Js.ErrorMsg ("Post not found: " ++ slug))
  | Some post =>
      bodyHTML <- renderBody (postBody post) ;;
      let publishedDate :=
        match publishedAt post with
        | Some d => if Js.truthy (publishedAt post) then toLocaleDateString d else ""
        | None => ""
        end in
      authorNames <-
        match authors post with
        | None => Js.Ok ""
        | Some l => names <- Js.mapM authorName l ;; Js.Ok (Js.join ", " names)
        end ;;
      Js.Ok
        (postPage
           (escapeHTML (title post))
           (if Js.truthy (Some publishedDate) then "Publié le " ++ publishedDate else "")
           (if Js.truthy (Some authorNames) then " · Par " ++ authorNames else "")
           (if Js.truthy (mainPhotoUrl post)
            then "<img src=" ++ dq ++ Js.interpolate (mainPhotoUrl post)
                 ++ dq ++ " alt=" ++ dq ++ escapeHTML (Js.orElse (mainPhotoAlt post) (title post)) ++ dq ++ ">"
            else "")
           bodyHTML)
  end.

(** Line 40: [path?.join('/') || '']. *)
Definition slugOf (request : Request) : string :=
  match path request with
  | Some segments => Js.join "/" segments
  | None => ""
  end.

(** Lines 43-45: list mode or single-post mode. *)
Definition render (store : Store) (slug : string) : Js.Exc string :=
  if negb (Js.truthy (Some slug)) || String.eqb slug "liste"
  then fetchAndRenderAuthorList store
  else fetchAndRenderPost store slug.

(** Lines 29-58. *)
Definition GET (store : Store) (request : Request) : Handled :=
  if negb (verifyShopifySignature SHOPIFY_CLIENT_SECRET (searchParams request)) then
    mkHandled (mkResponse "Unauthorized" 401 []) None
  else
    let slug := slugOf request in
    match render store slug with
    | Js.Ok html =>
        mkHandled
          (mkResponse html 200
             [("Content-Type", "application/liquid");
              ("Cache-Control", "public, max-age=300")])
          None
    | Js.Throw error =>
        mkHandled (mkResponse "Content not found" 404 []) (Some error)
    end.

End Route.

End CatchAll.

(** ** [src/app/api/shopify-proxy/route.ts] *)

Module Root.

Import JsNotations.

(** Lines 116-122: no guard here, so a missing string is a TypeError. *)
Definition escapeHTML (str : option string) : Js.Exc string :=
  match str with
  | None => Js.Throw Js.TypeError
  | Some s =>
      Js.Ok
        (Js.replaceAll "034" "&quot;"
           (Js.replaceAll ">" "&gt;"
              (Js.replaceAll "<" "&lt;"
                 (Js.replaceAll "&" "&amp;" s))))
  end.

(** Lines 77-82: the page up to the first title. *)
Definition postPageHead : string :=
  "<!DOCTYPE html>
<html lang=" ++ dq ++ "fr" ++ dq ++ ">
<head>
  <meta charset=" ++ dq ++ "UTF-8" ++ dq ++ ">
  <meta name=" ++ dq ++ "viewport" ++ dq ++ " content=" ++ dq ++ "width=device-width, initial-scale=1.0" ++ dq ++ ">
  <title>".

(** Lines 82-102: the page between the two titles. *)
Definition postPageStyle : string :=
  "</title>
  <style>
    body {
      font-family: -apple-system, BlinkMacSystemFont, 'Segoe UI', Roboto, sans-serif;
      max-width: 800px;
      margin: 0 auto;
      padding: 20px;
      line-height: 1.6;
      color: #1a1a1a;
    }
    h1 { font-size: 2.5rem; margin-bottom: 1rem; }
    h2 { font-size: 1.75rem; margin-top: 2rem; }
    h3 { font-size: 1.375rem; margin-top: 1.5rem; }
    .meta { color: #666; margin-bottom: 2rem; font-size: 0.9rem; }
    img { max-width: 100%; height: auto; border-radius: 8px; margin-bottom: 2rem; }
    p { margin-bottom: 1rem; }
  </style>
</head>
<body>
  <article>
    <h1>".

(** Lines 102-113: the page from the second title on. *)
Definition postPage (titleHTML metaDate metaAuthor image bodyHTML : string) : string :=
  postPageHead ++ titleHTML ++ postPageStyle ++ titleHTML
  ++ "</h1>
    <div class=" ++ dq ++ "meta" ++ dq ++ ">
      " ++ metaDate
  ++ "
      " ++ metaAuthor
  ++ "
    </div>
    " ++ image
  ++ "
    <div class=" ++ dq ++ "content" ++ dq ++ ">
      " ++ bodyHTML
  ++ "
    </div>
  </article>
</body>
</html>".

(** Line 37: [pathPrefix.replace(/^\//, '')]. *)
Definition stripLeadingSlash (s : string) : string :=
  match s with
  | String "/" s' => s'
  | _ => s
  end.

Section Route.

Context {R : Runtime}.
Variable SHOPIFY_CLIENT_SECRET : string.

Record Post : Type := {
  title : option string;
  postBody : option PortableText;
  mainImageUrl : option string;
  publishedAt : option string;
  authorName : option string
}.

(** The answer of [client.fetch] to the query of this file. *)
Record Store : Type := {
  fetchPost : string -> Js.Exc (option Post)
}.

Record Request : Type := {
  searchParams : URLSearchParams.t
}.

(** Lines 55-114. *)
Definition fetchAndRenderPost (store : Store) (slug : string) : Js.Exc string :=
  post <- fetchPost store slug ;;
  match post with
  | None => Js.Throw (Js.ErrorMsg ("Post not found: " ++ slug))
  | Some post =>
      bodyHTML <-
        match postBody post with
        | Some b => toHTML b
        | None => Js.Ok ""
        end ;;
      let publishedDate :=
        match publishedAt post with
        | Some d => if Js.truthy (publishedAt post) then toLocaleDateString d else ""
        | None => ""
        end in
      titleHTML <- escapeHTML (title post) ;;
      metaAuthor <-
        (if Js.truthy (authorName post)
         then name <- escapeHTML (authorName post) ;; Js.Ok (" · Par " ++ name)
         else Js.Ok "") ;;
      image <-
        (if Js.truthy (mainImageUrl post)
         then alt <- escapeHTML (title post) ;;
              Js.Ok ("<img src=" ++ dq ++ Js.interpolate (mainImageUrl post)
                     ++ dq ++ " alt=" ++ dq ++ alt ++ dq ++ ">")
         else Js.Ok "") ;;
      Js.Ok
        (postPage titleHTML
           (if Js.truthy (Some publishedDate) then "Publié le " ++ publishedDate else "")
           metaAuthor image bodyHTML)
  end.

(** Lines 36-37: the slug is the [path_prefix] parameter without its
    leading slash. *)
Definition slugOf (request : Request) : string :=
  let pathPrefix :=
    Js.interpolate
      (Js.orElse (URLSearchParams.get "path_prefix" (searchParams request)) (Some "")) in
  stripLeadingSlash pathPrefix.

(** Lines 29-53. *)
Definition GET (store : Store) (request : Request) : Handled :=
  if negb (verifyShopifySignature SHOPIFY_CLIENT_SECRET (searchParams request)) then
    mkHandled (mkResponse "Unauthorized" 401 []) None
  else
    let slug := slugOf request in
    match fetchAndRenderPost store slug with
    | Js.Ok html =>
        mkHandled
          (mkResponse html 200
             [("Content-Type", "application/liquid");
              ("Cache-Control", "public, max-age=300")])
          None
    | Js.Throw error =>
        mkHandled (mkResponse "Content not found" 404 []) (Some error)
    end.

End Route.

End Root.

(** ** Definitions used to state the properties *)

Module Spec.

Definition sign (c : comparison) : Z :=
  match c with
  | Lt => -1
  | Eq => 0
  | Gt => 1
  end.

(** Byte-wise lexicographic order of two strings, as a comparator. *)
Definition byteCompare (a b : string) : Z := sign (String.compare a b).

(** One parameter as the canonical string writes it. *)
Definition keyValue (kv : string * string) : string := fst kv ++ "=" ++ snd kv.

(** The canonical string of the specification, for a comparator of keys:
    the [signature] pairs removed, the others sorted by key, each written
    [key=value], all joined with an ampersand. *)
Definition canonicalString (cmp : string -> string -> Z) (q : URLSearchParams.t) : string :=
  Js.join "&"
    (map keyValue
       (Js.sort (fun a b => cmp (fst a) (fst b))
          (URLSearchParams.delete "signature" q))).

(** The comparator is a strict total order on these keys: only a key and
    itself compare equal, swapping the arguments swaps the sign, and
    "before" is transitive. *)
Definition strictOrderOn (cmp : string -> string -> Z) (ks : list string) : bool :=
  forallb (fun a =>
    forallb (fun b =>
      implb (cmp a b =? 0) (String.eqb a b)
      && implb (0 <? cmp a b) (cmp b a <? 0)
      && implb (cmp a b <? 0) (0 <? cmp b a)
      && forallb (fun c =>
           implb ((cmp a b <? 0) && (cmp b c <? 0)) (cmp a c <? 0)) ks) ks) ks.

(** The comparator is consistent on these keys, as ECMAScript asks of a
    comparator: swapping the arguments swaps the sign, and "not after" is
    transitive. *)
Definition consistentOn (cmp : string -> string -> Z) (ks : list string) : bool :=
  forallb (fun a =>
    forallb (fun b =>
      (Z.sgn (cmp b a) =? - Z.sgn (cmp a b))
      && forallb (fun c =>
           implb ((cmp a b <=? 0) && (cmp b c <=? 0)) (cmp a c <=? 0)) ks) ks) ks.

(** The same in [Prop], on the elements of a list of any type. *)
Record ConsistentOn {A : Type} (cmp : A -> A -> Z) (l : list A) : Prop := {
  consistent_sgn : forall a b, In a l -> In b l -> Z.sgn (cmp b a) = - Z.sgn (cmp a b);
  consistent_trans : forall a b c, In a l -> In b l -> In c l ->
                     cmp a b <= 0 -> cmp b c <= 0 -> cmp a c <= 0
}.

(** The parameter's key compares equal to [k]. *)
Definition ties (cmp : string -> string -> Z) (k : string) (kv : string * string) : bool :=
  cmp (fst kv) k =? 0.

(** [a] sorts before [b]. *)
Definition before {A : Type} (cmp : A -> A -> Z) (a b : A) : Prop := cmp a b < 0.

(** The same in [Prop], on the elements of a list of any type: what the
    sort needs of its comparator to have one possible result. *)
Record StrictOn {A : Type} (cmp : A -> A -> Z) (l : list A) : Prop := {
  strict_total : forall a b, In a l -> In b l -> 0 < cmp a b -> cmp b a < 0;
  strict_asym : forall a b, In a l -> In b l -> cmp a b < 0 -> 0 < cmp b a;
  strict_trans : forall a b c, In a l -> In b l -> In c l ->
                 cmp a b < 0 -> cmp b c < 0 -> cmp a c < 0
}.

(** The block kinds [renderBody] has a case for. *)
Definition knownKind (kind : string) : bool :=
  existsb (String.eqb kind)
    ["wysiwygBlock"; "faqBlock"; "ctaBlock"; "quickAnswerBlock"].

(** How many raw [<] and [>] a string holds. *)
Definition rawAngles (s : string) : nat * nat :=
  (Js.countChar "<" s, Js.countChar ">" s).

(** The result of a computation seen through a function. *)
Definition mapExc {A B : Type} (f : A -> B) (m : Js.Exc A) : Js.Exc B :=
  match m with
  | Js.Ok a => Js.Ok (f a)
  | Js.Throw e => Js.Throw e
  end.

(** A possibly missing text with its characters removed. *)
Definition blank (v : option string) : option string :=
  option_map (fun _ => "") v.

(** The four replacements of the escaping step, in the order of the
    source. *)
Definition fourPasses (s : string) : string :=
  Js.replaceAll "034" "&quot;"
    (Js.replaceAll ">" "&gt;"
       (Js.replaceAll "<" "&lt;"
          (Js.replaceAll "&" "&amp;" s))).

(** Escaping as the specification words it: each of the four characters
    replaced by its entity, every other character kept. *)
Definition escapeChar (c : ascii) : string :=
  if Ascii.eqb c "&" then "&amp;"
  else if Ascii.eqb c "<" then "&lt;"
  else if Ascii.eqb c ">" then "&gt;"
  else if Ascii.eqb c "034" then "&quot;"
  else String c EmptyString.

Fixpoint escapeText (s : string) : string :=
  match s with
  | EmptyString => EmptyString
  | String c s' => escapeChar c ++ escapeText s'
  end.

(** The character does not occur in the needle: no occurrence of the
    needle can run across it. *)
Definition notIn (needle : string) (c : ascii) : bool :=
  negb (existsb (Ascii.eqb c) (list_ascii_of_string needle)).

Definition firstNotIn (needle s : string) : bool :=
  match s with
  | EmptyString => false
  | String c _ => notIn needle c
  end.

Fixpoint lastNotIn (needle s : string) : bool :=
  match s with
  | EmptyString => false
  | String c EmptyString => notIn needle c
  | String _ s' => lastNotIn needle s'
  end.

(** The fragment stands in the string, character for character. *)
Definition occursIn (fragment s : string) : Prop :=
  exists before after, s = before ++ fragment ++ after.

(** The text is missing or does not hold the needle. *)
Definition lacks (needle : string) (v : option string) : bool :=
  match v with
  | Some s => negb (Js.includes s needle)
  | None => true
  end.

(** The characters of a possibly missing text: none when it is missing. *)
Definition textOf (v : option string) : string :=
  match v with
  | Some s => s
  | None => ""
  end.

(** The value is there. *)
Definition present {A : Type} (v : option A) : bool :=
  match v with
  | Some _ => true
  | None => false
  end.

(** The computation returns. *)
Definition returns {A : Type} (m : Js.Exc A) : bool :=
  match m with
  | Js.Ok _ => true
  | Js.Throw _ => false
  end.

(** An image element with this address and this alternative text, both
    written as they are given. *)
Definition imgElement (src alt : string) : string :=
  "<img src=" ++ dq ++ src ++ dq ++ " alt=" ++ dq ++ alt ++ dq ++ ">".

(** The opening tag of an author's card. *)
Definition cardMarker : string :=
  "<div class=" ++ dq ++ "author-card" ++ dq ++ ">".

(** An author's card as a document shows it: the opening tag, an image
    element or nothing, the name in a heading, the closing tag. *)
Definition cardOf (image name : string) : string :=
  "
    " ++ cardMarker ++ "
      " ++ image ++ "
      <h2>" ++ name ++ "</h2>
    </div>
  ".

(** What a post page holds after its heading: the line of the date and
    of the authors, the image, and the body, each in its place. *)
Definition pageAfterTitle (metaDate metaAuthors image bodyHTML : string) : string :=
  "</h1>
    <div class=" ++ dq ++ "meta" ++ dq ++ ">
      " ++ metaDate ++ "
      " ++ metaAuthors ++ "
    </div>
    " ++ image ++ "
    <div class=" ++ dq ++ "content" ++ dq ++ ">
      " ++ bodyHTML ++ "
    </div>
  </article>
</body>
</html>".

(** Number of places of a string where the needle stands. *)
Fixpoint occurrences (needle s : string) : nat :=
  ((if String.prefix needle s then 1 else 0)
   + match s with
     | EmptyString => 0
     | String _ s' => occurrences needle s'
     end)%nat.

(** The needle and the text differ at a place both have: the needle does
    not stand at the head of the text, whatever follows the text. *)
Fixpoint clash (needle text : string) : bool :=
  match needle, text with
  | String a needle', String b text' =>
      if Ascii.eqb a b then clash needle' text' else true
  | _, _ => false
  end.

(** The needle starts at no place of the text, whatever follows the
    text. *)
Fixpoint clashes (needle text : string) : bool :=
  match text with
  | EmptyString => true
  | String _ text' => clash needle text && clashes needle text'
  end.

(** Every character of the string passes the test. *)
Fixpoint allChars (p : ascii -> bool) (s : string) : bool :=
  match s with
  | EmptyString => true
  | String c s' => p c && allChars p s'
  end.

(** A lowercase hexadecimal digit. *)
Definition isLowerHex (c : ascii) : bool :=
  existsb (Ascii.eqb c) (list_ascii_of_string "0123456789abcdef").

(** Two comparators order these keys the same way, as far as the sort can
    tell: they agree on which of two keys is not after the other. *)
Definition agreeOn (cmp1 cmp2 : string -> string -> Z) (ks : list string) : bool :=
  forallb (fun a =>
    forallb (fun b => Bool.eqb (cmp1 a b <=? 0) (cmp2 a b <=? 0)) ks) ks.

End Spec.

(** Records with the characters of their text fields removed, and what a
    record supplies to the page: used to state what the text fields can
    and cannot change in a document. *)
Module Texts.

Section OfCatchAll.

Context {R : Runtime}.

Definition blankItem (item : CatchAll.FaqItem) : CatchAll.FaqItem := {|
  CatchAll.question := Spec.blank (CatchAll.question item);
  CatchAll.answer := Spec.blank (CatchAll.answer item)
|}.

Definition blankBlock (block : CatchAll.Block) : CatchAll.Block := {|
  CatchAll.blockType := CatchAll.blockType block;
  CatchAll.blockTitle := Spec.blank (CatchAll.blockTitle block);
  CatchAll.content := CatchAll.content block;
  CatchAll.items := option_map (map blankItem) (CatchAll.items block);
  CatchAll.description := Spec.blank (CatchAll.description block);
  CatchAll.btnText := Spec.blank (CatchAll.btnText block)
|}.

Definition blankAuthor (author : CatchAll.Author) : CatchAll.Author := {|
  CatchAll.fullName := Spec.blank (CatchAll.fullName author);
  CatchAll.slug := CatchAll.slug author;
  CatchAll.photoUrl := CatchAll.photoUrl author
|}.

Definition blankRef (a : option CatchAll.AuthorRef) : option CatchAll.AuthorRef :=
  option_map
    (fun a => {| CatchAll.refFullName := Spec.blank (CatchAll.refFullName a) |}) a.

Definition blankPost (post : CatchAll.Post) : CatchAll.Post := {|
  CatchAll.title := Spec.blank (CatchAll.title post);
  CatchAll.shortDescription := CatchAll.shortDescription post;
  CatchAll.postBody := option_map (map blankBlock) (CatchAll.postBody post);
  CatchAll.mainPhotoUrl := CatchAll.mainPhotoUrl post;
  CatchAll.mainPhotoAlt := Spec.blank (CatchAll.mainPhotoAlt post);
  CatchAll.publishedAt := CatchAll.publishedAt post;
  CatchAll.authors := option_map (map blankRef) (CatchAll.authors post)
|}.

(** The store whose records have lost the characters of their titles,
    names, questions, answers, descriptions, button labels and alternative
    texts; everything else is as the store gave it. *)
Definition blankStore (store : CatchAll.Store) : CatchAll.Store := {|
  CatchAll.fetchAuthors :=
    Spec.mapExc (option_map (map blankAuthor)) (CatchAll.fetchAuthors store);
  CatchAll.fetchPost := fun slug =>
    Spec.mapExc (option_map blankPost) (CatchAll.fetchPost store slug)
|}.

(** What a rich-text value converts to, when the converter returns. *)
Definition converted (c : PortableText) : option string :=
  match toHTML c with
  | Js.Ok html => Some html
  | Js.Throw _ => None
  end.

(** The date as the page prints it, when it prints one. *)
Definition printedDate (d : option string) : option string :=
  match d with
  | Some s => if Js.truthy d then Some (toLocaleDateString s) else None
  | None => None
  end.

(** The strings a block brings to the page, by kind: its texts and what
    the converter makes of its rich text. *)
Definition blockTexts (block : CatchAll.Block) : list (option string) :=
  if String.eqb (CatchAll.blockType block) "wysiwygBlock" then
    [CatchAll.blockTitle block; converted (CatchAll.content block)]
  else if String.eqb (CatchAll.blockType block) "faqBlock" then
    CatchAll.blockTitle block
    :: match CatchAll.items block with
       | Some its =>
           flat_map (fun i => [CatchAll.question i; CatchAll.answer i]) its
       | None => []
       end
  else if String.eqb (CatchAll.blockType block) "ctaBlock" then
    [CatchAll.blockTitle block; CatchAll.description block; CatchAll.btnText block]
  else if String.eqb (CatchAll.blockType block) "quickAnswerBlock" then
    [CatchAll.blockTitle block; converted (CatchAll.content block)]
  else [].

Definition refName (a : option CatchAll.AuthorRef) : option string :=
  match a with
  | Some a => CatchAll.refFullName a
  | None => None
  end.

(** The strings a post brings to the page. *)
Definition postTexts (post : CatchAll.Post) : list (option string) :=
  ([CatchAll.title post; CatchAll.mainPhotoAlt post; CatchAll.mainPhotoUrl post;
    printedDate (CatchAll.publishedAt post)]
   ++ match CatchAll.authors post with
      | Some l => map refName l
      | None => []
      end
   ++ match CatchAll.postBody post with
      | Some blocks => flat_map blockTexts blocks
      | None => []
      end)%list.

(** The strings an author brings to the list page. *)
Definition authorTexts (author : CatchAll.Author) : list (option string) :=
  [CatchAll.fullName author; CatchAll.photoUrl author].

(** What a block needs for its rendering to return: rich text that the
    converter accepts in the two rich-text kinds, and [items] in a FAQ.
    A call-to-action block and a block of an unknown kind always render. *)
Definition blockReturns (block : CatchAll.Block) : bool :=
  if String.eqb (CatchAll.blockType block) "wysiwygBlock" then
    Spec.returns (toHTML (CatchAll.content block))
  else if String.eqb (CatchAll.blockType block) "faqBlock" then
    Spec.present (CatchAll.items block)
  else if String.eqb (CatchAll.blockType block) "ctaBlock" then true
  else if String.eqb (CatchAll.blockType block) "quickAnswerBlock" then
    Spec.returns (toHTML (CatchAll.content block))
  else true.

(** What a fetched post needs for its page to be assembled: blocks that
    render and no [null] among its authors.  Neither the title nor any
    other text is looked at. *)
Definition postReturns (post : CatchAll.Post) : bool :=
  match CatchAll.postBody post with
  | Some blocks => forallb blockReturns blocks
  | None => true
  end
  && match CatchAll.authors post with
     | Some l => forallb Spec.present l
     | None => true
     end.

End OfCatchAll.

Section OfRoot.

Context {R : Runtime}.

(** The strings a post of the root route brings to the page. *)
Definition rootPostTexts (post : Root.Post) : list (option string) :=
  [Root.title post; Root.authorName post; Root.mainImageUrl post;
   printedDate (Root.publishedAt post);
   match Root.postBody post with
   | Some b => converted b
   | None => None
   end].

Definition blankRootPost (post : Root.Post) : Root.Post := {|
  Root.title := Spec.blank (Root.title post);
  Root.postBody := Root.postBody post;
  Root.mainImageUrl := Root.mainImageUrl post;
  Root.publishedAt := Root.publishedAt post;
  Root.authorName := Spec.blank (Root.authorName post)
|}.

Definition blankRootStore (store : Root.Store) : Root.Store := {|
  Root.fetchPost := fun slug =>
    Spec.mapExc (option_map blankRootPost) (Root.fetchPost store slug)
|}.

(** What a fetched post of the root route needs for its page to be
    assembled: a body that converts, if it has one, and a title, since
    escaping a missing string throws there. *)
Definition rootPostReturns (post : Root.Post) : bool :=
  match Root.postBody post with
  | Some b => Spec.returns (toHTML b)
  | None => true
  end
  && Spec.present (Root.title post).

End OfRoot.

End Texts.

(** ** A concrete platform, to run the handlers on examples *)

Module Sample.

Definition isUpper (c : ascii) : bool :=
  ((65 <=? nat_of_ascii c) && (nat_of_ascii c <=? 90))%nat.

Definition isLower (c : ascii) : bool :=
  ((97 <=? nat_of_ascii c) && (nat_of_ascii c <=? 122))%nat.

Definition toLower (c : ascii) : ascii :=
  if isUpper c then ascii_of_nat (nat_of_ascii c + 32) else c.

Definition swapCase (c : ascii) : ascii :=
  if isUpper c then ascii_of_nat (nat_of_ascii c + 32)
  else if isLower c then ascii_of_nat (nat_of_ascii c - 32)
  else c.

Fixpoint mapString (f : ascii -> ascii) (s : string) : string :=
  match s with
  | EmptyString => EmptyString
  | String c s' => String (f c) (mapString f s')
  end.

(** The order [localeCompare] gives to words of ASCII letters and digits
    under ICU's root collation, which Node uses for the locales of this
    site: digits before letters, letters alphabetically whatever their
    case, and between two words that differ by case only, lowercase first
    at the first difference ([a < A < b < B]).  On other characters this
    function orders by code and stands for no engine. *)
Definition collate (a b : string) : Z :=
  match String.compare (mapString toLower a) (mapString toLower b) with
  | Eq => Spec.sign (String.compare (mapString swapCase a) (mapString swapCase b))
  | c => Spec.sign c
  end.

(** A test double of the platform: rich text is a ready HTML fragment and
    a date is printed as it is stored. *)
Definition runtime : Runtime := {|
  localeCompare := collate;
  PortableText := string;
  toHTML := fun html => Js.Ok html;
  toLocaleDateString := fun d => d
|}.

(** Rich text of the test double, given as the HTML it converts to. *)
Definition richText (html : string) : @PortableText runtime := html.

Definition secret : string := "hush".

(** A query signed with [secret]: the digest of
    [path_prefix=/apps/blog&shop=audacem.myshopify.com]. *)
Definition signedQuery : URLSearchParams.t :=
  [("shop", "audacem.myshopify.com"); ("path_prefix", "/apps/blog");
   ("signature", "20d995adb8dc779f580f332c519ad2fc12d16b31a12c28872ceda1eccf05a15d")].

Definition ada : CatchAll.Author := {|
  CatchAll.fullName := Some "Ada <Lovelace>";
  CatchAll.slug := Some "ada";
  CatchAll.photoUrl := Some ("https://cdn.example/ada.png?w=1&h=2" ++ dq ++ "><b>")
|}.

Definition bob : CatchAll.Author := {|
  CatchAll.fullName := Some "Bob & Co";
  CatchAll.slug := Some "bob";
  CatchAll.photoUrl := None
|}.

Definition intro : @CatchAll.Block runtime := {|
  CatchAll.blockType := "wysiwygBlock";
  CatchAll.blockTitle := Some "Pourquoi <nous> ?";
  CatchAll.content := richText "<p>Bonjour</p>";
  CatchAll.items := None;
  CatchAll.description := None;
  CatchAll.btnText := None
|}.

Definition faq : @CatchAll.Block runtime := {|
  CatchAll.blockType := "faqBlock";
  CatchAll.blockTitle := Some "Questions";
  CatchAll.content := richText "";
  CatchAll.items :=
    Some [ {| CatchAll.question := Some "1 < 2 ?"; CatchAll.answer := Some "Oui & non" |} ];
  CatchAll.description := None;
  CatchAll.btnText := None
|}.

(** A block of a kind the renderer has no case for. *)
Definition video : @CatchAll.Block runtime := {|
  CatchAll.blockType := "videoBlock";
  CatchAll.blockTitle := Some "Film";
  CatchAll.content := richText "";
  CatchAll.items := None;
  CatchAll.description := None;
  CatchAll.btnText := None
|}.

(** A FAQ block whose [items] are missing: reading them throws. *)
Definition brokenFaq : @CatchAll.Block runtime := {|
  CatchAll.blockType := "faqBlock";
  CatchAll.blockTitle := Some "Questions";
  CatchAll.content := richText "";
  CatchAll.items := None;
  CatchAll.description := None;
  CatchAll.btnText := None
|}.

Definition article : @CatchAll.Post runtime := {|
  CatchAll.title := Some "Titre";
  CatchAll.shortDescription := Some "Un article";
  CatchAll.postBody := Some [intro; video; faq];
  CatchAll.mainPhotoUrl := Some ("https://cdn.example/hero.png?a=1&b=2" ++ dq ++ "><i>");
  CatchAll.mainPhotoAlt := None;
  CatchAll.publishedAt := Some "3 janvier 2024";
  CatchAll.authors := Some [Some {| CatchAll.refFullName := Some "Ada <Lovelace>" |}]
|}.

(** A record with no title and none of the optional fields. *)
Definition untitled : @CatchAll.Post runtime := {|
  CatchAll.title := None;
  CatchAll.shortDescription := None;
  CatchAll.postBody := None;
  CatchAll.mainPhotoUrl := None;
  CatchAll.mainPhotoAlt := None;
  CatchAll.publishedAt := None;
  CatchAll.authors := None
|}.

(** A record whose title is the word the claim forbids in the output. *)
Definition wordy : @CatchAll.Post runtime := {|
  CatchAll.title := Some "undefined";
  CatchAll.shortDescription := None;
  CatchAll.postBody := None;
  CatchAll.mainPhotoUrl := Some "https://cdn.example/u.png";
  CatchAll.mainPhotoAlt := None;
  CatchAll.publishedAt := None;
  CatchAll.authors := None
|}.

Definition broken : @CatchAll.Post runtime := {|
  CatchAll.title := Some "Titre";
  CatchAll.shortDescription := None;
  CatchAll.postBody := Some [intro; brokenFaq];
  CatchAll.mainPhotoUrl := None;
  CatchAll.mainPhotoAlt := None;
  CatchAll.publishedAt := None;
  CatchAll.authors := None
|}.

Definition store : @CatchAll.Store runtime := {|
  CatchAll.fetchAuthors := Js.Ok (Some [ada; bob]);
  CatchAll.fetchPost := fun slug =>
    if String.eqb slug "mon-article" then Js.Ok (Some article)
    else if String.eqb slug "sans-titre" then Js.Ok (Some untitled)
    else if String.eqb slug "mot" then Js.Ok (Some wordy)
    else if String.eqb slug "casse" then Js.Ok (Some broken)
    else Js.Ok None
|}.

(** A store that answers nothing: the connection fails. *)
Definition downStore : @CatchAll.Store runtime := {|
  CatchAll.fetchAuthors := Js.Throw (Js.External "ECONNRESET");
  CatchAll.fetchPost := fun _ => Js.Throw (Js.External "ECONNRESET")
|}.

Definition request (segments : option (list string)) : @CatchAll.Request := {|
  CatchAll.searchParams := signedQuery;
  CatchAll.path := segments
|}.

Definition rootArticle : @Root.Post runtime := {|
  Root.title := Some "Titre";
  Root.postBody := Some (richText "<p>Bonjour</p>");
  Root.mainImageUrl := Some ("https://cdn.example/hero.png?a=1&b=2" ++ dq ++ "><i>");
  Root.publishedAt := Some "3 janvier 2024";
  Root.authorName := Some "Ada <Lovelace>"
|}.

Definition rootStore : @Root.Store runtime := {|
  Root.fetchPost := fun slug =>
    if String.eqb slug "apps/blog" then Js.Ok (Some rootArticle) else Js.Ok None
|}.

Definition rootRequest : Root.Request := {| Root.searchParams := signedQuery |}.

(** An author with a plain photo address, and one with neither name nor
    photo. *)
Definition cleo : CatchAll.Author := {|
  CatchAll.fullName := Some "Cleo & fils";
  CatchAll.slug := Some "cleo";
  CatchAll.photoUrl := Some "https://cdn.example/cleo.png?w=120&h=120"
|}.

Definition anon : CatchAll.Author := {|
  CatchAll.fullName := None;
  CatchAll.slug := Some "anon";
  CatchAll.photoUrl := None
|}.

(** A store of three authors and no post. *)
Definition guestStore : @CatchAll.Store runtime := {|
  CatchAll.fetchAuthors := Js.Ok (Some [cleo; anon; bob]);
  CatchAll.fetchPost := fun _ => Js.Ok None
|}.

(** Posts of the root route: one with a title and nothing else, one with
    everything but a title. *)
Definition rootBare : @Root.Post runtime := {|
  Root.title := Some "Titre seul";
  Root.postBody := None;
  Root.mainImageUrl := None;
  Root.publishedAt := None;
  Root.authorName := None
|}.

Definition rootUntitled : @Root.Post runtime := {|
  Root.title := None;
  Root.postBody := Some (richText "<p>Bonjour</p>");
  Root.mainImageUrl := Some "https://cdn.example/hero.png";
  Root.publishedAt := Some "3 janvier 2024";
  Root.authorName := Some "Ada"
|}.

Definition rootArchive : @Root.Store runtime := {|
  Root.fetchPost := fun slug =>
    if String.eqb slug "nu" then Js.Ok (Some rootBare)
    else if String.eqb slug "sans-titre" then Js.Ok (Some rootUntitled)
    else Js.Ok None
|}.

End Sample.

(** ** Facts about the digest *)

Lemma hex_length (bs : list Sha256.byte) :
  String.length (Hmac.hex bs) = (2 * List.length bs)%nat.
Proof.
  induction bs as [|b bs IH]; simpl; [reflexivity|].
  rewrite IH. lia.
Qed.

Lemma stateBytes_length (s : Sha256.state) :
  List.length (Sha256.stateBytes s) = 32%nat.
Proof.
  destruct s. reflexivity.
Qed.

Lemma sha256_length (msg : list Sha256.byte) :
  List.length (Sha256.sha256 msg) = 32%nat.
Proof.
  unfold Sha256.sha256. apply stateBytes_length.
Qed.

(** A hexadecimal HMAC-SHA256 digest has 64 characters. *)
Lemma hmacSha256Hex_length (key msg : string) :
  String.length (Hmac.hmacSha256Hex key msg) = 64%nat.
Proof.
  unfold Hmac.hmacSha256Hex, Hmac.hmacSha256.
  rewrite hex_length, sha256_length. reflexivity.
Qed.

Lemma hmacSha256Hex_not_empty (key msg : string) :
  Hmac.hmacSha256Hex key msg <> "".
Proof.
  intros E. pose proof (hmacSha256Hex_length key msg) as L.
  rewrite E in L. discriminate L.
Qed.

(** The model against published values: the empty message, the two
    messages of FIPS 180-2 appendix B, test case 2 of RFC 4231, and a key
    longer than a block. *)
Example sha256_empty :
  Hmac.hex (Sha256.sha256 [])
  = "e3b0c44298fc1c149afbf4c8996fb92427ae41e4649b934ca495991b7852b855".
Proof. vm_compute. reflexivity. Qed.

Example sha256_abc :
  Hmac.hex (Sha256.sha256 (Hmac.bytesOfString "abc"))
  = "ba7816bf8f01cfea414140de5dae2223b00361a396177a9cb410ff61f20015ad".
Proof. vm_compute. reflexivity. Qed.

Example sha256_two_blocks :
  Hmac.hex (Sha256.sha256
              (Hmac.bytesOfString
                 "abcdbcdecdefdefgefghfghighijhijkijkljklmklmnlmnomnopnopq"))
  = "248d6a61d20638b8e5c026930c3e6039a33ce45964ff2167f6ecedd419db06c1".
Proof. vm_compute. reflexivity. Qed.

Example hmac_rfc4231_case2 :
  Hmac.hmacSha256Hex "Jefe" "what do ya want for nothing?"
  = "5bdcc146bf60754e6a042426089575c75a003f089d2739839dec58b964ec3843".
Proof. vm_compute. reflexivity. Qed.

Example hmac_long_key :
  Hmac.hmacSha256Hex
    "0123456789012345678901234567890123456789012345678901234567890123456789"
    "a=1&B=2"
  = "37af574afb8532c0cedadff918f6619ef2e5650d3e2b96acb2a66763ab189a08".
Proof. vm_compute. reflexivity. Qed.

(** ** Facts about [Array.prototype.sort] *)

Section SortFacts.

Context {A : Type}.
Variable cmp : A -> A -> Z.

Lemma insertBy_perm (x : A) (l : list A) :
  Permutation (Js.insertBy cmp x l) (x :: l).
Proof.
  induction l as [|y l IH]; simpl; [apply Permutation_refl|].
  destruct (cmp x y <=? 0); [apply Permutation_refl|].
  apply perm_trans with (y :: x :: l); [apply perm_skip, IH | apply perm_swap].
Qed.

(** Sorting rearranges: nothing is lost or added. *)
Lemma sort_perm (l : list A) : Permutation (Js.sort cmp l) l.
Proof.
  induction l as [|x l IH]; simpl; [apply perm_nil|].
  apply perm_trans with (x :: Js.sort cmp l);
    [apply insertBy_perm | apply perm_skip, IH].
Qed.

Local Abbreviation before := (Spec.before cmp).
Local Abbreviation StrictOn := (Spec.StrictOn cmp).

Lemma StrictOn_incl (l l' : list A) :
  incl l' l -> StrictOn l -> StrictOn l'.
Proof.
  intros I [T S Tr]. split; intros.
  - apply T; auto.
  - apply S; auto.
  - apply Tr with b; auto.
Qed.

Lemma insertBy_sorted (x : A) (l : list A) :
  StrictOn (x :: l) ->
  (forall y, In y l -> cmp x y <> 0) ->
  StronglySorted before l ->
  StronglySorted before (Js.insertBy cmp x l).
Proof.
  intros St.
  induction l as [|y l IH]; intros Tie Sl; simpl.
  - constructor; constructor.
  - inversion Sl as [|? ? Sl' Fy]; subst.
    destruct (cmp x y <=? 0) eqn:E.
    + apply Z.leb_le in E.
      assert (Hxy : before x y).
      { unfold Spec.before. specialize (Tie y (or_introl eq_refl)). lia. }
      constructor; [exact Sl|].
      constructor; [exact Hxy|].
      rewrite Forall_forall in Fy |- *. intros z Hz.
      apply (Spec.strict_trans _ _ St) with y; simpl; auto.
      apply Fy, Hz.
    + apply Z.leb_gt in E.
      constructor.
      * apply IH; auto.
        -- apply StrictOn_incl with (x :: y :: l); [|exact St].
           intros z [Hz|Hz]; simpl; auto.
        -- intros z Hz. apply Tie. right. exact Hz.
      * rewrite Forall_forall in Fy |- *. intros z Hz.
        apply (Permutation_in _ (insertBy_perm x l)) in Hz.
        destruct Hz as [Hz|Hz]; [subst z | apply Fy, Hz].
        apply (Spec.strict_total _ _ St); simpl; auto.
Qed.

Lemma sort_sorted (l : list A) :
  StrictOn l ->
  ForallOrdPairs (fun a b => cmp a b <> 0) l ->
  StronglySorted before (Js.sort cmp l).
Proof.
  induction l as [|x l IH]; intros St Tie; simpl; [constructor|].
  inversion Tie as [|? ? Fx Tie']; subst.
  apply insertBy_sorted.
  - apply StrictOn_incl with (x :: l); [|exact St].
    intros z [Hz|Hz]; [left; exact Hz|right].
    apply (Permutation_in _ (sort_perm l)), Hz.
  - intros y Hy. rewrite Forall_forall in Fx. apply Fx.
    apply (Permutation_in _ (sort_perm l)), Hy.
  - apply IH; [|exact Tie'].
    apply StrictOn_incl with (x :: l); [|exact St].
    intros z Hz; right; exact Hz.
Qed.

(** Two strictly sorted arrangements of the same elements are equal. *)
Lemma sorted_perm_unique (l1 l2 : list A) :
  StrictOn l1 ->
  StronglySorted before l1 ->
  StronglySorted before l2 ->
  Permutation l1 l2 ->
  l1 = l2.
Proof.
  revert l2.
  induction l1 as [|a l1 IH]; intros l2 St S1 S2 P.
  - apply Permutation_nil in P. subst. reflexivity.
  - destruct l2 as [|b l2].
    { apply Permutation_sym, Permutation_nil in P. discriminate P. }
    inversion S1 as [|? ? S1' F1]; subst.
    inversion S2 as [|? ? S2' F2]; subst.
    assert (Eab : a = b).
    { assert (Ha : In a (b :: l2)) by (apply (Permutation_in _ P); left; reflexivity).
      assert (Hb : In b (a :: l1))
        by (apply (Permutation_in _ (Permutation_sym P)); left; reflexivity).
      destruct Ha as [Ha|Ha]; [symmetry; exact Ha|].
      destruct Hb as [Hb|Hb]; [exact Hb|].
      rewrite Forall_forall in F1, F2.
      pose proof (F1 _ Hb) as Hab. pose proof (F2 _ Ha) as Hba.
      unfold Spec.before in Hab, Hba.
      pose proof (Spec.strict_asym _ _ St a b (or_introl eq_refl) (or_intror Hb) Hab).
      lia. }
    subst b. f_equal.
    apply IH; auto.
    + apply StrictOn_incl with (a :: l1); [|exact St].
      intros z Hz; right; exact Hz.
    + apply Permutation_cons_inv with a. exact P.
Qed.

(** On elements the comparator orders strictly, the sorted array depends
    on the elements only, not on the order they came in. *)
Lemma sort_perm_invariant (l1 l2 : list A) :
  StrictOn l1 ->
  ForallOrdPairs (fun a b => cmp a b <> 0) l1 ->
  ForallOrdPairs (fun a b => cmp a b <> 0) l2 ->
  Permutation l1 l2 ->
  Js.sort cmp l1 = Js.sort cmp l2.
Proof.
  intros St T1 T2 P.
  assert (St2 : StrictOn l2).
  { apply StrictOn_incl with l1; [|exact St].
    intros z Hz. apply (Permutation_in _ (Permutation_sym P)), Hz. }
  apply sorted_perm_unique.
  - apply StrictOn_incl with l1; [|exact St].
    intros z Hz. apply (Permutation_in _ (sort_perm l1)), Hz.
  - apply sort_sorted; assumption.
  - apply sort_sorted; assumption.
  - apply perm_trans with l1; [apply sort_perm|].
    apply perm_trans with l2; [exact P|apply Permutation_sym, sort_perm].
Qed.

Local Abbreviation notAfter := (fun a b : A => cmp a b <= 0).

Lemma ConsistentOn_incl (l l' : list A) :
  incl l' l -> Spec.ConsistentOn cmp l -> Spec.ConsistentOn cmp l'.
Proof.
  intros I [S T]. split; intros.
  - apply S; auto.
  - apply T with b; auto.
Qed.

Lemma insertBy_sorted_notAfter (x : A) (l : list A) :
  Spec.ConsistentOn cmp (x :: l) ->
  StronglySorted notAfter l ->
  StronglySorted notAfter (Js.insertBy cmp x l).
Proof.
  intros C.
  induction l as [|y l IH]; intros Sl; simpl.
  - constructor; constructor.
  - inversion Sl as [|? ? Sl' Fy]; subst.
    destruct (cmp x y <=? 0) eqn:E.
    + apply Z.leb_le in E.
      constructor; [exact Sl|].
      constructor; [exact E|].
      rewrite Forall_forall in Fy |- *. intros z Hz.
      apply (Spec.consistent_trans _ _ C) with y; simpl; auto.
    + apply Z.leb_gt in E.
      constructor.
      * apply IH; [|exact Sl'].
        apply ConsistentOn_incl with (x :: y :: l); [|exact C].
        intros z [Hz|Hz]; simpl; auto.
      * rewrite Forall_forall in Fy |- *. intros z Hz.
        apply (Permutation_in _ (insertBy_perm x l)) in Hz.
        destruct Hz as [Hz|Hz]; [subst z | apply Fy, Hz].
        pose proof (Spec.consistent_sgn _ _ C x y (or_introl eq_refl)
                      (or_intror (or_introl eq_refl))) as Sg.
        lia.
Qed.

(** With a consistent comparator the result is in order. *)
Lemma sort_sorted_notAfter (l : list A) :
  Spec.ConsistentOn cmp l -> StronglySorted notAfter (Js.sort cmp l).
Proof.
  induction l as [|x l IH]; intros C; simpl; [constructor|].
  apply insertBy_sorted_notAfter.
  - apply ConsistentOn_incl with (x :: l); [|exact C].
    intros z [Hz|Hz]; [left; exact Hz|right].
    apply (Permutation_in _ (sort_perm l)), Hz.
  - apply IH. apply ConsistentOn_incl with (x :: l); [|exact C].
    intros z Hz; right; exact Hz.
Qed.

Lemma insertBy_stable (u : list A) (k x : A) (l : list A) :
  Spec.ConsistentOn cmp u -> In k u -> In x u -> incl l u ->
  filter (fun e => cmp e k =? 0) (Js.insertBy cmp x l)
  = filter (fun e => cmp e k =? 0) (x :: l).
Proof.
  intros C Hk Hx.
  induction l as [|y l IH]; intros I; [reflexivity|].
  simpl. destruct (cmp x y <=? 0) eqn:E; [reflexivity|].
  apply Z.leb_gt in E.
  assert (Hy : In y u) by (apply I; left; reflexivity).
  simpl. rewrite IH by (intros z Hz; apply I; right; exact Hz).
  simpl.
  destruct (cmp x k =? 0) eqn:Ex, (cmp y k =? 0) eqn:Ey; try reflexivity.
  exfalso. apply Z.eqb_eq in Ex, Ey.
  pose proof (Spec.consistent_sgn _ _ C y k Hy Hk) as Sg.
  assert (cmp x y <= 0); [|lia].
  apply (Spec.consistent_trans _ _ C) with k; auto; lia.
Qed.

(** The sort is stable: the elements that compare equal to [k] keep the
    order they came in. *)
Lemma sort_stable (u : list A) (k : A) (l : list A) :
  Spec.ConsistentOn cmp u -> In k u -> incl l u ->
  filter (fun e => cmp e k =? 0) (Js.sort cmp l)
  = filter (fun e => cmp e k =? 0) l.
Proof.
  intros C Hk.
  induction l as [|x l IH]; intros I; [reflexivity|].
  simpl Js.sort.
  rewrite (insertBy_stable u k x (Js.sort cmp l) C Hk).
  - simpl. rewrite IH by (intros z Hz; apply I; right; exact Hz). reflexivity.
  - apply I. left. reflexivity.
  - intros z Hz. apply I. right.
    apply (Permutation_in _ (sort_perm l)), Hz.
Qed.

End SortFacts.

(** ** Facts about query strings *)

Lemma get_In (name : string) (q : URLSearchParams.t) (v : string) :
  URLSearchParams.get name q = Some v -> In (name, v) q.
Proof.
  induction q as [|[k w] q IH]; simpl; [discriminate|].
  destruct (String.eqb k name) eqn:E.
  - apply String.eqb_eq in E. intros [= ->]. left. subst. reflexivity.
  - intros H. right. apply IH, H.
Qed.

Lemma get_None_not_In (name : string) (q : URLSearchParams.t) :
  URLSearchParams.get name q = None -> ~ In name (map fst q).
Proof.
  induction q as [|[k w] q IH]; simpl; [tauto|].
  destruct (String.eqb k name) eqn:E; [discriminate|].
  apply String.eqb_neq in E. intros H [K|K]; [contradiction|].
  apply IH; assumption.
Qed.

(** With no repeated name, [get] finds the one pair of that name. *)
Lemma In_get (name : string) (q : URLSearchParams.t) (v : string) :
  NoDup (map fst q) -> In (name, v) q -> URLSearchParams.get name q = Some v.
Proof.
  induction q as [|[k w] q IH]; simpl; [tauto|].
  intros N H. inversion N as [|? ? Nk N']; subst.
  destruct H as [H|H].
  - injection H as -> ->. rewrite String.eqb_refl. reflexivity.
  - destruct (String.eqb k name) eqn:E; [|apply IH; assumption].
    apply String.eqb_eq in E. subst k. exfalso. apply Nk.
    apply (in_map fst) in H. exact H.
Qed.

Lemma get_perm (name : string) (q1 q2 : URLSearchParams.t) :
  NoDup (map fst q1) -> Permutation q1 q2 ->
  URLSearchParams.get name q1 = URLSearchParams.get name q2.
Proof.
  intros N P.
  assert (N2 : NoDup (map fst q2)).
  { apply Permutation_NoDup with (map fst q1); [apply Permutation_map, P|exact N]. }
  destruct (URLSearchParams.get name q1) as [v|] eqn:E1.
  - symmetry. apply In_get; [exact N2|].
    apply (Permutation_in _ P), get_In, E1.
  - destruct (URLSearchParams.get name q2) as [v|] eqn:E2; [|reflexivity].
    exfalso. apply (get_None_not_In _ _ E1).
    apply get_In in E2. apply (Permutation_in _ (Permutation_sym P)) in E2.
    apply (in_map fst) in E2. exact E2.
Qed.

Lemma delete_perm (name : string) (q1 q2 : URLSearchParams.t) :
  Permutation q1 q2 ->
  Permutation (URLSearchParams.delete name q1) (URLSearchParams.delete name q2).
Proof.
  unfold URLSearchParams.delete.
  induction 1 as [|x l l' P IH|x y l|l l' l'' P1 IH1 P2 IH2]; simpl.
  - apply perm_nil.
  - destruct (negb (String.eqb (fst x) name)); [apply perm_skip|]; exact IH.
  - destruct (negb (String.eqb (fst y) name)), (negb (String.eqb (fst x) name));
      try apply Permutation_refl.
    apply perm_swap.
  - apply perm_trans with (filter (fun kv => negb (String.eqb (fst kv) name)) l');
      assumption.
Qed.

Lemma delete_incl (name : string) (q : URLSearchParams.t) :
  incl (URLSearchParams.delete name q) q.
Proof.
  intros kv H. apply filter_In in H. apply H.
Qed.

Lemma delete_NoDup (name : string) (q : URLSearchParams.t) :
  NoDup (map fst q) -> NoDup (map fst (URLSearchParams.delete name q)).
Proof.
  unfold URLSearchParams.delete.
  induction q as [|kv q IH]; simpl; intros N; [constructor|].
  inversion N as [|? ? Nk N']; subst.
  destruct (negb (String.eqb (fst kv) name)); simpl; [|apply IH, N'].
  constructor; [|apply IH, N'].
  intros H. apply Nk. apply in_map_iff in H. destruct H as [kv' [E H]].
  apply filter_In in H. rewrite <- E. apply in_map, H.
Qed.

(** The four conditions [strictOrderOn] tests, as propositions. *)
Lemma strictOrderOn_true (cmp : string -> string -> Z) (ks : list string) :
  Spec.strictOrderOn cmp ks = true ->
  forall a b, In a ks -> In b ks ->
    (cmp a b = 0 -> a = b)
    /\ (0 < cmp a b -> cmp b a < 0)
    /\ (cmp a b < 0 -> 0 < cmp b a)
    /\ (forall c, In c ks -> cmp a b < 0 -> cmp b c < 0 -> cmp a c < 0).
Proof.
  unfold Spec.strictOrderOn. intros H a b Ha Hb.
  rewrite forallb_forall in H. specialize (H a Ha).
  rewrite forallb_forall in H. specialize (H b Hb).
  repeat (apply andb_prop in H; destruct H as [H ?]).
  repeat split.
  - intros E. apply String.eqb_eq.
    destruct (cmp a b =? 0) eqn:Z0; [exact H|]. apply Z.eqb_neq in Z0. contradiction.
  - intros L. apply Z.ltb_lt.
    destruct (0 <? cmp a b) eqn:Z0; [assumption|]. apply Z.ltb_ge in Z0. lia.
  - intros L. apply Z.ltb_lt.
    destruct (cmp a b <? 0) eqn:Z0; [assumption|]. apply Z.ltb_ge in Z0. lia.
  - intros c Hc L1 L2.
    match goal with F : forallb _ ks = true |- _ =>
      rewrite forallb_forall in F; specialize (F c Hc) end.
    apply Z.ltb_lt.
    apply Z.ltb_lt in L1, L2. rewrite L1, L2 in *. simpl in *. assumption.
Qed.

Section KeyOrder.

Variable cmp : string -> string -> Z.

Local Abbreviation byKey :=
  (fun a b : string * string => cmp (fst a) (fst b)).

Lemma strictOrderOn_StrictOn (q : URLSearchParams.t) :
  Spec.strictOrderOn cmp (map fst q) = true -> Spec.StrictOn byKey q.
Proof.
  intros H. pose proof (strictOrderOn_true _ _ H) as S.
  split.
  - intros a b Ha Hb. apply S; apply in_map; assumption.
  - intros a b Ha Hb. apply S; apply in_map; assumption.
  - intros a b c Ha Hb Hc.
    destruct (S (fst a) (fst b) (in_map fst _ _ Ha) (in_map fst _ _ Hb))
      as (_ & _ & _ & T).
    apply T. apply in_map, Hc.
Qed.

Lemma distinct_keys_no_tie (q : URLSearchParams.t) :
  Spec.strictOrderOn cmp (map fst q) = true ->
  NoDup (map fst q) ->
  ForallOrdPairs (fun a b => byKey a b <> 0) q.
Proof.
  intros H.
  assert (T : forall a b, In a (map fst q) -> In b (map fst q) -> cmp a b = 0 -> a = b).
  { intros a b Ha Hb. apply (strictOrderOn_true _ _ H); assumption. }
  clear H.
  induction q as [|kv q IH]; intros N; [constructor|].
  simpl in N. inversion N as [|? ? Nk N']; subst.
  constructor.
  - apply Forall_forall. intros kv' Hin E.
    apply Nk.
    rewrite (T (fst kv) (fst kv')); simpl; auto.
    + apply in_map, Hin.
    + right. apply in_map, Hin.
  - apply IH; [|exact N'].
    intros a b Ha Hb. apply T; right; assumption.
Qed.

Lemma strictOrderOn_incl (ks ks' : list string) :
  incl ks' ks -> Spec.strictOrderOn cmp ks = true -> Spec.strictOrderOn cmp ks' = true.
Proof.
  unfold Spec.strictOrderOn. intros I H.
  rewrite forallb_forall in H |- *. intros a Ha.
  specialize (H a (I _ Ha)).
  rewrite forallb_forall in H |- *. intros b Hb.
  specialize (H b (I _ Hb)).
  repeat (apply andb_prop in H; destruct H as [H ?]).
  repeat (apply andb_true_intro; split); try assumption.
  match goal with F : forallb _ ks = true |- _ => rewrite forallb_forall in F end.
  apply forallb_forall. intros c Hc. auto.
Qed.

(** With pairwise distinct keys that the comparator orders strictly, the
    canonical string is the same for every order of the parameters. *)
Lemma canonicalString_perm (q1 q2 : URLSearchParams.t) :
  Permutation q1 q2 ->
  NoDup (map fst q1) ->
  Spec.strictOrderOn cmp (map fst q1) = true ->
  Spec.canonicalString cmp q1 = Spec.canonicalString cmp q2.
Proof.
  intros P N H. unfold Spec.canonicalString.
  set (d1 := URLSearchParams.delete "signature" q1).
  set (d2 := URLSearchParams.delete "signature" q2).
  assert (Pd : Permutation d1 d2) by (apply delete_perm, P).
  assert (H1 : Spec.strictOrderOn cmp (map fst d1) = true).
  { apply strictOrderOn_incl with (map fst q1); [|exact H].
    apply incl_map, delete_incl. }
  assert (N1 : NoDup (map fst d1)) by (apply delete_NoDup, N).
  assert (H2 : Spec.strictOrderOn cmp (map fst d2) = true).
  { apply strictOrderOn_incl with (map fst d1); [|exact H1].
    intros k Hk. apply (Permutation_in k (Permutation_map fst (Permutation_sym Pd))), Hk. }
  assert (N2 : NoDup (map fst d2)).
  { apply Permutation_NoDup with (map fst d1); [apply Permutation_map, Pd|exact N1]. }
  rewrite (sort_perm_invariant byKey d1 d2); auto.
  - apply strictOrderOn_StrictOn, H1.
  - apply distinct_keys_no_tie; assumption.
  - apply distinct_keys_no_tie; assumption.
Qed.

Lemma consistentOn_ConsistentOn (q : URLSearchParams.t) :
  Spec.consistentOn cmp (map fst q) = true -> Spec.ConsistentOn byKey q.
Proof.
  unfold Spec.consistentOn. intros H. rewrite forallb_forall in H.
  assert (P : forall a b, In a (map fst q) -> In b (map fst q) ->
              Z.sgn (cmp b a) = - Z.sgn (cmp a b)
              /\ forall c, In c (map fst q) ->
                   cmp a b <= 0 -> cmp b c <= 0 -> cmp a c <= 0).
  { intros a b Ha Hb. specialize (H a Ha).
    rewrite forallb_forall in H. specialize (H b Hb).
    apply andb_prop in H. destruct H as [H1 H2].
    split; [apply Z.eqb_eq, H1|].
    intros c Hc L1 L2. rewrite forallb_forall in H2. specialize (H2 c Hc).
    apply Z.leb_le in L1, L2. rewrite L1, L2 in H2. apply Z.leb_le, H2. }
  split.
  - intros a b Ha Hb. apply P; apply in_map; assumption.
  - intros a b c Ha Hb Hc.
    apply (P (fst a) (fst b)); apply in_map; assumption.
Qed.

(** What the canonical string is made of: the parameters other than
    [signature], each once; in key order when the comparator is
    consistent on the keys; and those whose keys compare equal in the
    order of the request. *)
Lemma canonicalString_sorted (q : URLSearchParams.t) :
  exists sorted,
    Spec.canonicalString cmp q = Js.join "&" (map Spec.keyValue sorted)
    /\ Permutation sorted
         (filter (fun kv => negb (String.eqb (fst kv) "signature")) q)
    /\ (Spec.consistentOn cmp (map fst q) = true ->
        StronglySorted (fun a b => cmp (fst a) (fst b) <= 0) sorted
        /\ forall k, In k (map fst q) ->
             filter (Spec.ties cmp k) sorted
             = filter (Spec.ties cmp k)
                 (filter (fun kv => negb (String.eqb (fst kv) "signature")) q)).
Proof.
  exists (Js.sort byKey (URLSearchParams.delete "signature" q)).
  split; [reflexivity|].
  split; [apply sort_perm|].
  intros H. pose proof (consistentOn_ConsistentOn q H) as C.
  split.
  - apply (sort_sorted_notAfter byKey).
    apply ConsistentOn_incl with q; [apply delete_incl|exact C].
  - intros k Hk. apply in_map_iff in Hk. destruct Hk as (kv0 & <- & Hin).
    apply (sort_stable byKey q kv0); [exact C|exact Hin|apply delete_incl].
Qed.

End KeyOrder.

(** ** The signature check *)

Section VerifyFacts.

Context {R : Runtime}.
Variable secret : string.

(** The check, read off its definition: the first [signature] value must
    be a non-empty string equal to the digest of the canonical string. *)
Lemma verify_unfold (q : URLSearchParams.t) :
  verifyShopifySignature secret q =
  match URLSearchParams.get "signature" q with
  | Some s =>
      Js.truthy (Some s)
      && String.eqb (Hmac.hmacSha256Hex secret (Spec.canonicalString localeCompare q)) s
  | None => false
  end.
Proof.
  unfold verifyShopifySignature, Spec.canonicalString, URLSearchParams.entries.
  destruct (URLSearchParams.get "signature" q) as [s|]; [|reflexivity].
  destruct (Js.truthy (Some s)); reflexivity.
Qed.

End VerifyFacts.

(** C1, as amended: when the first [signature] value of the query is [s],
    the check returns true exactly when the lowercase hexadecimal
    HMAC-SHA256 digest, keyed with the secret, of the canonical string is
    [s].  The canonical string joins with ampersands, as key=value, the
    parameters other than [signature], ordered by key with [localeCompare]
    (collation order, not byte order): in order whenever [localeCompare]
    is consistent on the keys, parameters whose keys compare equal staying
    in the order of the request. *)
Theorem verify_true_iff_digest_of_locale_canonical
  (R : Runtime) (secret : string) (q : URLSearchParams.t) (s : string) :
  URLSearchParams.get "signature" q = Some s ->
  (verifyShopifySignature secret q = true
   <-> Hmac.hmacSha256Hex secret (Spec.canonicalString localeCompare q) = s)
  /\ exists sorted,
       Spec.canonicalString localeCompare q
       = Js.join "&" (map Spec.keyValue sorted)
       /\ Permutation sorted
            (filter (fun kv => negb (String.eqb (fst kv) "signature")) q)
       /\ (Spec.consistentOn localeCompare (map fst q) = true ->
           StronglySorted
             (fun a b => localeCompare (fst a) (fst b) <= 0) sorted
           /\ forall k, In k (map fst q) ->
                filter (Spec.ties localeCompare k) sorted
                = filter (Spec.ties localeCompare k)
                    (filter (fun kv => negb (String.eqb (fst kv) "signature")) q)).
Proof.
  intros G. split; [|apply canonicalString_sorted].
  rewrite verify_unfold, G. split.
  - intros H. apply andb_prop in H. apply String.eqb_eq, H.
  - intros E. apply andb_true_intro. split.
    + unfold Js.truthy. destruct (String.eqb s "") eqn:Es; [|reflexivity].
      apply String.eqb_eq in Es. rewrite Es in E.
      exfalso. exact (hmacSha256Hex_not_empty _ _ E).
    + apply String.eqb_eq, E.
Qed.

Lemma verify_true_iff_digest_witness :
  URLSearchParams.get "signature" Sample.signedQuery
  = Some "20d995adb8dc779f580f332c519ad2fc12d16b31a12c28872ceda1eccf05a15d"
  /\ Spec.consistentOn (@localeCompare Sample.runtime) (map fst Sample.signedQuery) = true
  /\ verifyShopifySignature (R := Sample.runtime) Sample.secret Sample.signedQuery = true.
Proof.
  split; [reflexivity|].
  split; [vm_compute; reflexivity|].
  apply (proj1 (verify_true_iff_digest_of_locale_canonical Sample.runtime
                  Sample.secret Sample.signedQuery _ eq_refl)).
  vm_compute. reflexivity.
Defined.

(** C1 as stated fails: with the keys [a] and [B], collation puts [a]
    first and the byte order puts [B] first.  The request below carries
    the digest of [a=1&B=2]: the check accepts it, and the digest of the
    byte-ordered string [B=2&a=1] is another one. *)
Lemma verify_byte_order_counterexample :
  let s := "63fe1f80bd2991266da21c6f41002278a2c9848f4fb916b91f74f34664c10c1b" in
  let q := [("a", "1"); ("B", "2"); ("signature", s)] in
  verifyShopifySignature (R := Sample.runtime) "hush" q = true
  /\ Spec.canonicalString Spec.byteCompare q = "B=2&a=1"
  /\ String.eqb (Hmac.hmacSha256Hex "hush" (Spec.canonicalString Spec.byteCompare q)) s
     = false.
Proof.
  vm_compute. repeat split.
Qed.

(** C4: without a [signature] field the check returns false.  The model
    is a total function with no state, so there is nothing it could throw
    or change. *)
Theorem verify_false_without_signature
  (R : Runtime) (secret : string) (q : URLSearchParams.t) :
  URLSearchParams.get "signature" q = None ->
  verifyShopifySignature secret q = false.
Proof.
  intros G. rewrite verify_unfold, G. reflexivity.
Qed.

Lemma verify_false_without_signature_witness :
  let q := [("shop", "audacem.myshopify.com"); ("timestamp", "1700000000")] in
  URLSearchParams.get "signature" q = None
  /\ verifyShopifySignature (R := Sample.runtime) "hush" q = false.
Proof.
  split; [reflexivity|].
  apply (verify_false_without_signature Sample.runtime "hush"). reflexivity.
Defined.

(** C5, as amended: for two orders of the same parameters in which no key
    occurs twice and whose keys [localeCompare] orders strictly, the check
    returns the same boolean. *)
Theorem verify_invariant_under_reordering_of_distinct_keys
  (R : Runtime) (secret : string) (q1 q2 : URLSearchParams.t) :
  Permutation q1 q2 ->
  NoDup (map fst q1) ->
  Spec.strictOrderOn localeCompare (map fst q1) = true ->
  verifyShopifySignature secret q1 = verifyShopifySignature secret q2.
Proof.
  intros P N H. rewrite !verify_unfold.
  rewrite (get_perm "signature" q1 q2 N P).
  rewrite (canonicalString_perm localeCompare q1 q2 P N H).
  reflexivity.
Qed.

Lemma verify_invariant_under_reordering_witness :
  let s := "20d995adb8dc779f580f332c519ad2fc12d16b31a12c28872ceda1eccf05a15d" in
  let q1 := [("shop", "audacem.myshopify.com"); ("path_prefix", "/apps/blog");
             ("signature", s)] in
  let q2 := [("signature", s); ("path_prefix", "/apps/blog");
             ("shop", "audacem.myshopify.com")] in
  verifyShopifySignature (R := Sample.runtime) "hush" q1 = true
  /\ verifyShopifySignature (R := Sample.runtime) "hush" q1
     = verifyShopifySignature (R := Sample.runtime) "hush" q2.
Proof.
  split; [vm_compute; reflexivity|].
  apply (verify_invariant_under_reordering_of_distinct_keys Sample.runtime "hush").
  - set (a := ("shop", "audacem.myshopify.com")).
    set (b := ("path_prefix", "/apps/blog")).
    set (c := ("signature", _)).
    apply perm_trans with [a; c; b]; [apply perm_skip, perm_swap|].
    apply perm_trans with [c; a; b]; [apply perm_swap|].
    apply perm_skip, perm_swap.
  - simpl. repeat constructor; simpl; intuition discriminate.
  - vm_compute. reflexivity.
Defined.

(** C5 as stated fails: the sort is stable and compares keys only, so two
    parameters with the same key stay in request order, and swapping them
    changes the canonical string. *)
Lemma verify_reordering_counterexample :
  let s := "ce862c26230288c68a40bd9f4c41fb9d74fbe144133acf11934073159b5c3980" in
  let q1 := [("a", "1"); ("a", "2"); ("signature", s)] in
  let q2 := [("a", "2"); ("a", "1"); ("signature", s)] in
  Permutation q1 q2
  /\ verifyShopifySignature (R := Sample.runtime) "secret" q1 = true
  /\ verifyShopifySignature (R := Sample.runtime) "secret" q2 = false.
Proof.
  split; [apply perm_swap|].
  vm_compute. split; reflexivity.
Qed.

(** ** Facts about strings, joins and loops *)

Lemma append_assoc (a b c : string) : (a ++ b) ++ c = a ++ b ++ c.
Proof.
  induction a as [|x a IH]; simpl; [reflexivity|]. rewrite IH. reflexivity.
Qed.

Lemma append_nil_r (a : string) : a ++ "" = a.
Proof.
  induction a as [|x a IH]; simpl; [reflexivity|]. rewrite IH. reflexivity.
Qed.

(** Joining with the empty separator is plain concatenation. *)
Lemma join_empty (l : list string) :
  Js.join "" l = fold_right String.append "" l.
Proof.
  unfold Js.join.
  induction l as [|x l IH]; [reflexivity|].
  destruct l as [|y l].
  - simpl. symmetry. apply append_nil_r.
  - change (String.concat "" (x :: y :: l)) with (x ++ "" ++ String.concat "" (y :: l)).
    rewrite IH. reflexivity.
Qed.

Lemma join_empty_cons (x : string) (l : list string) :
  Js.join "" (x :: l) = x ++ Js.join "" l.
Proof.
  rewrite !join_empty. reflexivity.
Qed.

Lemma join_empty_app (l1 l2 : list string) :
  Js.join "" (l1 ++ l2) = Js.join "" l1 ++ Js.join "" l2.
Proof.
  induction l1 as [|x l1 IH].
  - rewrite !join_empty. reflexivity.
  - change ((x :: l1) ++ l2)%list with (x :: (l1 ++ l2))%list.
    rewrite !join_empty_cons, IH, append_assoc. reflexivity.
Qed.

Lemma mapM_app {A B : Type} (f : A -> Js.Exc B) (l1 l2 : list A) :
  Js.mapM f (l1 ++ l2) =
  Js.bind (Js.mapM f l1) (fun a =>
    Js.bind (Js.mapM f l2) (fun b => Js.Ok (a ++ b)%list)).
Proof.
  induction l1 as [|x l1 IH]; simpl.
  - destruct (Js.mapM f l2); reflexivity.
  - destruct (f x) as [y|e]; simpl; [|reflexivity].
    rewrite IH.
    destruct (Js.mapM f l1) as [a|e]; simpl; [|reflexivity].
    destruct (Js.mapM f l2) as [b|e]; reflexivity.
Qed.

(** ** The handlers' responses *)

(** C3: once the signature is verified, every exception of the fetch or
    of the rendering, the missing record and the empty author list among
    them, ends in status 404 with the body [Content not found]; the
    exception goes to the log only.  Both routes. *)
Theorem failure_after_verification_is_404 (R : Runtime) (secret : string) :
  (forall store request e,
     verifyShopifySignature secret (CatchAll.searchParams request) = true ->
     CatchAll.render store (CatchAll.slugOf request) = Js.Throw e ->
     CatchAll.GET secret store request
     = mkHandled (mkResponse "Content not found" 404 []) (Some e))
  /\ (forall store request e,
        verifyShopifySignature secret (Root.searchParams request) = true ->
        Root.fetchAndRenderPost store (Root.slugOf request) = Js.Throw e ->
        Root.GET secret store request
        = mkHandled (mkResponse "Content not found" 404 []) (Some e))
  /\ (forall store slug,
        CatchAll.fetchPost store slug = Js.Ok None ->
        CatchAll.fetchAndRenderPost store slug
        = Js.Throw (Js.ErrorMsg ("Post not found: " ++ slug)))
  /\ (forall store,
        CatchAll.fetchAuthors store = Js.Ok None
        \/ CatchAll.fetchAuthors store = Js.Ok (Some []) ->
        CatchAll.fetchAndRenderAuthorList store
        = Js.Throw (Js.ErrorMsg "No authors found"))
  /\ (forall store slug,
        Root.fetchPost store slug = Js.Ok None ->
        Root.fetchAndRenderPost store slug
        = Js.Throw (Js.ErrorMsg ("Post not found: " ++ slug)))
  /\ (forall store slug e,
        CatchAll.fetchPost store slug = Js.Throw e ->
        CatchAll.fetchAndRenderPost store slug = Js.Throw e)
  /\ (forall store e,
        CatchAll.fetchAuthors store = Js.Throw e ->
        CatchAll.fetchAndRenderAuthorList store = Js.Throw e)
  /\ (forall store slug e,
        Root.fetchPost store slug = Js.Throw e ->
        Root.fetchAndRenderPost store slug = Js.Throw e).
Proof.
  repeat split.
  - intros store request e V T. unfold CatchAll.GET. rewrite V, T. reflexivity.
  - intros store request e V T. unfold Root.GET. rewrite V, T. reflexivity.
  - intros store slug F. unfold CatchAll.fetchAndRenderPost. rewrite F. reflexivity.
  - intros store [F|F]; unfold CatchAll.fetchAndRenderAuthorList; rewrite F; reflexivity.
  - intros store slug F. unfold Root.fetchAndRenderPost. rewrite F. reflexivity.
  - intros store slug e F. unfold CatchAll.fetchAndRenderPost. rewrite F. reflexivity.
  - intros store e F. unfold CatchAll.fetchAndRenderAuthorList. rewrite F. reflexivity.
  - intros store slug e F. unfold Root.fetchAndRenderPost. rewrite F. reflexivity.
Qed.

(** C8: once the signature is verified, a fetch and rendering that
    return give status 200 with exactly the two headers of the source.
    Both routes. *)
Theorem success_is_200_liquid_cached (R : Runtime) (secret : string) :
  (forall store request html,
     verifyShopifySignature secret (CatchAll.searchParams request) = true ->
     CatchAll.render store (CatchAll.slugOf request) = Js.Ok html ->
     CatchAll.GET secret store request
     = mkHandled
         (mkResponse html 200
            [("Content-Type", "application/liquid");
             ("Cache-Control", "public, max-age=300")])
         None)
  /\ (forall store request html,
        verifyShopifySignature secret (Root.searchParams request) = true ->
        Root.fetchAndRenderPost store (Root.slugOf request) = Js.Ok html ->
        Root.GET secret store request
        = mkHandled
            (mkResponse html 200
               [("Content-Type", "application/liquid");
                ("Cache-Control", "public, max-age=300")])
            None).
Proof.
  split; intros store request html V T.
  - unfold CatchAll.GET. rewrite V, T. reflexivity.
  - unfold Root.GET. rewrite V, T. reflexivity.
Qed.

(** C6: a block whose kind has no case in [renderBody] renders as the
    empty string without an exception; the other blocks of the sequence
    render, or throw, as they do without it, their contributions standing
    around its empty one; and the body is the body with that block
    removed. *)
Theorem unknown_block_contributes_nothing
  (R : Runtime) (before after : list CatchAll.Block) (u : CatchAll.Block) :
  Spec.knownKind (CatchAll.blockType u) = false ->
  CatchAll.renderBlock u = Js.Ok ""
  /\ Js.mapM CatchAll.renderBlock (before ++ u :: after)%list
     = Js.bind (Js.mapM CatchAll.renderBlock before) (fun a =>
         Js.bind (Js.mapM CatchAll.renderBlock after) (fun b =>
           Js.Ok (a ++ "" :: b)%list))
  /\ CatchAll.renderBody (Some (before ++ u :: after)%list)
     = CatchAll.renderBody (Some (before ++ after)%list).
Proof.
  intros K.
  assert (U : CatchAll.renderBlock u = Js.Ok "").
  { unfold Spec.knownKind in K. simpl in K.
    repeat (apply orb_false_elim in K; destruct K as [? K]).
    unfold CatchAll.renderBlock.
    repeat match goal with H : String.eqb _ _ = false |- _ => rewrite H; clear H end.
    reflexivity. }
  assert (M : Js.mapM CatchAll.renderBlock (before ++ u :: after)%list
              = Js.bind (Js.mapM CatchAll.renderBlock before) (fun a =>
                  Js.bind (Js.mapM CatchAll.renderBlock after) (fun b =>
                    Js.Ok (a ++ "" :: b)%list))).
  { rewrite mapM_app. cbn [Js.mapM]. rewrite U. cbn [Js.bind].
    destruct (Js.mapM CatchAll.renderBlock before) as [a|e]; cbn [Js.bind];
      [|reflexivity].
    destruct (Js.mapM CatchAll.renderBlock after) as [b|e]; reflexivity. }
  split; [exact U|]. split; [exact M|].
  unfold CatchAll.renderBody. rewrite M, mapM_app.
  destruct (Js.mapM CatchAll.renderBlock before) as [a|e]; cbn [Js.bind]; [|reflexivity].
  destruct (Js.mapM CatchAll.renderBlock after) as [b|e]; cbn [Js.bind]; [|reflexivity].
  rewrite !join_empty_app, join_empty_cons. reflexivity.
Qed.

Lemma failure_after_verification_witness :
  let request := Sample.request (Some ["casse"]) in
  verifyShopifySignature (R := Sample.runtime) Sample.secret
    (CatchAll.searchParams request) = true
  /\ CatchAll.render Sample.store (CatchAll.slugOf request) = Js.Throw Js.TypeError
  /\ CatchAll.GET Sample.secret Sample.store request
     = mkHandled (mkResponse "Content not found" 404 []) (Some Js.TypeError).
Proof.
  split; [vm_compute; reflexivity|].
  split; [vm_compute; reflexivity|].
  apply (proj1 (failure_after_verification_is_404 Sample.runtime Sample.secret));
    vm_compute; reflexivity.
Defined.

Lemma success_is_200_witness :
  let request := Sample.request (Some ["sans-titre"]) in
  exists html,
    verifyShopifySignature (R := Sample.runtime) Sample.secret
      (CatchAll.searchParams request) = true
    /\ CatchAll.render Sample.store (CatchAll.slugOf request) = Js.Ok html
    /\ CatchAll.GET Sample.secret Sample.store request
       = mkHandled
           (mkResponse html 200
              [("Content-Type", "application/liquid");
               ("Cache-Control", "public, max-age=300")])
           None.
Proof.
  eexists.
  split; [vm_compute; reflexivity|].
  split; [vm_compute; reflexivity|].
  apply (proj1 (success_is_200_liquid_cached Sample.runtime Sample.secret));
    vm_compute; reflexivity.
Defined.

Lemma unknown_block_witness :
  Spec.knownKind (CatchAll.blockType Sample.video) = false
  /\ CatchAll.renderBlock Sample.video = Js.Ok ""
  /\ CatchAll.renderBody (Some ([Sample.intro] ++ Sample.video :: [Sample.faq])%list)
     = CatchAll.renderBody (Some ([Sample.intro] ++ [Sample.faq])%list).
Proof.
  split; [reflexivity|].
  pose proof (unknown_block_contributes_nothing Sample.runtime
                [Sample.intro] [Sample.faq] Sample.video eq_refl) as (U & _ & B).
  split; [exact U|exact B].
Defined.

(** ** Where a fragment stands in a document *)

Lemma occurs_here (f rest : string) : Spec.occursIn f (f ++ rest).
Proof.
  exists "", rest. reflexivity.
Qed.

Lemma occurs_right (f p s : string) :
  Spec.occursIn f s -> Spec.occursIn f (p ++ s).
Proof.
  intros (a & b & ->). exists (p ++ a), b. symmetry. apply append_assoc.
Qed.

Lemma occurs_left (f s rest : string) :
  Spec.occursIn f s -> Spec.occursIn f (s ++ rest).
Proof.
  intros (a & b & ->). exists a, (b ++ rest).
  rewrite !append_assoc. reflexivity.
Qed.

Lemma truthy_Some (s : string) : s <> "" -> Js.truthy (Some s) = true.
Proof.
  intros N. unfold Js.truthy. apply String.eqb_neq in N. rewrite N. reflexivity.
Qed.

Lemma Ok_inj {A : Type} (a b : A) : Js.Ok a = Js.Ok b -> a = b.
Proof.
  intros H. injection H as ->. reflexivity.
Qed.

Ltac find_fragment :=
  repeat first [ apply occurs_here | apply occurs_right ].

(** ** Counting characters: what escaping leaves of the markup characters *)

Section Counting.

Variable c : ascii.

Lemma countChar_app (a b : string) :
  Js.countChar c (a ++ b) = (Js.countChar c a + Js.countChar c b)%nat.
Proof.
  induction a as [|x a IH]; simpl; [reflexivity|]. rewrite IH. lia.
Qed.

Lemma countChar_replaceAll (d : ascii) (rep s : string) :
  Js.countChar c (Js.replaceAll d rep s)
  = ((if Ascii.eqb c d then 0 else Js.countChar c s)
     + Js.countChar d s * Js.countChar c rep)%nat.
Proof.
  induction s as [|x s IH]; simpl.
  - destruct (Ascii.eqb c d); reflexivity.
  - destruct (Ascii.eqb x d) eqn:Exd.
    + apply Ascii.eqb_eq in Exd. subst x.
      rewrite countChar_app, IH, (Ascii.eqb_sym d c).
      destruct (Ascii.eqb c d); nia.
    + simpl. rewrite IH.
      destruct (Ascii.eqb c d) eqn:Ecd; [|lia].
      apply Ascii.eqb_eq in Ecd. subst d. rewrite Exd. lia.
Qed.

Lemma countChar_join_empty (l : list string) :
  Js.countChar c (Js.join "" l) = list_sum (map (Js.countChar c) l).
Proof.
  induction l as [|x l IH]; [reflexivity|].
  rewrite join_empty_cons, countChar_app, IH. reflexivity.
Qed.

(** Joining strings free of [c] with a separator free of [c]. *)
Lemma countChar_join_zero (sep : string) (l : list string) :
  Js.countChar c sep = 0%nat ->
  Forall (fun s => Js.countChar c s = 0%nat) l ->
  Js.countChar c (Js.join sep l) = 0%nat.
Proof.
  intros Hs. unfold Js.join.
  induction 1 as [|x l Hx Hl IH]; [reflexivity|].
  destruct l as [|y l]; [exact Hx|].
  change (String.concat sep (x :: y :: l)) with (x ++ sep ++ String.concat sep (y :: l)).
  rewrite !countChar_app, Hx, Hs, IH. reflexivity.
Qed.

End Counting.

Lemma fourPasses_no_markup (s : string) :
  Js.countChar "<" (Spec.fourPasses s) = 0%nat
  /\ Js.countChar ">" (Spec.fourPasses s) = 0%nat
  /\ Js.countChar "034" (Spec.fourPasses s) = 0%nat.
Proof.
  unfold Spec.fourPasses. repeat split; rewrite !countChar_replaceAll; simpl; lia.
Qed.

Lemma CatchAll_escapeHTML_passes (v : option string) :
  CatchAll.escapeHTML v = "" \/ exists s, CatchAll.escapeHTML v = Spec.fourPasses s.
Proof.
  destruct v as [s|]; [|left; reflexivity].
  unfold CatchAll.escapeHTML.
  destruct (negb (Js.truthy (Some s))); [left|right; exists s]; reflexivity.
Qed.

Lemma CatchAll_escapeHTML_no_markup (v : option string) :
  Js.countChar "<" (CatchAll.escapeHTML v) = 0%nat
  /\ Js.countChar ">" (CatchAll.escapeHTML v) = 0%nat
  /\ Js.countChar "034" (CatchAll.escapeHTML v) = 0%nat.
Proof.
  destruct (CatchAll_escapeHTML_passes v) as [-> | [s ->]].
  - repeat split.
  - apply fourPasses_no_markup.
Qed.

Lemma Root_escapeHTML_no_markup (v : option string) (out : string) :
  Root.escapeHTML v = Js.Ok out ->
  Js.countChar "<" out = 0%nat
  /\ Js.countChar ">" out = 0%nat
  /\ Js.countChar "034" out = 0%nat.
Proof.
  destruct v as [s|]; simpl; [|discriminate].
  intros H. apply Ok_inj in H. subst out. apply fourPasses_no_markup.
Qed.

(** ** Text fields do not reach the markup characters *)

Section BlankCount.

Context {R : Runtime}.
Variable c : ascii.
Hypothesis escaped_catchAll : forall v, Js.countChar c (CatchAll.escapeHTML v) = 0%nat.
Hypothesis escaped_root :
  forall v out, Root.escapeHTML v = Js.Ok out -> Js.countChar c out = 0%nat.

#[local] Arguments String.append : simpl never.

Local Abbreviation same a b := (Js.countChar c a = Js.countChar c b).
Local Abbreviation sameExc m1 m2 :=
  (Spec.mapExc (Js.countChar c) m1 = Spec.mapExc (Js.countChar c) m2).

Lemma same_app (a a' b b' : string) :
  same a a' -> same b b' -> same (a ++ b) (a' ++ b').
Proof.
  intros Ha Hb. rewrite !countChar_app, Ha, Hb. reflexivity.
Qed.

Lemma same_escaped (v w : option string) :
  same (CatchAll.escapeHTML v) (CatchAll.escapeHTML w).
Proof.
  rewrite !escaped_catchAll. reflexivity.
Qed.

Lemma same_zero (a b : string) :
  Js.countChar c a = 0%nat -> Js.countChar c b = 0%nat -> same a b.
Proof.
  intros -> ->. reflexivity.
Qed.

Ltac same_pieces :=
  repeat first
    [ apply same_escaped
    | apply (f_equal (Js.countChar c)); reflexivity
    | apply same_app ].

Lemma faqItem_blank (item : CatchAll.FaqItem) :
  same (CatchAll.faqItem (Texts.blankItem item)) (CatchAll.faqItem item).
Proof.
  unfold CatchAll.faqItem. same_pieces.
Qed.

Lemma faqItems_blank (its : list CatchAll.FaqItem) :
  same (Js.join "" (map CatchAll.faqItem (map Texts.blankItem its)))
       (Js.join "" (map CatchAll.faqItem its)).
Proof.
  induction its as [|i its IH]; [reflexivity|].
  cbn [map]. rewrite !join_empty_cons.
  apply same_app; [apply faqItem_blank | exact IH].
Qed.

Lemma renderBlock_blank (block : CatchAll.Block) :
  sameExc (CatchAll.renderBlock (Texts.blankBlock block)) (CatchAll.renderBlock block).
Proof.
  unfold CatchAll.renderBlock.
  cbn [Texts.blankBlock CatchAll.blockType CatchAll.blockTitle CatchAll.content
       CatchAll.items CatchAll.description CatchAll.btnText].
  destruct (String.eqb (CatchAll.blockType block) "wysiwygBlock").
  { destruct (toHTML (CatchAll.content block)) as [html|e]; cbn [Js.bind Spec.mapExc];
      [|reflexivity].
    f_equal. same_pieces. }
  destruct (String.eqb (CatchAll.blockType block) "faqBlock").
  { destruct (CatchAll.items block) as [its|]; cbn [option_map Spec.mapExc];
      [|reflexivity].
    f_equal. same_pieces. apply faqItems_blank. }
  destruct (String.eqb (CatchAll.blockType block) "ctaBlock").
  { cbn [Spec.mapExc]. f_equal. same_pieces. }
  destruct (String.eqb (CatchAll.blockType block) "quickAnswerBlock").
  { destruct (toHTML (CatchAll.content block)) as [html|e]; cbn [Js.bind Spec.mapExc];
      [|reflexivity].
    f_equal. same_pieces. }
  reflexivity.
Qed.

Lemma renderBlocks_blank (blocks : list CatchAll.Block) :
  sameExc
    (Js.bind (Js.mapM CatchAll.renderBlock (map Texts.blankBlock blocks))
       (fun parts => Js.Ok (Js.join "" parts)))
    (Js.bind (Js.mapM CatchAll.renderBlock blocks)
       (fun parts => Js.Ok (Js.join "" parts))).
Proof.
  induction blocks as [|b blocks IH]; [reflexivity|].
  cbn [map Js.mapM].
  pose proof (renderBlock_blank b) as Hb.
  destruct (CatchAll.renderBlock (Texts.blankBlock b)) as [h'|e'],
           (CatchAll.renderBlock b) as [h|e];
    cbn [Spec.mapExc] in Hb; try discriminate Hb; cbn [Js.bind];
    [|exact Hb].
  destruct (Js.mapM CatchAll.renderBlock (map Texts.blankBlock blocks)) as [ps'|e'],
           (Js.mapM CatchAll.renderBlock blocks) as [ps|e];
    cbn [Js.bind Spec.mapExc] in IH |- *; try discriminate IH; [|exact IH].
  rewrite !join_empty_cons. f_equal.
  apply same_app; [apply Ok_inj, Hb | apply Ok_inj, IH].
Qed.

Lemma renderBody_blank (body : option (list CatchAll.Block)) :
  sameExc (CatchAll.renderBody (option_map (map Texts.blankBlock) body))
          (CatchAll.renderBody body).
Proof.
  destruct body as [blocks|]; [|reflexivity].
  apply renderBlocks_blank.
Qed.

(** The names of the authors: the loop throws on the same entry with or
    without the names' characters, and what it returns is free of [c]. *)
Lemma authorNames_blank (l : list (option CatchAll.AuthorRef)) :
  match Js.mapM CatchAll.authorName (map Texts.blankRef l),
        Js.mapM CatchAll.authorName l with
  | Js.Ok names', Js.Ok names =>
      Forall (fun s => Js.countChar c s = 0%nat) names'
      /\ Forall (fun s => Js.countChar c s = 0%nat) names
  | Js.Throw e', Js.Throw e => e' = e
  | _, _ => False
  end.
Proof.
  induction l as [|a l IH]; [cbn; split; constructor|].
  cbn [map Js.mapM].
  destruct a as [a|]; cbn [Texts.blankRef option_map CatchAll.authorName Js.bind];
    [|reflexivity].
  destruct (Js.mapM CatchAll.authorName (map Texts.blankRef l)) as [ps'|e'],
           (Js.mapM CatchAll.authorName l) as [ps|e];
    cbn [Js.bind]; try contradiction; [|exact IH].
  destruct IH as [I1 I2].
  split; constructor; auto.
Qed.

Lemma meta_authors_zero (names : list string) :
  Forall (fun s => Js.countChar c s = 0%nat) names ->
  Js.countChar c " · Par " = 0%nat ->
  Js.countChar c ", " = 0%nat ->
  Js.countChar c
    (if Js.truthy (Some (Js.join ", " names))
     then " · Par " ++ Js.join ", " names else "") = 0%nat.
Proof.
  intros F P S.
  destruct (Js.truthy (Some (Js.join ", " names))); [|reflexivity].
  rewrite countChar_app, P, (countChar_join_zero c ", " names S F). reflexivity.
Qed.

Hypothesis literal_par : Js.countChar c " · Par " = 0%nat.
Hypothesis literal_comma : Js.countChar c ", " = 0%nat.

Lemma fetchAndRenderPost_blank (store : CatchAll.Store) (slug : string) :
  sameExc (CatchAll.fetchAndRenderPost (Texts.blankStore store) slug)
          (CatchAll.fetchAndRenderPost store slug).
Proof.
  unfold CatchAll.fetchAndRenderPost.
  cbn [Texts.blankStore CatchAll.fetchPost].
  destruct (CatchAll.fetchPost store slug) as [[post|]|e];
    cbn [Spec.mapExc option_map Js.bind]; try reflexivity.
  cbn [Texts.blankPost CatchAll.title CatchAll.postBody CatchAll.mainPhotoUrl
       CatchAll.mainPhotoAlt CatchAll.publishedAt CatchAll.authors].
  pose proof (renderBody_blank (CatchAll.postBody post)) as Hb.
  destruct (CatchAll.renderBody (option_map (map Texts.blankBlock) (CatchAll.postBody post)))
    as [b'|e'],
    (CatchAll.renderBody (CatchAll.postBody post)) as [b|e];
    cbn [Spec.mapExc] in Hb; try discriminate Hb; cbn [Js.bind]; [|exact Hb].
  apply Ok_inj in Hb.
  destruct (CatchAll.authors post) as [l|]; cbn [option_map Js.bind].
  - pose proof (authorNames_blank l) as Hn.
    destruct (Js.mapM CatchAll.authorName (map Texts.blankRef l)) as [ns'|e'],
             (Js.mapM CatchAll.authorName l) as [ns|e];
      cbn [Js.bind Spec.mapExc]; try contradiction; [|rewrite Hn; reflexivity].
    destruct Hn as [Z' Z]. f_equal.
    unfold CatchAll.postPage.
    repeat first
      [ apply same_escaped
      | apply same_zero; apply meta_authors_zero; assumption
      | exact Hb
      | apply (f_equal (Js.countChar c)); reflexivity
      | apply same_app ].
    destruct (Js.truthy (CatchAll.mainPhotoUrl post)); [|reflexivity].
    same_pieces.
  - cbn [Spec.mapExc]. f_equal.
    unfold CatchAll.postPage.
    repeat first
      [ apply same_escaped
      | exact Hb
      | apply (f_equal (Js.countChar c)); reflexivity
      | apply same_app ].
    destruct (Js.truthy (CatchAll.mainPhotoUrl post)); [|reflexivity].
    same_pieces.
Qed.

Lemma authorCards_blank (l : list CatchAll.Author) :
  same (Js.join "" (map CatchAll.authorCard (map Texts.blankAuthor l)))
       (Js.join "" (map CatchAll.authorCard l)).
Proof.
  induction l as [|a l IH]; [reflexivity|].
  cbn [map]. rewrite !join_empty_cons.
  apply same_app; [|exact IH].
  unfold CatchAll.authorCard.
  cbn [Texts.blankAuthor CatchAll.fullName CatchAll.photoUrl].
  destruct (Js.truthy (CatchAll.photoUrl a)); same_pieces.
Qed.

Lemma fetchAndRenderAuthorList_blank (store : CatchAll.Store) :
  sameExc (CatchAll.fetchAndRenderAuthorList (Texts.blankStore store))
          (CatchAll.fetchAndRenderAuthorList store).
Proof.
  unfold CatchAll.fetchAndRenderAuthorList.
  cbn [Texts.blankStore CatchAll.fetchAuthors].
  destruct (CatchAll.fetchAuthors store) as [[l|]|e];
    cbn [Spec.mapExc option_map Js.bind]; try reflexivity.
  destruct l as [|a l]; [reflexivity|].
  cbn [map Spec.mapExc]. f_equal.
  apply same_app; [reflexivity|].
  apply same_app; [|reflexivity].
  apply (authorCards_blank (a :: l)).
Qed.

Lemma render_blank (store : CatchAll.Store) (slug : string) :
  sameExc (CatchAll.render (Texts.blankStore store) slug)
          (CatchAll.render store slug).
Proof.
  unfold CatchAll.render.
  destruct (negb (Js.truthy (Some slug)) || String.eqb slug "liste").
  - apply fetchAndRenderAuthorList_blank.
  - apply fetchAndRenderPost_blank.
Qed.

Lemma root_fetchAndRenderPost_blank (store : Root.Store) (slug : string) :
  sameExc (Root.fetchAndRenderPost (Texts.blankRootStore store) slug)
          (Root.fetchAndRenderPost store slug).
Proof.
  unfold Root.fetchAndRenderPost.
  cbn [Texts.blankRootStore Root.fetchPost].
  destruct (Root.fetchPost store slug) as [[post|]|e];
    cbn [Spec.mapExc option_map Js.bind]; try reflexivity.
  cbn [Texts.blankRootPost Root.title Root.postBody Root.mainImageUrl
       Root.publishedAt Root.authorName].
  destruct (match Root.postBody post with
            | Some b => toHTML b
            | None => Js.Ok ""
            end) as [b|e]; cbn [Js.bind Spec.mapExc]; [|reflexivity].
  destruct (Root.title post) as [t|]; cbn [Spec.blank option_map Root.escapeHTML Js.bind];
    [|reflexivity].
  assert (Zt : forall s, Js.countChar c (Spec.fourPasses s) = 0%nat).
  { intros s. apply (escaped_root (Some s)). reflexivity. }
  fold (Spec.fourPasses t). fold (Spec.fourPasses "").
  assert (Ha :
    match (if Js.truthy (Spec.blank (Root.authorName post))
           then Js.bind (Root.escapeHTML (Spec.blank (Root.authorName post)))
                  (fun name => Js.Ok (" · Par " ++ name))
           else Js.Ok ""),
          (if Js.truthy (Root.authorName post)
           then Js.bind (Root.escapeHTML (Root.authorName post))
                  (fun name => Js.Ok (" · Par " ++ name))
           else Js.Ok "") with
    | Js.Ok m', Js.Ok m => Js.countChar c m' = 0%nat /\ Js.countChar c m = 0%nat
    | _, _ => False
    end).
  { destruct (Root.authorName post) as [n|]; cbn [Spec.blank option_map]; [|split; reflexivity].
    change (Js.truthy (Some "")) with false. cbv iota.
    destruct (Js.truthy (Some n)); [|split; reflexivity].
    cbn [Root.escapeHTML Js.bind]. fold (Spec.fourPasses n).
    split; [reflexivity|].
    rewrite countChar_app, literal_par, Zt. reflexivity. }
  destruct (if Js.truthy (Spec.blank (Root.authorName post)) then _ else _) as [m'|e'];
    [|contradiction].
  destruct (if Js.truthy (Root.authorName post) then _ else _) as [m|e];
    [|contradiction].
  destruct Ha as [Zm' Zm]. cbn [Js.bind].
  destruct (Js.truthy (Root.mainImageUrl post)); cbn [Js.bind Spec.mapExc]; f_equal;
    unfold Root.postPage;
    repeat first
      [ apply same_zero; [apply Zt | apply Zt]
      | apply same_zero; [exact Zm' | exact Zm]
      | apply (f_equal (Js.countChar c)); reflexivity
      | apply same_app ].
Qed.

End BlankCount.

(** ** The four passes are one pass *)

Lemma replaceAll_app (c : ascii) (rep a b : string) :
  Js.replaceAll c rep (a ++ b) = Js.replaceAll c rep a ++ Js.replaceAll c rep b.
Proof.
  induction a as [|x a IH]; simpl; [reflexivity|].
  rewrite IH. destruct (Ascii.eqb x c); [|reflexivity].
  symmetry. apply append_assoc.
Qed.

Lemma fourPasses_app (a b : string) :
  Spec.fourPasses (a ++ b) = Spec.fourPasses a ++ Spec.fourPasses b.
Proof.
  unfold Spec.fourPasses. rewrite !replaceAll_app. reflexivity.
Qed.

Lemma fourPasses_char (c : ascii) :
  Spec.fourPasses (String c "") = Spec.escapeChar c.
Proof.
  unfold Spec.escapeChar.
  destruct (Ascii.eqb c "&") eqn:E1;
    [apply Ascii.eqb_eq in E1; subst c; reflexivity|].
  destruct (Ascii.eqb c "<") eqn:E2;
    [apply Ascii.eqb_eq in E2; subst c; reflexivity|].
  destruct (Ascii.eqb c ">") eqn:E3;
    [apply Ascii.eqb_eq in E3; subst c; reflexivity|].
  destruct (Ascii.eqb c "034") eqn:E4;
    [apply Ascii.eqb_eq in E4; subst c; reflexivity|].
  unfold Spec.fourPasses. simpl.
  rewrite E1. simpl. rewrite E2. simpl. rewrite E3. simpl. rewrite E4. reflexivity.
Qed.

(** Replacing the ampersands first keeps the entities of the later passes
    intact: the chain of the source is the character-by-character escaping
    of the specification. *)
Lemma fourPasses_escapeText (s : string) :
  Spec.fourPasses s = Spec.escapeText s.
Proof.
  induction s as [|c s IH]; [reflexivity|].
  change (String c s) with (String c "" ++ s).
  rewrite fourPasses_app, fourPasses_char, IH. reflexivity.
Qed.

Lemma rawAngles_of_counts (m1 m2 : Js.Exc string) :
  Spec.mapExc (Js.countChar "<") m1 = Spec.mapExc (Js.countChar "<") m2 ->
  Spec.mapExc (Js.countChar ">") m1 = Spec.mapExc (Js.countChar ">") m2 ->
  Spec.mapExc Spec.rawAngles m1 = Spec.mapExc Spec.rawAngles m2.
Proof.
  destruct m1 as [a|e], m2 as [b|e']; simpl; intros H1 H2;
    try discriminate.
  - apply Ok_inj in H1. apply Ok_inj in H2.
    unfold Spec.rawAngles. rewrite H1, H2. reflexivity.
  - injection H1 as ->. reflexivity.
Qed.

(** C2: the escaping step replaces each of the four characters by its
    entity, so an escaped text holds no raw angle bracket; and the post
    title, block titles, FAQ questions and answers, CTA description and
    button label and author names (and the alternative text of the image)
    reach the document through that step only: removing their characters
    changes neither the number of raw [<] nor of raw [>] in the document,
    nor whether and with what the rendering throws.  Both routes. *)
Theorem text_fields_reach_the_page_escaped (R : Runtime) :
  (forall v,
     CatchAll.escapeHTML v
     = match v with Some s => Spec.escapeText s | None => "" end)
  /\ (forall v,
        Root.escapeHTML v
        = match v with
          | Some s => Js.Ok (Spec.escapeText s)
          | None => Js.Throw Js.TypeError
          end)
  /\ (forall s, Spec.rawAngles (Spec.escapeText s) = (0, 0)%nat)
  /\ (forall store slug,
        Spec.mapExc Spec.rawAngles (CatchAll.render (Texts.blankStore store) slug)
        = Spec.mapExc Spec.rawAngles (CatchAll.render store slug))
  /\ (forall store slug,
        Spec.mapExc Spec.rawAngles
          (Root.fetchAndRenderPost (Texts.blankRootStore store) slug)
        = Spec.mapExc Spec.rawAngles (Root.fetchAndRenderPost store slug)).
Proof.
  split; [|split; [|split; [|split]]].
  - intros [s|]; [|reflexivity].
    unfold CatchAll.escapeHTML, Js.truthy.
    destruct (String.eqb s "") eqn:E; cbn [negb].
    + apply String.eqb_eq in E. subst s. reflexivity.
    + apply fourPasses_escapeText.
  - intros [s|]; [|reflexivity].
    unfold Root.escapeHTML. f_equal. apply fourPasses_escapeText.
  - intros s. rewrite <- fourPasses_escapeText.
    destruct (fourPasses_no_markup s) as (H1 & H2 & _).
    unfold Spec.rawAngles. rewrite H1, H2. reflexivity.
  - intros store slug. apply rawAngles_of_counts.
    + apply render_blank; [|reflexivity|reflexivity].
      intros v. apply CatchAll_escapeHTML_no_markup.
    + apply render_blank; [|reflexivity|reflexivity].
      intros v. apply CatchAll_escapeHTML_no_markup.
  - intros store slug. apply rawAngles_of_counts.
    + apply root_fetchAndRenderPost_blank; [|reflexivity].
      intros v out H. apply (Root_escapeHTML_no_markup v out H).
    + apply root_fetchAndRenderPost_blank; [|reflexivity].
      intros v out H. apply (Root_escapeHTML_no_markup v out H).
Qed.

(** ** Where a needle can and cannot occur *)

Section Needle.

Variable needle : string.
Hypothesis needle_not_empty : needle <> "".

Lemma notIn_tail (x c : ascii) (n : string) :
  Spec.notIn (String x n) c = true -> x <> c /\ Spec.notIn n c = true.
Proof.
  unfold Spec.notIn. simpl. intros H.
  apply negb_true_iff, orb_false_elim in H. destruct H as [H1 H2].
  split; [|apply negb_true_iff, H2].
  apply Ascii.eqb_neq in H1. congruence.
Qed.

Lemma prefix_app_sep (n a b : string) (c : ascii) :
  Spec.notIn n c = true ->
  String.prefix n (a ++ String c b) = String.prefix n a.
Proof.
  revert n. induction a as [|y a IH]; intros n Hc.
  - destruct n as [|x n]; [reflexivity|].
    destruct (notIn_tail _ _ _ Hc) as [Hx _]. simpl.
    destruct (ascii_dec x c); [contradiction|reflexivity].
  - destruct n as [|x n]; [reflexivity|].
    destruct (notIn_tail _ _ _ Hc) as [_ Hn]. simpl.
    destruct (ascii_dec x y); [apply IH, Hn|reflexivity].
Qed.

Lemma includes_empty : Js.includes "" needle = false.
Proof.
  destruct needle; [contradiction|reflexivity].
Qed.

(** Across a character that is not in the needle, the needle occurs on
    one side or on the other. *)
Lemma includes_app_sep (a b : string) (c : ascii) :
  Spec.notIn needle c = true ->
  Js.includes (a ++ String c b) needle
  = Js.includes a needle || Js.includes b needle.
Proof.
  intros Hc. induction a as [|y a IH].
  - rewrite includes_empty.
    change (Js.includes ("" ++ String c b) needle)
      with (String.prefix needle ("" ++ String c b) || Js.includes b needle).
    rewrite (prefix_app_sep needle "" b c Hc).
    destruct needle; [contradiction|reflexivity].
  - change (Js.includes (String y a ++ String c b) needle)
      with (String.prefix needle (String y a ++ String c b)
            || Js.includes (a ++ String c b) needle).
    rewrite (prefix_app_sep needle (String y a) b c Hc), IH.
    change (Js.includes (String y a) needle)
      with (String.prefix needle (String y a) || Js.includes a needle).
    rewrite orb_assoc. reflexivity.
Qed.

Lemma includes_cons_sep (b : string) (c : ascii) :
  Spec.notIn needle c = true ->
  Js.includes (String c b) needle = Js.includes b needle.
Proof.
  intros Hc. pose proof (includes_app_sep "" b c Hc) as H.
  rewrite includes_empty in H. exact H.
Qed.

Lemma includes_app_first (a b : string) :
  Spec.firstNotIn needle b = true ->
  Js.includes (a ++ b) needle = Js.includes a needle || Js.includes b needle.
Proof.
  destruct b as [|c b]; [discriminate|]. simpl Spec.firstNotIn. intros Hc.
  rewrite (includes_app_sep a b c Hc), (includes_cons_sep b c Hc). reflexivity.
Qed.

Lemma lastNotIn_split (a : string) :
  Spec.lastNotIn needle a = true ->
  exists a' c, a = a' ++ String c "" /\ Spec.notIn needle c = true.
Proof.
  induction a as [|x a IH]; [discriminate|].
  destruct a as [|y a].
  - intros H. exists "", x. split; [reflexivity|exact H].
  - intros H. destruct (IH H) as (a' & c & E & Hc).
    exists (String x a'), c. split; [|exact Hc].
    simpl. rewrite <- E. reflexivity.
Qed.

Lemma includes_app_last (a b : string) :
  Spec.lastNotIn needle a = true ->
  Js.includes (a ++ b) needle = Js.includes a needle || Js.includes b needle.
Proof.
  intros H. destruct (lastNotIn_split a H) as (a' & c & -> & Hc).
  rewrite append_assoc. simpl.
  rewrite (includes_app_sep a' b c Hc), (includes_app_sep a' "" c Hc), includes_empty.
  rewrite orb_false_r. reflexivity.
Qed.

Lemma firstNotIn_app (a b : string) :
  Spec.firstNotIn needle a = true -> Spec.firstNotIn needle (a ++ b) = true.
Proof.
  destruct a; [discriminate|]. intros H. exact H.
Qed.

Lemma lastNotIn_app (a b : string) :
  Spec.lastNotIn needle b = true -> Spec.lastNotIn needle (a ++ b) = true.
Proof.
  intros H. induction a as [|x a IH]; [exact H|].
  simpl. destruct (a ++ b) eqn:E; [discriminate IH|exact IH].
Qed.

(** A replacement by a fragment that starts and ends outside the needle
    and does not hold it neither adds nor removes an occurrence. *)
Lemma includes_replaceAll (c : ascii) (rep : string) :
  Spec.notIn needle c = true ->
  Spec.firstNotIn needle rep = true ->
  Spec.lastNotIn needle rep = true ->
  Js.includes rep needle = false ->
  forall p s,
    Js.includes (p ++ Js.replaceAll c rep s) needle = Js.includes (p ++ s) needle.
Proof.
  intros Hc Hf Hl Hr p s. revert p.
  induction s as [|x s IH]; intros p; [reflexivity|].
  simpl. destruct (Ascii.eqb x c) eqn:E.
  - apply Ascii.eqb_eq in E. subst x.
    rewrite (includes_app_first p (rep ++ Js.replaceAll c rep s))
      by (apply firstNotIn_app, Hf).
    rewrite (includes_app_last rep _ Hl), Hr.
    pose proof (IH "") as I0.
    change ("" ++ Js.replaceAll c rep s) with (Js.replaceAll c rep s) in I0.
    change ("" ++ s) with s in I0.
    rewrite I0, (includes_app_sep p s c Hc). reflexivity.
  - replace (p ++ String x (Js.replaceAll c rep s))
      with ((p ++ String x "") ++ Js.replaceAll c rep s)
      by (rewrite append_assoc; reflexivity).
    rewrite IH, append_assoc. reflexivity.
Qed.

(** Joining strings that do not hold the needle, with a separator that
    starts and ends outside it. *)
Lemma includes_join (sep : string) (l : list string) :
  Spec.firstNotIn needle sep = true ->
  Spec.lastNotIn needle sep = true ->
  Js.includes sep needle = false ->
  Forall (fun s => Js.includes s needle = false) l ->
  Js.includes (Js.join sep l) needle = false.
Proof.
  intros Hf Hl Hs. unfold Js.join.
  induction 1 as [|x l Hx Hall IH]; [apply includes_empty|].
  destruct l as [|y l]; [exact Hx|].
  change (String.concat sep (x :: y :: l)) with (x ++ sep ++ String.concat sep (y :: l)).
  rewrite includes_app_first by (apply firstNotIn_app, Hf).
  rewrite (includes_app_last sep _ Hl), Hx, Hs, IH. reflexivity.
Qed.

(** Concatenating strings each of which is empty or ends outside the
    needle. *)
Lemma includes_join_empty (l : list string) :
  Forall (fun s => Js.includes s needle = false
                   /\ (s = "" \/ Spec.lastNotIn needle s = true)) l ->
  Js.includes (Js.join "" l) needle = false.
Proof.
  induction 1 as [|x l [Hx Ht] Hall IH]; [apply includes_empty|].
  rewrite join_empty_cons.
  destruct Ht as [-> | Ht]; [exact IH|].
  rewrite (includes_app_last x _ Ht), Hx, IH. reflexivity.
Qed.

End Needle.

(** ** The word [undefined] in a page *)

Section Undefined.

Context {R : Runtime}.

Local Abbreviation word := "undefined".

Lemma word_not_empty : word <> "".
Proof. discriminate. Qed.

Local Abbreviation has s := (Js.includes s word).

Lemma has_app_last (a b : string) :
  Spec.lastNotIn word a = true -> has (a ++ b) = has a || has b.
Proof. apply includes_app_last, word_not_empty. Qed.

Lemma has_app_first (a b : string) :
  Spec.firstNotIn word b = true -> has (a ++ b) = has a || has b.
Proof. apply includes_app_first, word_not_empty. Qed.

Ltac split_has :=
  repeat first
    [ rewrite has_app_last by reflexivity
    | rewrite has_app_first by reflexivity ].

Lemma has_replaceAll (c : ascii) (rep s : string) :
  Spec.notIn word c = true ->
  Spec.firstNotIn word rep = true ->
  Spec.lastNotIn word rep = true ->
  has rep = false ->
  has (Js.replaceAll c rep s) = has s.
Proof.
  intros Hc Hf Hl Hr.
  exact (includes_replaceAll word word_not_empty c rep Hc Hf Hl Hr "" s).
Qed.

Lemma has_fourPasses (s : string) : has (Spec.fourPasses s) = has s.
Proof.
  unfold Spec.fourPasses.
  rewrite !has_replaceAll by reflexivity. reflexivity.
Qed.

Lemma has_escapeHTML (v : option string) :
  Spec.lacks word v = true -> has (CatchAll.escapeHTML v) = false.
Proof.
  destruct v as [s|]; [|reflexivity].
  unfold CatchAll.escapeHTML. cbn [Spec.lacks]. intros H.
  destruct (negb (Js.truthy (Some s))); [reflexivity|].
  fold (Spec.fourPasses s). rewrite has_fourPasses.
  apply negb_true_iff, H.
Qed.

Lemma has_faqItem (item : CatchAll.FaqItem) :
  Spec.lacks word (CatchAll.question item) = true ->
  Spec.lacks word (CatchAll.answer item) = true ->
  has (CatchAll.faqItem item) = false.
Proof.
  intros Q A. unfold CatchAll.faqItem. split_has.
  rewrite (has_escapeHTML _ Q), (has_escapeHTML _ A). reflexivity.
Qed.

Lemma lacks_has (s : string) : Spec.lacks word (Some s) = true -> has s = false.
Proof.
  intros H. apply negb_true_iff, H.
Qed.

Ltac ends_outside := repeat apply lastNotIn_app; reflexivity.

Lemma faqItem_ends (item : CatchAll.FaqItem) :
  Spec.lastNotIn word (CatchAll.faqItem item) = true.
Proof.
  unfold CatchAll.faqItem. ends_outside.
Qed.

Lemma has_faqItems (its : list CatchAll.FaqItem) :
  forallb (Spec.lacks word)
    (flat_map (fun i => [CatchAll.question i; CatchAll.answer i]) its) = true ->
  has (Js.join "" (map CatchAll.faqItem its)) = false.
Proof.
  intros H. apply includes_join_empty; [apply word_not_empty|].
  induction its as [|i its IH]; [constructor|].
  cbn [flat_map app forallb] in H.
  apply andb_prop in H. destruct H as [Q H].
  apply andb_prop in H. destruct H as [A H].
  constructor; [|apply IH, H].
  split; [apply has_faqItem; assumption | right; apply faqItem_ends].
Qed.

Lemma converted_Ok (c : PortableText) (html : string) :
  toHTML c = Js.Ok html -> Texts.converted c = Some html.
Proof.
  unfold Texts.converted. intros ->. reflexivity.
Qed.

(** A rendered block is empty or ends with the bracket of its closing
    tag, and holds the word only if one of its texts does. *)
Lemma renderBlock_clean (block : CatchAll.Block) (h : string) :
  CatchAll.renderBlock block = Js.Ok h ->
  forallb (Spec.lacks word) (Texts.blockTexts block) = true ->
  has h = false /\ (h = "" \/ Spec.lastNotIn word h = true).
Proof.
  unfold CatchAll.renderBlock, Texts.blockTexts.
  destruct (String.eqb (CatchAll.blockType block) "wysiwygBlock").
  { destruct (toHTML (CatchAll.content block)) as [html|e] eqn:E;
      cbn [Js.bind]; [|discriminate].
    rewrite (converted_Ok _ _ E). cbn [forallb].
    intros H T. apply Ok_inj in H. subst h.
    apply andb_prop in T. destruct T as [T1 T].
    apply andb_prop in T. destruct T as [T2 _].
    split; [|right; ends_outside].
    split_has. rewrite (has_escapeHTML _ T1), (lacks_has _ T2). reflexivity. }
  destruct (String.eqb (CatchAll.blockType block) "faqBlock").
  { destruct (CatchAll.items block) as [its|]; [|discriminate].
    cbn [forallb]. intros H T. apply Ok_inj in H. subst h.
    apply andb_prop in T. destruct T as [T1 T2].
    split; [|right; ends_outside].
    split_has. rewrite (has_escapeHTML _ T1), (has_faqItems _ T2). reflexivity. }
  destruct (String.eqb (CatchAll.blockType block) "ctaBlock").
  { cbn [forallb]. intros H T. apply Ok_inj in H. subst h.
    apply andb_prop in T. destruct T as [T1 T].
    apply andb_prop in T. destruct T as [T2 T].
    apply andb_prop in T. destruct T as [T3 _].
    split; [|right; ends_outside].
    split_has.
    rewrite (has_escapeHTML _ T1), (has_escapeHTML _ T2), (has_escapeHTML _ T3).
    reflexivity. }
  destruct (String.eqb (CatchAll.blockType block) "quickAnswerBlock").
  { destruct (toHTML (CatchAll.content block)) as [html|e] eqn:E;
      cbn [Js.bind]; [|discriminate].
    rewrite (converted_Ok _ _ E). cbn [forallb].
    intros H T. apply Ok_inj in H. subst h.
    apply andb_prop in T. destruct T as [T1 T].
    apply andb_prop in T. destruct T as [T2 _].
    split; [|right; ends_outside].
    split_has. rewrite (has_escapeHTML _ T1), (lacks_has _ T2). reflexivity. }
  intros H _. apply Ok_inj in H. subst h. split; [reflexivity|left; reflexivity].
Qed.

Lemma renderBlocks_clean (blocks : list CatchAll.Block) (parts : list string) :
  Js.mapM CatchAll.renderBlock blocks = Js.Ok parts ->
  forallb (Spec.lacks word) (flat_map Texts.blockTexts blocks) = true ->
  Forall (fun s => has s = false /\ (s = "" \/ Spec.lastNotIn word s = true)) parts.
Proof.
  revert parts. induction blocks as [|b blocks IH]; intros parts.
  - intros H _. apply Ok_inj in H. subst parts. constructor.
  - cbn [Js.mapM flat_map]. rewrite forallb_app.
    destruct (CatchAll.renderBlock b) as [h|e] eqn:Eb; cbn [Js.bind]; [|discriminate].
    destruct (Js.mapM CatchAll.renderBlock blocks) as [ps|e]; cbn [Js.bind];
      [|discriminate].
    intros H T. apply Ok_inj in H. subst parts.
    apply andb_prop in T. destruct T as [Tb T].
    constructor; [apply (renderBlock_clean b h Eb Tb)|].
    apply IH; [reflexivity|exact T].
Qed.

Lemma renderBody_clean (body : option (list CatchAll.Block)) (h : string) :
  CatchAll.renderBody body = Js.Ok h ->
  forallb (Spec.lacks word)
    match body with
    | Some blocks => flat_map Texts.blockTexts blocks
    | None => []
    end = true ->
  has h = false.
Proof.
  destruct body as [blocks|]; cbn [CatchAll.renderBody].
  - destruct (Js.mapM CatchAll.renderBlock blocks) as [ps|e] eqn:E; cbn [Js.bind];
      [|discriminate].
    intros H T. apply Ok_inj in H. subst h.
    apply includes_join_empty; [apply word_not_empty|].
    apply (renderBlocks_clean blocks ps E T).
  - intros H _. apply Ok_inj in H. subst h. reflexivity.
Qed.

Lemma authorNames_clean (l : list (option CatchAll.AuthorRef)) (names : list string) :
  Js.mapM CatchAll.authorName l = Js.Ok names ->
  forallb (Spec.lacks word) (map Texts.refName l) = true ->
  Forall (fun s => has s = false) names.
Proof.
  revert names. induction l as [|a l IH]; intros names.
  - intros H _. apply Ok_inj in H. subst names. constructor.
  - cbn [Js.mapM map forallb].
    destruct a as [a|]; cbn [CatchAll.authorName Js.bind Texts.refName]; [|discriminate].
    destruct (Js.mapM CatchAll.authorName l) as [ns|e]; cbn [Js.bind]; [|discriminate].
    intros H T. apply Ok_inj in H. subst names.
    apply andb_prop in T. destruct T as [Ta T].
    constructor; [apply has_escapeHTML, Ta | apply IH; [reflexivity|exact T]].
Qed.

Lemma lacks_orElse (a b : option string) :
  Spec.lacks word a = true -> Spec.lacks word b = true ->
  Spec.lacks word (Js.orElse a b) = true.
Proof.
  intros Ha Hb. unfold Js.orElse. destruct (Js.truthy a); assumption.
Qed.

Lemma printed_date_clean (d : option string) :
  Spec.lacks word (Texts.printedDate d) = true ->
  has match d with
      | Some s => if Js.truthy d then toLocaleDateString s else ""
      | None => ""
      end = false.
Proof.
  unfold Texts.printedDate. destruct d as [s|]; [|reflexivity].
  destruct (Js.truthy (Some s)); [apply lacks_has|reflexivity].
Qed.

Lemma photo_url_clean (u : option string) :
  Spec.lacks word u = true -> Js.truthy u = true -> has (Js.interpolate u) = false.
Proof.
  destruct u as [s|]; [|discriminate]. intros H _. apply lacks_has, H.
Qed.

(** The page of a post holds the word only if one of the strings the
    post brings holds it. *)
Lemma fetchAndRenderPost_clean
  (store : CatchAll.Store) (slug : string) (post : CatchAll.Post) (html : string) :
  CatchAll.fetchPost store slug = Js.Ok (Some post) ->
  CatchAll.fetchAndRenderPost store slug = Js.Ok html ->
  forallb (Spec.lacks word) (Texts.postTexts post) = true ->
  has html = false.
Proof.
  intros F H T. unfold CatchAll.fetchAndRenderPost in H.
  rewrite F in H. cbn [Js.bind] in H.
  unfold Texts.postTexts in T. cbn [app forallb] in T.
  apply andb_prop in T. destruct T as [Tt T].
  apply andb_prop in T. destruct T as [Ta T].
  apply andb_prop in T. destruct T as [Tu T].
  apply andb_prop in T. destruct T as [Td T].
  rewrite forallb_app in T. apply andb_prop in T. destruct T as [Tn Tb].
  destruct (CatchAll.renderBody (CatchAll.postBody post)) as [b|e] eqn:Eb;
    cbn [Js.bind] in H; [|discriminate].
  pose proof (renderBody_clean _ _ Eb Tb) as Hb.
  pose proof (printed_date_clean _ Td) as Hd.
  set (date := match CatchAll.publishedAt post with
               | Some d => _
               | None => _
               end) in *.
  assert (Hn : exists names,
             match CatchAll.authors post with
             | Some l => Js.bind (Js.mapM CatchAll.authorName l)
                           (fun names => Js.Ok (Js.join ", " names))
             | None => Js.Ok ""
             end = Js.Ok names /\ has names = false).
  { destruct (CatchAll.authors post) as [l|].
    - destruct (Js.mapM CatchAll.authorName l) as [ns|e] eqn:En; cbn [Js.bind] in H |- *;
        [|discriminate].
      exists (Js.join ", " ns). split; [reflexivity|].
      apply includes_join; try reflexivity; [apply word_not_empty|].
      apply (authorNames_clean l ns En Tn).
    - exists "". split; reflexivity. }
  destruct Hn as (names & En & Hn). rewrite En in H. cbn [Js.bind] in H.
  apply Ok_inj in H. subst html.
  pose proof (has_escapeHTML _ Tt) as Ht.
  pose proof (has_escapeHTML _ (lacks_orElse _ _ Ta Tt)) as Halt.
  unfold CatchAll.postPage.
  destruct (Js.truthy (Some date)), (Js.truthy (Some names)),
           (Js.truthy (CatchAll.mainPhotoUrl post)) eqn:Eu;
    try pose proof (photo_url_clean _ Tu Eu) as Hu;
    split_has; rewrite ?Ht, ?Halt, ?Hd, ?Hn, ?Hb, ?Hu; reflexivity.
Qed.

Lemma has_root_escapeHTML (v : option string) (out : string) :
  Root.escapeHTML v = Js.Ok out -> Spec.lacks word v = true -> has out = false.
Proof.
  destruct v as [s|]; cbn [Root.escapeHTML]; [|discriminate].
  intros H L. apply Ok_inj in H. subst out.
  fold (Spec.fourPasses s). rewrite has_fourPasses. apply lacks_has, L.
Qed.

Lemma root_fetchAndRenderPost_clean
  (store : Root.Store) (slug : string) (post : Root.Post) (html : string) :
  Root.fetchPost store slug = Js.Ok (Some post) ->
  Root.fetchAndRenderPost store slug = Js.Ok html ->
  forallb (Spec.lacks word) (Texts.rootPostTexts post) = true ->
  has html = false.
Proof.
  intros F H T. unfold Root.fetchAndRenderPost in H.
  rewrite F in H. cbn [Js.bind] in H.
  unfold Texts.rootPostTexts in T. cbn [forallb] in T.
  apply andb_prop in T. destruct T as [Tt T].
  apply andb_prop in T. destruct T as [Ta T].
  apply andb_prop in T. destruct T as [Tu T].
  apply andb_prop in T. destruct T as [Td T].
  apply andb_prop in T. destruct T as [Tb _].
  assert (Hb : exists b,
             match Root.postBody post with
             | Some b => toHTML b
             | None => Js.Ok ""
             end = Js.Ok b /\ has b = false).
  { destruct (Root.postBody post) as [c|].
    - destruct (toHTML c) as [b|e] eqn:E; cbn [Js.bind] in H; [|discriminate].
      exists b. split; [reflexivity|].
      rewrite (converted_Ok _ _ E) in Tb. apply lacks_has, Tb.
    - exists "". split; reflexivity. }
  destruct Hb as (b & Eb & Hb). rewrite Eb in H. cbn [Js.bind] in H.
  pose proof (printed_date_clean _ Td) as Hd.
  set (date := match Root.publishedAt post with
               | Some d => _
               | None => _
               end) in *.
  destruct (Root.escapeHTML (Root.title post)) as [t|e] eqn:Et; cbn [Js.bind] in H;
    [|discriminate].
  pose proof (has_root_escapeHTML _ _ Et Tt) as Ht.
  assert (Hm : exists m,
             (if Js.truthy (Root.authorName post)
              then Js.bind (Root.escapeHTML (Root.authorName post))
                     (fun name => Js.Ok (" · Par " ++ name))
              else Js.Ok "") = Js.Ok m /\ has m = false).
  { destruct (Js.truthy (Root.authorName post)); [|exists ""; split; reflexivity].
    destruct (Root.escapeHTML (Root.authorName post)) as [n|e] eqn:En;
      cbn [Js.bind] in H |- *; [|discriminate].
    exists (" · Par " ++ n). split; [reflexivity|].
    split_has. rewrite (has_root_escapeHTML _ _ En Ta). reflexivity. }
  destruct Hm as (m & Em & Hm). rewrite Em in H. cbn [Js.bind] in H.
  unfold Root.postPage in H.
  destruct (Js.truthy (Root.mainImageUrl post)) eqn:Eu; cbn [Js.bind] in H;
    apply Ok_inj in H; subst html;
    try pose proof (photo_url_clean _ Tu Eu) as Hu;
    destruct (Js.truthy (Some date));
    split_has; rewrite ?Ht, ?Hd, ?Hm, ?Hb, ?Hu; reflexivity.
Qed.

(** A card of the list page ends with a blank, and holds the word only
    if the author's name or photo address does. *)
Lemma authorCard_clean (author : CatchAll.Author) :
  forallb (Spec.lacks word) (Texts.authorTexts author) = true ->
  has (CatchAll.authorCard author) = false
  /\ Spec.lastNotIn word (CatchAll.authorCard author) = true.
Proof.
  unfold Texts.authorTexts. cbn [forallb]. intros T.
  apply andb_prop in T. destruct T as [Tn T].
  apply andb_prop in T. destruct T as [Tu _].
  pose proof (has_escapeHTML _ Tn) as Hn.
  unfold CatchAll.authorCard. split; [|ends_outside].
  destruct (Js.truthy (CatchAll.photoUrl author)) eqn:Eu;
    try pose proof (photo_url_clean _ Tu Eu) as Hu;
    split_has; rewrite ?Hn, ?Hu; reflexivity.
Qed.

Lemma authorCards_clean (authors : list CatchAll.Author) :
  forallb (Spec.lacks word) (flat_map Texts.authorTexts authors) = true ->
  has (Js.join "" (map CatchAll.authorCard authors)) = false.
Proof.
  intros T. apply includes_join_empty; [apply word_not_empty|].
  induction authors as [|a l IH]; [constructor|].
  cbn [flat_map] in T. rewrite forallb_app in T.
  apply andb_prop in T. destruct T as [Ta T].
  destruct (authorCard_clean a Ta) as [H1 H2].
  constructor; [split; [exact H1 | right; exact H2] | apply IH, T].
Qed.

(** The list page holds the word only if a name or a photo address of an
    author holds it. *)
Lemma fetchAndRenderAuthorList_clean
  (store : CatchAll.Store) (authors : list CatchAll.Author) (html : string) :
  CatchAll.fetchAuthors store = Js.Ok (Some authors) ->
  CatchAll.fetchAndRenderAuthorList store = Js.Ok html ->
  forallb (Spec.lacks word) (flat_map Texts.authorTexts authors) = true ->
  has html = false.
Proof.
  intros F H T. unfold CatchAll.fetchAndRenderAuthorList in H.
  rewrite F in H. cbn [Js.bind] in H.
  destruct authors as [|a l] eqn:E; [discriminate|]. rewrite <- E in *.
  apply Ok_inj in H. subst html.
  rewrite (has_app_last CatchAll.listPageHead) by reflexivity.
  rewrite (has_app_first _ CatchAll.listPageTail) by reflexivity.
  rewrite (authorCards_clean _ T). reflexivity.
Qed.

End Undefined.

(** ** The shape of a post page *)

Section Shape.

Context {R : Runtime}.

Lemma post_page_shape
  (store : CatchAll.Store) (slug : string) (post : CatchAll.Post) (html : string) :
  CatchAll.fetchPost store slug = Js.Ok (Some post) ->
  CatchAll.fetchAndRenderPost store slug = Js.Ok html ->
  exists metaDate metaAuthors image bodyHTML,
    html = CatchAll.postPage (CatchAll.escapeHTML (CatchAll.title post))
             metaDate metaAuthors image bodyHTML
    /\ (CatchAll.publishedAt post = None -> metaDate = "")
    /\ (CatchAll.authors post = None -> metaAuthors = "")
    /\ (CatchAll.mainPhotoUrl post = None -> image = "")
    /\ (forall url,
          CatchAll.mainPhotoUrl post = Some url -> url <> "" ->
          CatchAll.mainPhotoAlt post = None ->
          image = "<img src=" ++ dq ++ url ++ dq ++ " alt=" ++ dq
                  ++ CatchAll.escapeHTML (CatchAll.title post) ++ dq ++ ">")
    /\ (CatchAll.postBody post = None -> bodyHTML = "").
Proof.
  intros F H. unfold CatchAll.fetchAndRenderPost in H.
  rewrite F in H. cbn [Js.bind] in H.
  destruct (CatchAll.renderBody (CatchAll.postBody post)) as [b|e] eqn:Eb;
    cbn [Js.bind] in H; [|discriminate].
  destruct (match CatchAll.authors post with
            | Some l => _
            | None => _
            end) as [names|e] eqn:En; cbn [Js.bind] in H; [|discriminate].
  apply Ok_inj in H. subst html.
  do 4 eexists. split; [reflexivity|].
  split; [|split; [|split; [|split]]].
  - intros ->. reflexivity.
  - intros A. rewrite A in En. apply Ok_inj in En. subst names. reflexivity.
  - intros ->. reflexivity.
  - intros url U N A. rewrite U, A, (truthy_Some _ N). reflexivity.
  - intros B. rewrite B in Eb. cbn [CatchAll.renderBody] in Eb.
    apply Ok_inj in Eb. subst b. reflexivity.
Qed.

Lemma root_post_page_shape
  (store : Root.Store) (slug : string) (post : Root.Post) (html : string) :
  Root.fetchPost store slug = Js.Ok (Some post) ->
  Root.fetchAndRenderPost store slug = Js.Ok html ->
  exists title metaDate metaAuthor image bodyHTML,
    html = Root.postPage title metaDate metaAuthor image bodyHTML
    /\ Root.escapeHTML (Root.title post) = Js.Ok title
    /\ (Root.publishedAt post = None -> metaDate = "")
    /\ (Root.authorName post = None -> metaAuthor = "")
    /\ (Root.mainImageUrl post = None -> image = "")
    /\ (Root.postBody post = None -> bodyHTML = "").
Proof.
  intros F H. unfold Root.fetchAndRenderPost in H.
  rewrite F in H. cbn [Js.bind] in H.
  destruct (match Root.postBody post with
            | Some b => _
            | None => _
            end) as [b|e] eqn:Eb; cbn [Js.bind] in H; [|discriminate].
  destruct (Root.escapeHTML (Root.title post)) as [t|e]; cbn [Js.bind] in H;
    [|discriminate].
  destruct (if Js.truthy (Root.authorName post) then _ else _) as [m|e] eqn:Em;
    cbn [Js.bind] in H; [|discriminate].
  destruct (if Js.truthy (Root.mainImageUrl post) then _ else _) as [i|e] eqn:Ei;
    cbn [Js.bind] in H; [|discriminate].
  apply Ok_inj in H. subst html.
  do 5 eexists. split; [reflexivity|].
  split; [reflexivity|]. split; [|split; [|split]].
  - intros ->. reflexivity.
  - intros A. rewrite A in Em. apply Ok_inj in Em. subst m. reflexivity.
  - intros U. rewrite U in Ei. apply Ok_inj in Ei. subst i. reflexivity.
  - intros B. rewrite B in Eb. apply Ok_inj in Eb. subst b. reflexivity.
Qed.

End Shape.

(** ** The escaping step, written out *)

Lemma CatchAll_escapeHTML_text (v : option string) :
  CatchAll.escapeHTML v = Spec.escapeText (Spec.textOf v).
Proof.
  destruct v as [s|]; [|reflexivity].
  unfold CatchAll.escapeHTML, Js.truthy. cbn [Spec.textOf].
  destruct (String.eqb s "") eqn:E; cbn [negb].
  - apply String.eqb_eq in E. subst s. reflexivity.
  - apply fourPasses_escapeText.
Qed.

Lemma Root_escapeHTML_text (s : string) :
  Root.escapeHTML (Some s) = Js.Ok (Spec.escapeText s).
Proof.
  unfold Root.escapeHTML. f_equal. apply fourPasses_escapeText.
Qed.

Lemma escapeText_no_markup (s : string) :
  Js.countChar "<" (Spec.escapeText s) = 0%nat.
Proof.
  rewrite <- fourPasses_escapeText. apply fourPasses_no_markup.
Qed.

Lemma truthy_eqb (s : string) : Js.truthy (Some s) = negb (String.eqb s "").
Proof. reflexivity. Qed.

(** ** The list page *)

Section ListPage.

Context {R : Runtime}.

(** The card of the source is the card written out: the image element
    when the author has a photo address that is not empty, with the
    address as it is and the escaped name as alternative text, and the
    escaped name in the heading. *)
Lemma authorCard_text (author : CatchAll.Author) :
  CatchAll.authorCard author
  = Spec.cardOf
      match CatchAll.photoUrl author with
      | Some url =>
          if String.eqb url "" then ""
          else Spec.imgElement url
                 (Spec.escapeText (Spec.textOf (CatchAll.fullName author)))
      | None => ""
      end
      (Spec.escapeText (Spec.textOf (CatchAll.fullName author))).
Proof.
  unfold CatchAll.authorCard. rewrite !CatchAll_escapeHTML_text.
  destruct (CatchAll.photoUrl author) as [url|]; [|reflexivity].
  rewrite truthy_eqb. cbn [Js.interpolate].
  destruct (String.eqb url ""); reflexivity.
Qed.

Lemma authorCards_text (authors : list CatchAll.Author) :
  Js.join "" (map CatchAll.authorCard authors)
  = String.concat ""
      (map (fun author =>
              Spec.cardOf
                match CatchAll.photoUrl author with
                | Some url =>
                    if String.eqb url "" then ""
                    else Spec.imgElement url
                           (Spec.escapeText (Spec.textOf (CatchAll.fullName author)))
                | None => ""
                end
                (Spec.escapeText (Spec.textOf (CatchAll.fullName author))))
         authors).
Proof.
  unfold Js.join. f_equal. apply map_ext. intros author. apply authorCard_text.
Qed.

(** A fetch that returns one author or more always gives the list page. *)
Lemma fetchAndRenderAuthorList_page
  (store : CatchAll.Store) (authors : list CatchAll.Author) :
  CatchAll.fetchAuthors store = Js.Ok (Some authors) ->
  authors <> [] ->
  CatchAll.fetchAndRenderAuthorList store
  = Js.Ok (CatchAll.listPageHead
           ++ Js.join "" (map CatchAll.authorCard authors)
           ++ CatchAll.listPageTail).
Proof.
  intros F N. unfold CatchAll.fetchAndRenderAuthorList. rewrite F. cbn [Js.bind].
  destruct authors as [|a l]; [contradiction|]. reflexivity.
Qed.

(** No path, no segment and the one segment [liste] all select the list. *)
Lemma render_list_mode (store : CatchAll.Store) (request : CatchAll.Request) :
  CatchAll.path request = None
  \/ CatchAll.path request = Some []
  \/ CatchAll.path request = Some ["liste"] ->
  CatchAll.render store (CatchAll.slugOf request)
  = CatchAll.fetchAndRenderAuthorList store.
Proof.
  intros P. unfold CatchAll.render, CatchAll.slugOf.
  destruct P as [-> | [-> | ->]]; reflexivity.
Qed.

End ListPage.

(** ** Counting the places where a needle stands *)

Lemma clash_prefix (needle text rest : string) :
  Spec.clash needle text = true -> String.prefix needle (text ++ rest) = false.
Proof.
  revert text. induction needle as [|a n IH]; intros [|b text]; try discriminate.
  cbn [Spec.clash]. intros H. simpl.
  destruct (ascii_dec a b) as [->|N]; [|reflexivity].
  rewrite Ascii.eqb_refl in H. apply IH, H.
Qed.

(** A text at no place of which the needle can start adds no occurrence
    to what follows it. *)
Lemma occurrences_clashes (needle text rest : string) :
  Spec.clashes needle text = true ->
  Spec.occurrences needle (text ++ rest) = Spec.occurrences needle rest.
Proof.
  induction text as [|b text IH]; [reflexivity|].
  cbn [Spec.clashes]. intros H. apply andb_prop in H. destruct H as [H1 H2].
  pose proof (clash_prefix _ _ rest H1) as P.
  change (String b text ++ rest) with (String b (text ++ rest)) in *.
  cbn [Spec.occurrences]. rewrite P, (IH H2). reflexivity.
Qed.

Lemma free_clashes (c : ascii) (n text : string) :
  Js.countChar c text = 0%nat -> Spec.clashes (String c n) text = true.
Proof.
  induction text as [|x text IH]; [reflexivity|].
  cbn [Js.countChar Spec.clashes Spec.clash].
  rewrite (Ascii.eqb_sym c x).
  destruct (Ascii.eqb x c); [discriminate|]. exact IH.
Qed.

Lemma prefix_self (n rest : string) : String.prefix n (n ++ rest) = true.
Proof.
  induction n as [|a n IH]; [destruct rest; reflexivity|].
  simpl. destruct (ascii_dec a a); [exact IH|contradiction].
Qed.

Lemma occurrences_here (c : ascii) (n rest : string) :
  Spec.occurrences (String c n) (String c n ++ rest)
  = S (Spec.occurrences (String c n) (n ++ rest)).
Proof.
  pose proof (prefix_self (String c n) rest) as P.
  change (String c n ++ rest) with (String c (n ++ rest)) in *.
  cbn [Spec.occurrences]. rewrite P. reflexivity.
Qed.

Lemma lacks_char (c : ascii) (s : string) :
  Js.includes s (String c "") = false -> Js.countChar c s = 0%nat.
Proof.
  induction s as [|x s IH]; [reflexivity|].
  cbn [Js.includes Js.countChar]. simpl String.prefix.
  destruct (ascii_dec c x) as [->|N].
  - destruct s; discriminate.
  - apply not_eq_sym, Ascii.eqb_neq in N. rewrite N. exact IH.
Qed.

(** ** The cards of the list page, counted *)

Lemma marker_literal (text rest : string) :
  Spec.clashes Spec.cardMarker text = true ->
  Spec.occurrences Spec.cardMarker (text ++ rest)
  = Spec.occurrences Spec.cardMarker rest.
Proof. apply occurrences_clashes. Qed.

Lemma marker_free (text rest : string) :
  Js.countChar "<" text = 0%nat ->
  Spec.occurrences Spec.cardMarker (text ++ rest)
  = Spec.occurrences Spec.cardMarker rest.
Proof.
  intros H. apply occurrences_clashes.
  exact (free_clashes "<"
           match Spec.cardMarker with
           | String _ n => n
           | EmptyString => ""
           end text H).
Qed.

Lemma marker_here (rest : string) :
  Spec.occurrences Spec.cardMarker (Spec.cardMarker ++ rest)
  = S (Spec.occurrences Spec.cardMarker rest).
Proof.
  set (tl := match Spec.cardMarker with
             | String _ n => n
             | EmptyString => ""
             end).
  change Spec.cardMarker with (String "<" tl).
  rewrite occurrences_here.
  rewrite (occurrences_clashes (String "<" tl) tl rest) by reflexivity.
  reflexivity.
Qed.

Ltac count_marker :=
  repeat first
    [ rewrite marker_literal by reflexivity
    | rewrite marker_free by first [assumption | reflexivity]
    | rewrite marker_here ].

(** A card whose photo address holds no [<] holds its opening tag once. *)
Lemma card_occurrences (photo name : option string) (rest : string) :
  Spec.lacks "<" photo = true ->
  Spec.occurrences Spec.cardMarker
    (Spec.cardOf
       match photo with
       | Some url =>
           if String.eqb url "" then ""
           else Spec.imgElement url (Spec.escapeText (Spec.textOf name))
       | None => ""
       end
       (Spec.escapeText (Spec.textOf name))
     ++ rest)
  = S (Spec.occurrences Spec.cardMarker rest).
Proof.
  intros L.
  pose proof (escapeText_no_markup (Spec.textOf name)) as N.
  assert (D : Js.countChar "<" dq = 0%nat) by reflexivity.
  unfold Spec.cardOf.
  destruct photo as [url|].
  - apply negb_true_iff, lacks_char in L.
    destruct (String.eqb url "").
    + rewrite !append_assoc. count_marker. reflexivity.
    + unfold Spec.imgElement. rewrite !append_assoc. count_marker. reflexivity.
  - rewrite !append_assoc. count_marker. reflexivity.
Qed.

Section CardCount.

Context {R : Runtime}.

Lemma cards_occurrences (authors : list CatchAll.Author) (rest : string) :
  forallb (fun author => Spec.lacks "<" (CatchAll.photoUrl author)) authors = true ->
  Spec.occurrences Spec.cardMarker
    (Js.join "" (map CatchAll.authorCard authors) ++ rest)
  = (List.length authors + Spec.occurrences Spec.cardMarker rest)%nat.
Proof.
  induction authors as [|a l IH]; [reflexivity|].
  cbn [forallb map List.length]. intros H. apply andb_prop in H. destruct H as [Ha Hl].
  rewrite join_empty_cons, append_assoc, authorCard_text.
  rewrite (card_occurrences _ _ _ Ha), (IH Hl). reflexivity.
Qed.

(** When no photo address holds [<], the list page holds as many opening
    tags of a card as there are authors. *)
Lemma list_page_occurrences (authors : list CatchAll.Author) :
  forallb (fun author => Spec.lacks "<" (CatchAll.photoUrl author)) authors = true ->
  Spec.occurrences Spec.cardMarker
    (CatchAll.listPageHead
     ++ Js.join "" (map CatchAll.authorCard authors)
     ++ CatchAll.listPageTail)
  = List.length authors.
Proof.
  intros H.
  rewrite (marker_literal CatchAll.listPageHead) by (vm_compute; reflexivity).
  rewrite (cards_occurrences _ _ H).
  replace (Spec.occurrences Spec.cardMarker CatchAll.listPageTail) with 0%nat
    by (vm_compute; reflexivity).
  apply Nat.add_0_r.
Qed.

End CardCount.

(** ** When a page is assembled *)

Lemma forallb_same {A : Type} (f g : A -> bool) (l : list A) :
  (forall x, f x = g x) -> forallb f l = forallb g l.
Proof.
  intros E. induction l as [|x l IH]; [reflexivity|].
  cbn [forallb]. rewrite E, IH. reflexivity.
Qed.

Section Returns.

Context {R : Runtime}.

Lemma renderBlock_returns (block : CatchAll.Block) :
  Spec.returns (CatchAll.renderBlock block) = Texts.blockReturns block.
Proof.
  unfold CatchAll.renderBlock, Texts.blockReturns.
  destruct (String.eqb (CatchAll.blockType block) "wysiwygBlock").
  { destruct (toHTML (CatchAll.content block)); reflexivity. }
  destruct (String.eqb (CatchAll.blockType block) "faqBlock").
  { destruct (CatchAll.items block); reflexivity. }
  destruct (String.eqb (CatchAll.blockType block) "ctaBlock"); [reflexivity|].
  destruct (String.eqb (CatchAll.blockType block) "quickAnswerBlock"); [|reflexivity].
  destruct (toHTML (CatchAll.content block)); reflexivity.
Qed.

Lemma mapM_returns {A B : Type} (f : A -> Js.Exc B) (l : list A) :
  Spec.returns (Js.mapM f l) = forallb (fun x => Spec.returns (f x)) l.
Proof.
  induction l as [|x l IH]; [reflexivity|].
  cbn [Js.mapM forallb]. rewrite <- IH.
  destruct (f x); cbn [Js.bind Spec.returns andb]; [|reflexivity].
  destruct (Js.mapM f l); reflexivity.
Qed.

Lemma renderBody_returns (body : option (list CatchAll.Block)) :
  Spec.returns (CatchAll.renderBody body)
  = match body with
    | Some blocks => forallb Texts.blockReturns blocks
    | None => true
    end.
Proof.
  destruct body as [blocks|]; [|reflexivity].
  cbn [CatchAll.renderBody].
  rewrite <- (forallb_same _ _ blocks renderBlock_returns), <- mapM_returns.
  destruct (Js.mapM CatchAll.renderBlock blocks); reflexivity.
Qed.

Lemma authorName_returns (a : option CatchAll.AuthorRef) :
  Spec.returns (CatchAll.authorName a) = Spec.present a.
Proof. destruct a; reflexivity. Qed.

(** A fetched post is assembled exactly when its blocks render and none
    of its authors is [null]. *)
Lemma fetchAndRenderPost_returns
  (store : CatchAll.Store) (slug : string) (post : CatchAll.Post) :
  CatchAll.fetchPost store slug = Js.Ok (Some post) ->
  Spec.returns (CatchAll.fetchAndRenderPost store slug) = Texts.postReturns post.
Proof.
  intros F. unfold CatchAll.fetchAndRenderPost, Texts.postReturns.
  rewrite F. cbn [Js.bind].
  rewrite <- renderBody_returns.
  destruct (CatchAll.renderBody (CatchAll.postBody post)) as [b|e];
    cbn [Js.bind Spec.returns andb]; [|reflexivity].
  destruct (CatchAll.authors post) as [l|]; cbn [Js.bind]; [|reflexivity].
  rewrite <- (forallb_same _ _ l authorName_returns), <- mapM_returns.
  destruct (Js.mapM CatchAll.authorName l); reflexivity.
Qed.

(** A fetched post of the root route is assembled exactly when its body
    converts and it has a title. *)
Lemma root_fetchAndRenderPost_returns
  (store : Root.Store) (slug : string) (post : Root.Post) :
  Root.fetchPost store slug = Js.Ok (Some post) ->
  Spec.returns (Root.fetchAndRenderPost store slug) = Texts.rootPostReturns post.
Proof.
  intros F. unfold Root.fetchAndRenderPost, Texts.rootPostReturns.
  rewrite F. cbn [Js.bind].
  destruct (match Root.postBody post with
            | Some b => toHTML b
            | None => Js.Ok ""
            end) as [b|e] eqn:Eb.
  - replace (match Root.postBody post with
             | Some b => Spec.returns (toHTML b)
             | None => true
             end) with true
      by (destruct (Root.postBody post); [rewrite Eb|]; reflexivity).
    cbn [Js.bind andb].
    destruct (Root.title post) as [t|]; [|reflexivity].
    rewrite Root_escapeHTML_text. cbn [Js.bind].
    destruct (Root.authorName post) as [n|]; cbn [Js.truthy].
    + destruct (negb (String.eqb n "")); [rewrite Root_escapeHTML_text|];
        cbn [Js.bind];
        (destruct (Root.mainImageUrl post) as [u|]; cbn [Js.truthy];
         [destruct (negb (String.eqb u ""))|]; reflexivity).
    + destruct (Root.mainImageUrl post) as [u|]; cbn [Js.truthy];
        [destruct (negb (String.eqb u ""))|]; reflexivity.
  - replace (match Root.postBody post with
             | Some b => Spec.returns (toHTML b)
             | None => true
             end) with false
      by (destruct (Root.postBody post); [rewrite Eb; reflexivity|discriminate]).
    reflexivity.
Qed.

Lemma returns_Ok {A : Type} (m : Js.Exc A) :
  Spec.returns m = true -> exists a, m = Js.Ok a.
Proof.
  destruct m as [a|e]; [exists a; reflexivity|discriminate].
Qed.

Lemma returns_Throw {A : Type} (m : Js.Exc A) :
  Spec.returns m = false -> exists e, m = Js.Throw e.
Proof.
  destruct m as [a|e]; [discriminate|exists e; reflexivity].
Qed.

End Returns.

Lemma orElse_text (a b : option string) :
  Spec.textOf (Js.orElse a b)
  = match a with
    | Some s => if String.eqb s "" then Spec.textOf b else s
    | None => Spec.textOf b
    end.
Proof.
  unfold Js.orElse. destruct a as [s|]; [|reflexivity].
  rewrite truthy_eqb. destruct (String.eqb s ""); reflexivity.
Qed.

(** ** The list mode and the photo addresses *)

(** C7: with a verified signature, a request with no path, with a path
    of no segment or with the one segment [liste] is answered with the
    list page: status 200, the two headers, and as body the fixed head of
    the page, then one card for each author the store returned, in the
    order of the store, then the fixed tail.  The card of an author is the
    opening tag of a card, the image element when the author has a photo
    address that is not empty, the escaped name in a heading, and the
    closing tag.  When no photo address holds [<], the opening tag of a
    card stands in the body exactly as many times as there are authors. *)
Theorem list_mode_renders_one_card_per_author
  (R : Runtime) (secret : string) (store : CatchAll.Store)
  (request : CatchAll.Request) (authors : list CatchAll.Author) :
  verifyShopifySignature secret (CatchAll.searchParams request) = true ->
  CatchAll.path request = None
  \/ CatchAll.path request = Some []
  \/ CatchAll.path request = Some ["liste"] ->
  CatchAll.fetchAuthors store = Js.Ok (Some authors) ->
  authors <> [] ->
  CatchAll.GET secret store request
  = mkHandled
      (mkResponse
         (CatchAll.listPageHead
          ++ String.concat ""
               (map (fun author =>
                       Spec.cardOf
                         match CatchAll.photoUrl author with
                         | Some url =>
                             if String.eqb url "" then ""
                             else Spec.imgElement url
                                    (Spec.escapeText
                                       (Spec.textOf (CatchAll.fullName author)))
                         | None => ""
                         end
                         (Spec.escapeText (Spec.textOf (CatchAll.fullName author))))
                  authors)
          ++ CatchAll.listPageTail)
         200
         [("Content-Type", "application/liquid");
          ("Cache-Control", "public, max-age=300")])
      None
  /\ (forallb (fun author => Spec.lacks "<" (CatchAll.photoUrl author)) authors = true ->
      Spec.occurrences Spec.cardMarker
        (body (response (CatchAll.GET secret store request)))
      = List.length authors).
Proof.
  intros V P F N.
  assert (G : CatchAll.GET secret store request
              = mkHandled
                  (mkResponse
                     (CatchAll.listPageHead
                      ++ Js.join "" (map CatchAll.authorCard authors)
                      ++ CatchAll.listPageTail)
                     200
                     [("Content-Type", "application/liquid");
                      ("Cache-Control", "public, max-age=300")])
                  None).
  { unfold CatchAll.GET.
    rewrite V, (render_list_mode store request P),
      (fetchAndRenderAuthorList_page store authors F N).
    reflexivity. }
  split.
  - rewrite G, authorCards_text. reflexivity.
  - intros L. rewrite G. cbn [response body]. apply list_page_occurrences, L.
Qed.

Lemma list_mode_witness :
  let served :=
    mkHandled
      (mkResponse
         (CatchAll.listPageHead
          ++ Spec.cardOf
               (Spec.imgElement
                  ("https://cdn.example/ada.png?w=1&h=2" ++ dq ++ "><b>")
                  "Ada &lt;Lovelace&gt;")
               "Ada &lt;Lovelace&gt;"
          ++ Spec.cardOf "" "Bob &amp; Co"
          ++ CatchAll.listPageTail)
         200
         [("Content-Type", "application/liquid");
          ("Cache-Control", "public, max-age=300")])
      None in
  CatchAll.GET Sample.secret Sample.store (Sample.request None) = served
  /\ CatchAll.GET Sample.secret Sample.store (Sample.request (Some [])) = served
  /\ CatchAll.GET Sample.secret Sample.store (Sample.request (Some ["liste"])) = served
  /\ Spec.occurrences Spec.cardMarker
       (body (response (CatchAll.GET Sample.secret Sample.guestStore
                          (Sample.request (Some ["liste"])))))
     = 3%nat.
Proof.
  intros served.
  assert (V : verifyShopifySignature (R := Sample.runtime) Sample.secret
                Sample.signedQuery = true) by (vm_compute; reflexivity).
  assert (N : [Sample.ada; Sample.bob] <> []) by discriminate.
  assert (N' : [Sample.cleo; Sample.anon; Sample.bob] <> []) by discriminate.
  split; [|split; [|split]].
  - refine (eq_trans
              (proj1 (list_mode_renders_one_card_per_author Sample.runtime
                        Sample.secret Sample.store (Sample.request None)
                        [Sample.ada; Sample.bob] V (or_introl eq_refl) eq_refl N)) _).
    vm_compute. reflexivity.
  - refine (eq_trans
              (proj1 (list_mode_renders_one_card_per_author Sample.runtime
                        Sample.secret Sample.store (Sample.request (Some []))
                        [Sample.ada; Sample.bob] V
                        (or_intror (or_introl eq_refl)) eq_refl N)) _).
    vm_compute. reflexivity.
  - refine (eq_trans
              (proj1 (list_mode_renders_one_card_per_author Sample.runtime
                        Sample.secret Sample.store (Sample.request (Some ["liste"]))
                        [Sample.ada; Sample.bob] V
                        (or_intror (or_intror eq_refl)) eq_refl N)) _).
    vm_compute. reflexivity.
  - exact (proj2 (list_mode_renders_one_card_per_author Sample.runtime
                    Sample.secret Sample.guestStore (Sample.request (Some ["liste"]))
                    [Sample.cleo; Sample.anon; Sample.bob] V
                    (or_intror (or_intror eq_refl)) eq_refl N') eq_refl).
Defined.

(** C10: a photo address is written into the [src] attribute as the
    content store returned it, with no escaping, whatever characters it
    holds, and the page that carries it is produced: the main photo of
    every post that renders, the photo of every author of a list, and the
    main image of every post of the root route that renders.  Only the
    alternative text beside the address goes through the escaping. *)
Theorem photo_url_is_interpolated_verbatim (R : Runtime) :
  (forall store slug post url,
     CatchAll.fetchPost store slug = Js.Ok (Some post) ->
     Texts.postReturns post = true ->
     CatchAll.mainPhotoUrl post = Some url ->
     url <> "" ->
     exists html,
       CatchAll.fetchAndRenderPost store slug = Js.Ok html
       /\ Spec.occursIn
            ("<img src=" ++ dq ++ url ++ dq ++ " alt=" ++ dq
             ++ Spec.escapeText
                  match CatchAll.mainPhotoAlt post with
                  | Some alt =>
                      if String.eqb alt "" then Spec.textOf (CatchAll.title post)
                      else alt
                  | None => Spec.textOf (CatchAll.title post)
                  end
             ++ dq ++ ">")
            html)
  /\ (forall store authors author url,
        CatchAll.fetchAuthors store = Js.Ok (Some authors) ->
        In author authors ->
        CatchAll.photoUrl author = Some url ->
        url <> "" ->
        exists html,
          CatchAll.fetchAndRenderAuthorList store = Js.Ok html
          /\ Spec.occursIn
               ("<img src=" ++ dq ++ url ++ dq ++ " alt=" ++ dq
                ++ Spec.escapeText (Spec.textOf (CatchAll.fullName author))
                ++ dq ++ ">")
               html)
  /\ (forall store slug post url,
        Root.fetchPost store slug = Js.Ok (Some post) ->
        Texts.rootPostReturns post = true ->
        Root.mainImageUrl post = Some url ->
        url <> "" ->
        exists html,
          Root.fetchAndRenderPost store slug = Js.Ok html
          /\ Spec.occursIn
               ("<img src=" ++ dq ++ url ++ dq ++ " alt=" ++ dq
                ++ Spec.escapeText (Spec.textOf (Root.title post))
                ++ dq ++ ">")
               html).
Proof.
  repeat split.
  - intros store slug post url F Rt U N.
    destruct (returns_Ok _ (eq_trans (fetchAndRenderPost_returns store slug post F) Rt))
      as [html H].
    exists html. split; [exact H|].
    unfold CatchAll.fetchAndRenderPost in H. rewrite F in H. cbn [Js.bind] in H.
    destruct (CatchAll.renderBody (CatchAll.postBody post)) as [b|e];
      cbn [Js.bind] in H; [|discriminate].
    destruct (match CatchAll.authors post with
              | Some l => _
              | None => _
              end) as [names|e]; cbn [Js.bind] in H; [|discriminate].
    rewrite U, (truthy_Some _ N) in H. apply Ok_inj in H. subst html.
    rewrite <- orElse_text, <- CatchAll_escapeHTML_text.
    unfold CatchAll.postPage, Js.interpolate. find_fragment.
  - intros store authors author url F I U N.
    assert (NE : authors <> []) by (intros ->; destruct I).
    exists (CatchAll.listPageHead
            ++ Js.join "" (map CatchAll.authorCard authors)
            ++ CatchAll.listPageTail).
    split; [apply (fetchAndRenderAuthorList_page store authors F NE)|].
    destruct (in_split _ _ I) as (l1 & l2 & ->).
    rewrite map_app, join_empty_app. cbn [map]. rewrite join_empty_cons.
    apply occurs_right, occurs_left, occurs_right, occurs_left.
    rewrite <- CatchAll_escapeHTML_text.
    unfold CatchAll.authorCard. rewrite U, (truthy_Some _ N).
    unfold Js.interpolate. find_fragment.
  - intros store slug post url F Rt U N.
    destruct (returns_Ok _ (eq_trans (root_fetchAndRenderPost_returns store slug post F) Rt))
      as [html H].
    exists html. split; [exact H|].
    unfold Root.fetchAndRenderPost in H. rewrite F in H. cbn [Js.bind] in H.
    destruct (match Root.postBody post with
              | Some b => _
              | None => _
              end) as [b|e]; cbn [Js.bind] in H; [|discriminate].
    destruct (Root.title post) as [t|]; cbn [Root.escapeHTML Js.bind] in H;
      [|discriminate].
    fold (Spec.fourPasses t) in H. rewrite fourPasses_escapeText in H.
    destruct (if Js.truthy (Root.authorName post) then _ else _) as [m|e];
      cbn [Js.bind] in H; [|discriminate].
    rewrite U, (truthy_Some _ N) in H. cbn [Js.bind] in H. apply Ok_inj in H. subst html.
    cbn [Spec.textOf]. unfold Root.postPage, Js.interpolate. find_fragment.
Qed.

Lemma photo_url_witness :
  (exists html,
     CatchAll.fetchAndRenderPost Sample.store "mon-article" = Js.Ok html
     /\ Spec.occursIn
          ("<img src=" ++ dq
           ++ ("https://cdn.example/hero.png?a=1&b=2" ++ dq ++ "><i>")
           ++ dq ++ " alt=" ++ dq ++ "Titre" ++ dq ++ ">")
          html)
  /\ (exists html,
        CatchAll.fetchAndRenderAuthorList Sample.store = Js.Ok html
        /\ Spec.occursIn
             ("<img src=" ++ dq
              ++ ("https://cdn.example/ada.png?w=1&h=2" ++ dq ++ "><b>")
              ++ dq ++ " alt=" ++ dq ++ "Ada &lt;Lovelace&gt;" ++ dq ++ ">")
             html)
  /\ (exists html,
        Root.fetchAndRenderPost Sample.rootStore "apps/blog" = Js.Ok html
        /\ Spec.occursIn
             ("<img src=" ++ dq
              ++ ("https://cdn.example/hero.png?a=1&b=2" ++ dq ++ "><i>")
              ++ dq ++ " alt=" ++ dq ++ "Titre" ++ dq ++ ">")
             html).
Proof.
  destruct (photo_url_is_interpolated_verbatim Sample.runtime) as (P & L & T).
  split; [|split].
  - apply (P Sample.store "mon-article" Sample.article); try reflexivity.
    discriminate.
  - apply (L Sample.store [Sample.ada; Sample.bob] Sample.ada); try reflexivity.
    + left. reflexivity.
    + discriminate.
  - apply (T Sample.rootStore "apps/blog" Sample.rootArticle); try reflexivity.
    discriminate.
Defined.

(** ** Absent fields *)

(** C9, as amended.  A fetched record is assembled whatever its title.
    In the catch-all route a post is assembled exactly when its blocks
    render and none of its authors is [null]; its title, present or not,
    is escaped into the two title elements, which an absent title leaves
    empty.  In the root route a post is assembled exactly when its body
    converts and it has a title: escaping a missing title throws.  The
    list page is assembled for every non-empty list of authors, an author
    without a name getting an empty heading.  In an assembled page an
    absent publication date, author list (author name in the root route)
    or main image leaves the empty string in its place, and an author
    without a photo address gets a card without an image element; an
    absent alternative text is replaced by the title; and the page holds
    the text [undefined] only if one of the strings the record brings
    (its fields, the printed date, the converted rich text) holds it. *)
Theorem absent_fields_are_omitted_never_printed (R : Runtime) :
  (forall store slug post,
     CatchAll.fetchPost store slug = Js.Ok (Some post) ->
     (Texts.postReturns post = false ->
      exists e, CatchAll.fetchAndRenderPost store slug = Js.Throw e)
     /\ (Texts.postReturns post = true ->
         exists html metaDate metaAuthors image bodyHTML,
           CatchAll.fetchAndRenderPost store slug = Js.Ok html
           /\ html = CatchAll.postPageHead
                      ++ Spec.escapeText (Spec.textOf (CatchAll.title post))
                      ++ CatchAll.postPageStyle
                      ++ Spec.escapeText (Spec.textOf (CatchAll.title post))
                      ++ Spec.pageAfterTitle metaDate metaAuthors image bodyHTML
           /\ (CatchAll.publishedAt post = None -> metaDate = "")
           /\ (CatchAll.authors post = None -> metaAuthors = "")
           /\ (CatchAll.mainPhotoUrl post = None -> image = "")
           /\ (CatchAll.postBody post = None -> bodyHTML = "")
           /\ (forall url,
                 CatchAll.mainPhotoUrl post = Some url -> url <> "" ->
                 CatchAll.mainPhotoAlt post = None ->
                 image = Spec.imgElement url
                           (Spec.escapeText (Spec.textOf (CatchAll.title post))))
           /\ (forallb (Spec.lacks "undefined") (Texts.postTexts post) = true ->
               Js.includes html "undefined" = false)))
  /\ (forall store authors,
        CatchAll.fetchAuthors store = Js.Ok (Some authors) ->
        authors <> [] ->
        exists html,
          CatchAll.fetchAndRenderAuthorList store = Js.Ok html
          /\ html = CatchAll.listPageHead
                    ++ String.concat ""
                         (map (fun author =>
                                 Spec.cardOf
                                   match CatchAll.photoUrl author with
                                   | Some url =>
                                       if String.eqb url "" then ""
                                       else Spec.imgElement url
                                              (Spec.escapeText
                                                 (Spec.textOf (CatchAll.fullName author)))
                                   | None => ""
                                   end
                                   (Spec.escapeText
                                      (Spec.textOf (CatchAll.fullName author))))
                            authors)
                    ++ CatchAll.listPageTail
          /\ (forallb (Spec.lacks "undefined") (flat_map Texts.authorTexts authors) = true ->
              Js.includes html "undefined" = false))
  /\ (forall store slug post,
        Root.fetchPost store slug = Js.Ok (Some post) ->
        (Texts.rootPostReturns post = false ->
         exists e, Root.fetchAndRenderPost store slug = Js.Throw e)
        /\ (Root.title post = None ->
            exists e, Root.fetchAndRenderPost store slug = Js.Throw e)
        /\ (Texts.rootPostReturns post = true ->
            exists html metaDate metaAuthor image bodyHTML,
              Root.fetchAndRenderPost store slug = Js.Ok html
              /\ html = Root.postPageHead
                         ++ Spec.escapeText (Spec.textOf (Root.title post))
                         ++ Root.postPageStyle
                         ++ Spec.escapeText (Spec.textOf (Root.title post))
                         ++ Spec.pageAfterTitle metaDate metaAuthor image bodyHTML
              /\ (Root.publishedAt post = None -> metaDate = "")
              /\ (Root.authorName post = None -> metaAuthor = "")
              /\ (Root.mainImageUrl post = None -> image = "")
              /\ (Root.postBody post = None -> bodyHTML = "")
              /\ (forallb (Spec.lacks "undefined") (Texts.rootPostTexts post) = true ->
                  Js.includes html "undefined" = false))).
Proof.
  split; [|split].
  - intros store slug post F.
    pose proof (fetchAndRenderPost_returns store slug post F) as Rt.
    split.
    + intros N. apply returns_Throw. rewrite Rt. exact N.
    + intros Y. rewrite Y in Rt. destruct (returns_Ok _ Rt) as [html H].
      destruct (post_page_shape store slug post html F H)
        as (metaDate & metaAuthors & image & bodyHTML & E & S1 & S2 & S3 & S4 & S5).
      exists html, metaDate, metaAuthors, image, bodyHTML.
      rewrite CatchAll_escapeHTML_text in E.
      split; [exact H|]. split; [exact E|].
      split; [exact S1|]. split; [exact S2|]. split; [exact S3|].
      split; [exact S5|].
      split.
      * intros url U N A. rewrite (S4 url U N A), CatchAll_escapeHTML_text.
        reflexivity.
      * apply (fetchAndRenderPost_clean store slug post html F H).
  - intros store authors F N.
    pose proof (fetchAndRenderAuthorList_page store authors F N) as H.
    eexists. split; [exact H|]. split.
    + rewrite authorCards_text. reflexivity.
    + apply (fetchAndRenderAuthorList_clean store authors _ F H).
  - intros store slug post F.
    pose proof (root_fetchAndRenderPost_returns store slug post F) as Rt.
    split; [|split].
    + intros N. apply returns_Throw. rewrite Rt. exact N.
    + intros T. apply returns_Throw. rewrite Rt.
      unfold Texts.rootPostReturns. rewrite T. apply andb_false_r.
    + intros Y. rewrite Y in Rt. destruct (returns_Ok _ Rt) as [html H].
      destruct (root_post_page_shape store slug post html F H)
        as (title & metaDate & metaAuthor & image & bodyHTML & E & T & S1 & S2 & S3 & S4).
      exists html, metaDate, metaAuthor, image, bodyHTML.
      split; [exact H|]. split.
      * destruct (Root.title post) as [t|]; [|discriminate T].
        rewrite Root_escapeHTML_text in T. apply Ok_inj in T. subst title. exact E.
      * split; [exact S1|]. split; [exact S2|]. split; [exact S3|].
        split; [exact S4|].
        apply (root_fetchAndRenderPost_clean store slug post html F H).
Qed.

Lemma absent_fields_witness :
  let bare :=
    CatchAll.postPageHead ++ CatchAll.postPageStyle
    ++ Spec.pageAfterTitle "" "" "" "" in
  let guests :=
    CatchAll.listPageHead
    ++ Spec.cardOf
         (Spec.imgElement "https://cdn.example/cleo.png?w=120&h=120" "Cleo &amp; fils")
         "Cleo &amp; fils"
    ++ Spec.cardOf "" ""
    ++ Spec.cardOf "" "Bob &amp; Co"
    ++ CatchAll.listPageTail in
  let rootBare :=
    Root.postPageHead ++ "Titre seul" ++ Root.postPageStyle ++ "Titre seul"
    ++ Spec.pageAfterTitle "" "" "" "" in
  (CatchAll.fetchAndRenderPost Sample.store "sans-titre" = Js.Ok bare
   /\ Js.includes bare "undefined" = false)
  /\ (CatchAll.fetchAndRenderAuthorList Sample.guestStore = Js.Ok guests
      /\ Js.includes guests "undefined" = false)
  /\ (Root.fetchAndRenderPost Sample.rootArchive "nu" = Js.Ok rootBare
      /\ Js.includes rootBare "undefined" = false)
  /\ (exists e, Root.fetchAndRenderPost Sample.rootArchive "sans-titre" = Js.Throw e).
Proof.
  intros bare guests rootBare.
  destruct (absent_fields_are_omitted_never_printed Sample.runtime) as (P & L & T).
  split; [|split; [|split]].
  - destruct (P Sample.store "sans-titre" Sample.untitled eq_refl) as [_ Y].
    destruct (Y eq_refl) as (html & d & a & i & b & H & E & D & A & I & B & _ & U).
    rewrite (D eq_refl), (A eq_refl), (I eq_refl), (B eq_refl) in E.
    change (html = bare) in E. subst html.
    split; [exact H|]. apply U. vm_compute. reflexivity.
  - assert (N : [Sample.cleo; Sample.anon; Sample.bob] <> []) by discriminate.
    destruct (L Sample.guestStore [Sample.cleo; Sample.anon; Sample.bob] eq_refl N)
      as (html & H & E & U).
    assert (E' : html = guests) by (rewrite E; vm_compute; reflexivity).
    subst html.
    split; [exact H|]. apply U. vm_compute. reflexivity.
  - destruct (T Sample.rootArchive "nu" Sample.rootBare eq_refl) as (_ & _ & Y).
    destruct (Y eq_refl) as (html & d & a & i & b & H & E & D & A & I & B & U).
    rewrite (D eq_refl), (A eq_refl), (I eq_refl), (B eq_refl) in E.
    change (html = rootBare) in E. subst html.
    split; [exact H|]. apply U. vm_compute. reflexivity.
  - destruct (T Sample.rootArchive "sans-titre" Sample.rootUntitled eq_refl)
      as (_ & M & _).
    apply M. reflexivity.
Defined.

(** C9 as stated fails three times.  The store's record [sans-titre] has
    no title and is assembled all the same, with empty title elements; the
    record [mon-article] has no alternative text and its image carries the
    title as one, where the claim wants the markup omitted; and the page
    of a post whose title is the word [undefined] holds that word. *)
Lemma untitled_record_counterexample :
  CatchAll.fetchPost Sample.store "sans-titre" = Js.Ok (Some Sample.untitled)
  /\ Js.truthy (CatchAll.title Sample.untitled) = false
  /\ Spec.mapExc (fun html => Js.includes html "<h1></h1>")
       (CatchAll.fetchAndRenderPost Sample.store "sans-titre") = Js.Ok true
  /\ CatchAll.mainPhotoAlt Sample.article = None
  /\ Spec.mapExc (fun html => Js.includes html (" alt=" ++ dq ++ "Titre" ++ dq ++ ">"))
       (CatchAll.fetchAndRenderPost Sample.store "mon-article") = Js.Ok true
  /\ Spec.mapExc (fun html => Js.includes html "undefined")
       (CatchAll.fetchAndRenderPost Sample.store "mot") = Js.Ok true.
Proof.
  split; [reflexivity|].
  split; [reflexivity|].
  split; [vm_compute; reflexivity|].
  split; [reflexivity|].
  split; vm_compute; reflexivity.
Qed.

(** * Further properties of the two routes *)

(** ** More about the signature check *)

Lemma get_cons (name k v : string) (q : URLSearchParams.t) :
  URLSearchParams.get name ((k, v) :: q)
  = if String.eqb k name then Some v else URLSearchParams.get name q.
Proof. reflexivity. Qed.

Lemma delete_cons (name k v : string) (q : URLSearchParams.t) :
  URLSearchParams.delete name ((k, v) :: q)
  = if String.eqb k name then URLSearchParams.delete name q
    else (k, v) :: URLSearchParams.delete name q.
Proof.
  unfold URLSearchParams.delete. cbn [filter fst].
  destruct (String.eqb k name); reflexivity.
Qed.

Lemma get_app_None (name : string) (pre post : URLSearchParams.t) :
  URLSearchParams.get name pre = None ->
  URLSearchParams.get name (pre ++ post)%list = URLSearchParams.get name post.
Proof.
  induction pre as [|[k v] pre IH]; [reflexivity|].
  change (((k, v) :: pre) ++ post)%list with ((k, v) :: (pre ++ post))%list.
  rewrite !get_cons. destruct (String.eqb k name); [discriminate|exact IH].
Qed.

Lemma get_app_Some (name : string) (pre post : URLSearchParams.t) (v : string) :
  URLSearchParams.get name pre = Some v ->
  URLSearchParams.get name (pre ++ post)%list = Some v.
Proof.
  induction pre as [|[k w] pre IH]; [discriminate|].
  change (((k, w) :: pre) ++ post)%list with ((k, w) :: (pre ++ post))%list.
  rewrite !get_cons. destruct (String.eqb k name); [intros H; exact H|exact IH].
Qed.

(** The canonical string does not see the [signature] pairs. *)
Lemma canonicalString_without_signature
  (cmp : string -> string -> Z) (pre post : URLSearchParams.t) (x : string) :
  Spec.canonicalString cmp (pre ++ ("signature", x) :: post)%list
  = Spec.canonicalString cmp (pre ++ post)%list.
Proof.
  unfold Spec.canonicalString, URLSearchParams.delete.
  rewrite !filter_app. reflexivity.
Qed.

Section VerifyMore.

Context {R : Runtime}.
Variable secret : string.

(** The check as a proposition, for the first signature value. *)
Lemma verify_iff_digest (q : URLSearchParams.t) (s : string) :
  URLSearchParams.get "signature" q = Some s ->
  verifyShopifySignature secret q = true
  <-> Hmac.hmacSha256Hex secret (Spec.canonicalString localeCompare q) = s.
Proof.
  intros G. rewrite verify_unfold, G. split.
  - intros H. apply andb_prop in H. apply String.eqb_eq, H.
  - intros E. apply andb_true_intro. split.
    + unfold Js.truthy. destruct (String.eqb s "") eqn:Es; [|reflexivity].
      apply String.eqb_eq in Es. rewrite Es in E.
      exfalso. exact (hmacSha256Hex_not_empty _ _ E).
    + apply String.eqb_eq, E.
Qed.

Lemma verify_false_cases (q : URLSearchParams.t) :
  URLSearchParams.get "signature" q = None
  \/ URLSearchParams.get "signature" q = Some ""
  \/ (exists s, URLSearchParams.get "signature" q = Some s
                /\ Hmac.hmacSha256Hex secret (Spec.canonicalString localeCompare q) <> s) ->
  verifyShopifySignature secret q = false.
Proof.
  rewrite verify_unfold.
  intros [-> | [-> | (s & -> & N)]]; [reflexivity|reflexivity|].
  apply String.eqb_neq in N. rewrite N. apply andb_false_r.
Qed.

End VerifyMore.

(** X1: a request with no [signature] parameter, with an empty one, or
    with one that is not the digest of its other parameters is answered
    [401 Unauthorized] by both routes, whatever its path and whatever the
    content store holds or throws; nothing is logged. *)
Theorem request_without_valid_signature_is_401
  (R : Runtime) (secret : string) (q : URLSearchParams.t) :
  URLSearchParams.get "signature" q = None
  \/ URLSearchParams.get "signature" q = Some ""
  \/ (exists s, URLSearchParams.get "signature" q = Some s
                /\ Hmac.hmacSha256Hex secret (Spec.canonicalString localeCompare q) <> s) ->
  (forall store path,
     CatchAll.GET secret store {| CatchAll.searchParams := q; CatchAll.path := path |}
     = mkHandled (mkResponse "Unauthorized" 401 []) None)
  /\ (forall store,
        Root.GET secret store {| Root.searchParams := q |}
        = mkHandled (mkResponse "Unauthorized" 401 []) None).
Proof.
  intros H. pose proof (verify_false_cases secret q H) as V.
  split; intros store.
  - intros path. unfold CatchAll.GET. cbn [CatchAll.searchParams].
    rewrite V. reflexivity.
  - unfold Root.GET. cbn [Root.searchParams]. rewrite V. reflexivity.
Qed.

Lemma request_without_valid_signature_witness :
  CatchAll.GET Sample.secret Sample.store
    {| CatchAll.searchParams := [("shop", "x")]; CatchAll.path := Some ["mon-article"] |}
  = mkHandled (mkResponse "Unauthorized" 401 []) None
  /\ Root.GET Sample.secret Sample.rootStore
       {| Root.searchParams := [("shop", "x"); ("signature", "00")] |}
     = mkHandled (mkResponse "Unauthorized" 401 []) None.
Proof.
  split.
  - apply (request_without_valid_signature_is_401 Sample.runtime Sample.secret
             [("shop", "x")]).
    left. reflexivity.
  - apply (request_without_valid_signature_is_401 Sample.runtime Sample.secret
             [("shop", "x"); ("signature", "00")]).
    right. right. exists "00". split; [reflexivity|].
    intros E.
    pose proof (hmacSha256Hex_length Sample.secret
                  (Spec.canonicalString (localeCompare (Runtime := Sample.runtime))
                     [("shop", "x"); ("signature", "00")])) as L.
    rewrite E in L. discriminate L.
Defined.

(** X2: for given parameters at most one signature value verifies: when
    a request verifies, the same request with any other value in its
    first [signature] pair is rejected. *)
Theorem altered_signature_is_rejected
  (R : Runtime) (secret : string) (pre post : URLSearchParams.t) (s s' : string) :
  URLSearchParams.get "signature" pre = None ->
  verifyShopifySignature secret (pre ++ ("signature", s) :: post)%list = true ->
  String.eqb s' s = false ->
  verifyShopifySignature secret (pre ++ ("signature", s') :: post)%list = false.
Proof.
  intros G V N.
  assert (G1 : forall x,
             URLSearchParams.get "signature" (pre ++ ("signature", x) :: post)%list
             = Some x).
  { intros x. rewrite (get_app_None _ _ _ G), get_cons, String.eqb_refl. reflexivity. }
  apply (verify_iff_digest secret _ _ (G1 s)) in V.
  rewrite canonicalString_without_signature in V.
  rewrite verify_unfold, G1, canonicalString_without_signature, V.
  rewrite String.eqb_sym, N. apply andb_false_r.
Qed.

Lemma altered_signature_witness :
  let pre := [("shop", "audacem.myshopify.com"); ("path_prefix", "/apps/blog")] in
  verifyShopifySignature (R := Sample.runtime) Sample.secret
    (pre ++ [("signature",
              "20d995adb8dc779f580f332c519ad2fc12d16b31a12c28872ceda1eccf05a15d")])%list
  = true
  /\ verifyShopifySignature (R := Sample.runtime) Sample.secret
       (pre ++ [("signature",
                 "20D995ADB8DC779F580F332C519AD2FC12D16B31A12C28872CEDA1ECCF05A15D")])%list
     = false.
Proof.
  intros pre.
  assert (V : verifyShopifySignature (R := Sample.runtime) Sample.secret
                (pre ++ [("signature",
                          "20d995adb8dc779f580f332c519ad2fc12d16b31a12c28872ceda1eccf05a15d")])%list
              = true) by (vm_compute; reflexivity).
  split; [exact V|].
  exact (altered_signature_is_rejected Sample.runtime Sample.secret pre []
           "20d995adb8dc779f580f332c519ad2fc12d16b31a12c28872ceda1eccf05a15d"
           "20D995ADB8DC779F580F332C519AD2FC12D16B31A12C28872CEDA1ECCF05A15D"
           eq_refl V eq_refl).
Defined.

(** X3: only the first [signature] pair counts: a [signature] pair that
    comes after another one changes nothing in the result, whatever its
    value. *)
Theorem later_signature_pairs_are_ignored
  (R : Runtime) (secret : string) (pre post : URLSearchParams.t) (s x : string) :
  URLSearchParams.get "signature" pre = Some s ->
  verifyShopifySignature secret (pre ++ ("signature", x) :: post)%list
  = verifyShopifySignature secret (pre ++ post)%list.
Proof.
  intros G. rewrite !verify_unfold.
  rewrite (get_app_Some _ _ (("signature", x) :: post) _ G), (get_app_Some _ _ post _ G).
  rewrite canonicalString_without_signature. reflexivity.
Qed.

Lemma later_signature_pairs_witness :
  verifyShopifySignature (R := Sample.runtime) Sample.secret
    (Sample.signedQuery ++ [("signature", "forged")])%list
  = verifyShopifySignature (R := Sample.runtime) Sample.secret
      (Sample.signedQuery ++ [])%list.
Proof.
  exact (later_signature_pairs_are_ignored Sample.runtime Sample.secret
           Sample.signedQuery []
           "20d995adb8dc779f580f332c519ad2fc12d16b31a12c28872ceda1eccf05a15d"
           "forged" eq_refl).
Defined.

(** X4: the canonical string writes keys and values as they are, so it
    cannot tell a parameter whose value holds an ampersand and an equals
    sign from two parameters: the two requests below are accepted or
    rejected together, for every signature. *)
Theorem value_with_separators_verifies_like_two_parameters
  (R : Runtime) (secret : string) (k v k2 v2 s : string) :
  String.eqb k "signature" = false ->
  String.eqb k2 "signature" = false ->
  localeCompare k k2 <= 0 ->
  verifyShopifySignature secret
    [(k, v ++ "&" ++ k2 ++ "=" ++ v2); ("signature", s)]
  = verifyShopifySignature secret [(k, v); (k2, v2); ("signature", s)].
Proof.
  intros K K2 L. apply Z.leb_le in L.
  assert (C : Spec.canonicalString localeCompare
                [(k, v ++ "&" ++ k2 ++ "=" ++ v2); ("signature", s)]
              = Spec.canonicalString localeCompare
                  [(k, v); (k2, v2); ("signature", s)]).
  { unfold Spec.canonicalString.
    rewrite !delete_cons, K, K2, String.eqb_refl. cbv iota.
    change (URLSearchParams.delete "signature" []) with (@nil (string * string)).
    cbn [Js.sort Js.insertBy fst]. rewrite L.
    unfold Js.join, Spec.keyValue. cbn [map String.concat fst snd].
    rewrite !append_assoc. reflexivity. }
  rewrite !verify_unfold, C.
  rewrite !get_cons, K, K2, String.eqb_refl. reflexivity.
Qed.

Lemma value_with_separators_witness :
  let s := "2f85d49eccc62160f96242788b19c6e6129152b0328a5541a6927374255e86de" in
  verifyShopifySignature (R := Sample.runtime) Sample.secret
    [("shop", "a"); ("slug", "b"); ("signature", s)] = true
  /\ verifyShopifySignature (R := Sample.runtime) Sample.secret
       [("shop", "a&slug=b"); ("signature", s)] = true.
Proof.
  intros s.
  assert (V : verifyShopifySignature (R := Sample.runtime) Sample.secret
                [("shop", "a"); ("slug", "b"); ("signature", s)] = true)
    by (vm_compute; reflexivity).
  split; [exact V|].
  refine (eq_trans
            (value_with_separators_verifies_like_two_parameters Sample.runtime
               Sample.secret "shop" "a" "slug" "b" s eq_refl eq_refl _) V).
  apply Z.leb_le. vm_compute. reflexivity.
Defined.

(** ** The digest is lowercase hexadecimal *)

Lemma hexDigit_lower (n : Z) :
  0 <= n < 16 -> Spec.isLowerHex (Hmac.hexDigit n) = true.
Proof.
  intros H. rewrite <- (Z2Nat.id n) by lia.
  assert (L : (Z.to_nat n < 16)%nat) by lia.
  revert L. generalize (Z.to_nat n) as d. intros d L.
  do 16 (destruct d as [|d]; [reflexivity|]). lia.
Qed.

Lemma hex_lower (bs : list Sha256.byte) :
  Forall (fun b => 0 <= b < 256) bs ->
  Spec.allChars Spec.isLowerHex (Hmac.hex bs) = true.
Proof.
  induction 1 as [|b bs Hb _ IH]; [reflexivity|].
  cbn [Hmac.hex Spec.allChars].
  rewrite !hexDigit_lower, IH; [reflexivity| |].
  - apply Z.mod_pos_bound. lia.
  - split; [apply Z.div_pos; lia | apply Z.div_lt_upper_bound; lia].
Qed.

Lemma bytesOf_range (n : nat) (x : Z) :
  Forall (fun b => 0 <= b < 256) (Sha256.bytesOf n x).
Proof.
  induction n as [|n IH]; [constructor|].
  cbn [Sha256.bytesOf]. constructor; [|exact IH].
  apply Z.mod_pos_bound. lia.
Qed.

Lemma sha256_range (msg : list Sha256.byte) :
  Forall (fun b => 0 <= b < 256) (Sha256.sha256 msg).
Proof.
  unfold Sha256.sha256, Sha256.stateBytes.
  repeat (apply Forall_app; split); apply bytesOf_range.
Qed.

(** X5: a signature that verifies is a digest as [digest('hex')] prints
    it: exactly 64 characters, each a lowercase hexadecimal digit. *)
Theorem accepted_signature_is_lowercase_hex
  (R : Runtime) (secret : string) (q : URLSearchParams.t) :
  verifyShopifySignature secret q = true ->
  exists s,
    URLSearchParams.get "signature" q = Some s
    /\ String.length s = 64%nat
    /\ Spec.allChars Spec.isLowerHex s = true.
Proof.
  intros V. rewrite verify_unfold in V.
  destruct (URLSearchParams.get "signature" q) as [s|]; [|discriminate].
  apply andb_prop in V. destruct V as [_ V]. apply String.eqb_eq in V.
  exists s. split; [reflexivity|]. subst s.
  split; [apply hmacSha256Hex_length|].
  unfold Hmac.hmacSha256Hex, Hmac.hmacSha256. apply hex_lower, sha256_range.
Qed.

Lemma accepted_signature_witness :
  exists s,
    URLSearchParams.get "signature" Sample.signedQuery = Some s
    /\ String.length s = 64%nat
    /\ Spec.allChars Spec.isLowerHex s = true.
Proof.
  apply (accepted_signature_is_lowercase_hex Sample.runtime Sample.secret).
  vm_compute. reflexivity.
Defined.

(** ** When collation and byte order agree *)

Lemma insertBy_agree {A : Type} (c1 c2 : A -> A -> Z) (x : A) (l : list A) :
  (forall y, In y l -> (c1 x y <=? 0) = (c2 x y <=? 0)) ->
  Js.insertBy c1 x l = Js.insertBy c2 x l.
Proof.
  induction l as [|y l IH]; [reflexivity|].
  intros H. cbn [Js.insertBy].
  rewrite (H y (or_introl eq_refl)), IH; [reflexivity|].
  intros z Hz. apply H. right. exact Hz.
Qed.

Lemma sort_agree {A : Type} (c1 c2 : A -> A -> Z) (l : list A) :
  (forall x y, In x l -> In y l -> (c1 x y <=? 0) = (c2 x y <=? 0)) ->
  Js.sort c1 l = Js.sort c2 l.
Proof.
  induction l as [|x l IH]; [reflexivity|].
  intros H. cbn [Js.sort].
  rewrite IH by (intros a b Ha Hb; apply H; right; assumption).
  apply insertBy_agree. intros y Hy. apply H; [left; reflexivity|].
  right. apply (Permutation_in y (sort_perm c2 l) Hy).
Qed.

Lemma agreeOn_canonicalString
  (c1 c2 : string -> string -> Z) (q : URLSearchParams.t) :
  Spec.agreeOn c1 c2 (map fst (URLSearchParams.delete "signature" q)) = true ->
  Spec.canonicalString c1 q = Spec.canonicalString c2 q.
Proof.
  intros H. unfold Spec.canonicalString. f_equal. f_equal.
  apply sort_agree. intros x y Hx Hy.
  unfold Spec.agreeOn in H. rewrite forallb_forall in H.
  specialize (H (fst x) (in_map fst _ _ Hx)). rewrite forallb_forall in H.
  specialize (H (fst y) (in_map fst _ _ Hy)). apply Bool.eqb_prop, H.
Qed.

(** X6: on a request whose keys collation and byte order sort the same
    way, the check is the one of byte order: it accepts exactly the
    digest of the parameters sorted by key in byte order. *)
Theorem verify_is_byte_ordered_where_collation_agrees
  (R : Runtime) (secret : string) (q : URLSearchParams.t) (s : string) :
  URLSearchParams.get "signature" q = Some s ->
  Spec.agreeOn localeCompare Spec.byteCompare
    (map fst (URLSearchParams.delete "signature" q)) = true ->
  verifyShopifySignature secret q = true
  <-> Hmac.hmacSha256Hex secret (Spec.canonicalString Spec.byteCompare q) = s.
Proof.
  intros G A. rewrite <- (agreeOn_canonicalString _ _ q A).
  apply (verify_iff_digest secret q s G).
Qed.

Lemma verify_is_byte_ordered_witness :
  Spec.canonicalString Spec.byteCompare Sample.signedQuery
  = "path_prefix=/apps/blog&shop=audacem.myshopify.com"
  /\ Hmac.hmacSha256Hex Sample.secret
       (Spec.canonicalString Spec.byteCompare Sample.signedQuery)
     = "20d995adb8dc779f580f332c519ad2fc12d16b31a12c28872ceda1eccf05a15d".
Proof.
  split; [vm_compute; reflexivity|].
  apply (verify_is_byte_ordered_where_collation_agrees Sample.runtime Sample.secret
           Sample.signedQuery).
  - reflexivity.
  - vm_compute. reflexivity.
  - vm_compute. reflexivity.
Defined.

(** ** Which query answers a request *)

(** X7: each mode reads its own query.  In list mode the answer depends
    on the authors only, so no post is ever read under the slug [liste];
    any other path is joined with slashes into a slug and the answer
    depends on the post of that slug only. *)
Theorem each_mode_reads_its_own_query
  (R : Runtime) (secret : string) (store store' : CatchAll.Store)
  (request : CatchAll.Request) :
  (CatchAll.path request = None
   \/ CatchAll.path request = Some []
   \/ CatchAll.path request = Some ["liste"] ->
   CatchAll.fetchAuthors store = CatchAll.fetchAuthors store' ->
   CatchAll.GET secret store request = CatchAll.GET secret store' request)
  /\ (forall segments,
        CatchAll.path request = Some segments ->
        String.concat "/" segments <> "" ->
        String.concat "/" segments <> "liste" ->
        CatchAll.fetchPost store (String.concat "/" segments)
        = CatchAll.fetchPost store' (String.concat "/" segments) ->
        CatchAll.GET secret store request = CatchAll.GET secret store' request).
Proof.
  split.
  - intros P F. unfold CatchAll.GET.
    rewrite !(render_list_mode _ request P).
    unfold CatchAll.fetchAndRenderAuthorList. rewrite F. reflexivity.
  - intros segments P N1 N2 F. unfold CatchAll.GET, CatchAll.render, CatchAll.slugOf.
    rewrite P. unfold Js.join.
    rewrite (truthy_Some _ N1). apply String.eqb_neq in N2. rewrite N2.
    cbn [negb orb]. unfold CatchAll.fetchAndRenderPost. rewrite F. reflexivity.
Qed.

Lemma each_mode_reads_its_own_query_witness :
  let other : @CatchAll.Store Sample.runtime := {|
    CatchAll.fetchAuthors := Js.Ok (Some [Sample.ada; Sample.bob]);
    CatchAll.fetchPost := fun slug =>
      if String.eqb slug "blog/mon-article" then Js.Ok None
      else Js.Throw (Js.External "ECONNRESET")
  |} in
  CatchAll.GET Sample.secret Sample.store (Sample.request (Some ["liste"]))
  = CatchAll.GET Sample.secret other (Sample.request (Some ["liste"]))
  /\ CatchAll.GET Sample.secret Sample.store (Sample.request (Some ["blog"; "mon-article"]))
     = CatchAll.GET Sample.secret other (Sample.request (Some ["blog"; "mon-article"])).
Proof.
  intros other. split.
  - apply (proj1 (each_mode_reads_its_own_query Sample.runtime Sample.secret
                    Sample.store other (Sample.request (Some ["liste"])))).
    + right. right. reflexivity.
    + reflexivity.
  - apply (proj2 (each_mode_reads_its_own_query Sample.runtime Sample.secret
                    Sample.store other
                    (Sample.request (Some ["blog"; "mon-article"])))
             ["blog"; "mon-article"]).
    + reflexivity.
    + discriminate.
    + discriminate.
    + reflexivity.
Defined.



(** ** The body of a post, block after block *)

(** X9: the body of a sequence of blocks is the body of its first part
    followed by the body of the rest, and the first block that throws
    decides the exception. *)
Theorem renderBody_of_consecutive_blocks
  (R : Runtime) (first rest : list CatchAll.Block) :
  CatchAll.renderBody (Some (first ++ rest)%list)
  = Js.bind (CatchAll.renderBody (Some first)) (fun a =>
      Js.bind (CatchAll.renderBody (Some rest)) (fun b => Js.Ok (a ++ b))).
Proof.
  cbn [CatchAll.renderBody]. rewrite mapM_app.
  destruct (Js.mapM CatchAll.renderBlock first) as [a|e]; cbn [Js.bind]; [|reflexivity].
  destruct (Js.mapM CatchAll.renderBlock rest) as [b|e]; cbn [Js.bind]; [|reflexivity].
  rewrite join_empty_app. reflexivity.
Qed.

(** ** Double quotes *)

(** X10: the escaping step leaves no double quote in a text, so the
    escaped texts of a record cannot close the attribute they stand in:
    removing the characters of every title, name, question, answer,
    description, button label and alternative text changes neither the
    number of double quotes in the document nor whether and with what the
    rendering throws.  Both routes. *)
Theorem text_fields_add_no_double_quote (R : Runtime) :
  (forall s, Js.countChar "034" (Spec.escapeText s) = 0%nat)
  /\ (forall store slug,
        Spec.mapExc (Js.countChar "034") (CatchAll.render (Texts.blankStore store) slug)
        = Spec.mapExc (Js.countChar "034") (CatchAll.render store slug))
  /\ (forall store slug,
        Spec.mapExc (Js.countChar "034")
          (Root.fetchAndRenderPost (Texts.blankRootStore store) slug)
        = Spec.mapExc (Js.countChar "034") (Root.fetchAndRenderPost store slug)).
Proof.
  split; [|split].
  - intros s. rewrite <- fourPasses_escapeText. apply fourPasses_no_markup.
  - intros store slug. apply render_blank; [|reflexivity|reflexivity].
    intros v. apply CatchAll_escapeHTML_no_markup.
  - intros store slug. apply root_fetchAndRenderPost_blank; [|reflexivity].
    intros v out H. apply (Root_escapeHTML_no_markup v out H).
Qed.

(** ** Escaping loses nothing *)

Lemma escapeChar_head (c : ascii) :
  exists x rest, Spec.escapeChar c = String x rest
                 /\ (x = "&"%char -> rest <> ""
                                     /\ (c = "&" \/ c = "<" \/ c = ">" \/ c = "034")%char).
Proof.
  unfold Spec.escapeChar.
  destruct (Ascii.eqb c "&") eqn:E1;
    [apply Ascii.eqb_eq in E1; do 2 eexists; split; [reflexivity|];
     intros _; split; [discriminate|tauto]|].
  destruct (Ascii.eqb c "<") eqn:E2;
    [apply Ascii.eqb_eq in E2; do 2 eexists; split; [reflexivity|];
     intros _; split; [discriminate|tauto]|].
  destruct (Ascii.eqb c ">") eqn:E3;
    [apply Ascii.eqb_eq in E3; do 2 eexists; split; [reflexivity|];
     intros _; split; [discriminate|tauto]|].
  destruct (Ascii.eqb c "034") eqn:E4;
    [apply Ascii.eqb_eq in E4; do 2 eexists; split; [reflexivity|];
     intros _; split; [discriminate|tauto]|].
  do 2 eexists. split; [reflexivity|].
  intros ->. rewrite Ascii.eqb_refl in E1. discriminate.
Qed.

Lemma escapeText_cons (c : ascii) (s : string) :
  Spec.escapeText (String c s) = Spec.escapeChar c ++ Spec.escapeText s.
Proof. reflexivity. Qed.

Lemma escapeText_head (a b : ascii) (s t : string) :
  Spec.escapeChar a ++ Spec.escapeText s = Spec.escapeChar b ++ Spec.escapeText t ->
  a = b /\ Spec.escapeText s = Spec.escapeText t.
Proof.
  unfold Spec.escapeChar.
  destruct (Ascii.eqb a "&") eqn:A1; [apply Ascii.eqb_eq in A1|];
  [|destruct (Ascii.eqb a "<") eqn:A2; [apply Ascii.eqb_eq in A2|];
    [|destruct (Ascii.eqb a ">") eqn:A3; [apply Ascii.eqb_eq in A3|];
      [|destruct (Ascii.eqb a "034") eqn:A4; [apply Ascii.eqb_eq in A4|]]]];
  (destruct (Ascii.eqb b "&") eqn:B1; [apply Ascii.eqb_eq in B1|];
   [|destruct (Ascii.eqb b "<") eqn:B2; [apply Ascii.eqb_eq in B2|];
     [|destruct (Ascii.eqb b ">") eqn:B3; [apply Ascii.eqb_eq in B3|];
       [|destruct (Ascii.eqb b "034") eqn:B4; [apply Ascii.eqb_eq in B4|]]]]);
  subst; cbn [String.append]; intros H;
  try discriminate H;
  try (injection H as H; split; [reflexivity|exact H]);
  try (injection H as H0 H; subst; rewrite Ascii.eqb_refl in *; discriminate).
  injection H as -> H. split; [reflexivity|exact H].
Qed.

Lemma escapeText_injective (s t : string) :
  Spec.escapeText s = Spec.escapeText t -> s = t.
Proof.
  revert t. induction s as [|a s IH]; intros [|b t].
  - reflexivity.
  - rewrite escapeText_cons. destruct (escapeChar_head b) as (x & r & -> & _).
    discriminate.
  - rewrite escapeText_cons. destruct (escapeChar_head a) as (x & r & -> & _).
    discriminate.
  - rewrite !escapeText_cons. intros H.
    destruct (escapeText_head a b s t H) as [-> E].
    f_equal. apply IH, E.
Qed.

(** X11: escaping loses nothing: two texts have the same escaped form
    exactly when they are the same text. *)
Theorem escaping_loses_nothing (s t : string) :
  String.eqb (Spec.escapeText s) (Spec.escapeText t) = String.eqb s t
  /\ String.eqb (CatchAll.escapeHTML (Some s)) (CatchAll.escapeHTML (Some t))
     = String.eqb s t.
Proof.
  assert (E : String.eqb (Spec.escapeText s) (Spec.escapeText t) = String.eqb s t).
  { destruct (String.eqb s t) eqn:Est.
    - apply String.eqb_eq in Est. subst t. apply String.eqb_refl.
    - apply String.eqb_neq. intros H. apply escapeText_injective in H.
      apply String.eqb_neq in Est. contradiction. }
  split; [exact E|]. rewrite !CatchAll_escapeHTML_text. exact E.
Qed.

(** ** Runs of the two handlers *)

(** A request whose signature is not the digest of its parameters. *)
Example unsigned_request_is_401 :
  CatchAll.GET (R := Sample.runtime) Sample.secret Sample.store
    {| CatchAll.searchParams := [("shop", "audacem.myshopify.com"); ("signature", "00")];
       CatchAll.path := Some ["mon-article"] |}
  = mkHandled (mkResponse "Unauthorized" 401 []) None.
Proof. vm_compute. reflexivity. Qed.

(** The post of the sample store: served with status 200 and the two
    headers, with its title in the heading. *)
Example article_is_served :
  status (response (CatchAll.GET Sample.secret Sample.store
                      (Sample.request (Some ["mon-article"])))) = 200
  /\ headers (response (CatchAll.GET Sample.secret Sample.store
                          (Sample.request (Some ["mon-article"]))))
     = [("Content-Type", "application/liquid");
        ("Cache-Control", "public, max-age=300")]
  /\ Js.includes
       (body (response (CatchAll.GET Sample.secret Sample.store
                          (Sample.request (Some ["mon-article"])))))
       "<h1>Titre</h1>" = true.
Proof. vm_compute. repeat split. Qed.

(** A store that cannot be reached: the error is logged, the caller reads
    the fixed 404. *)
Example unreachable_store_is_404 :
  CatchAll.GET Sample.secret Sample.downStore (Sample.request None)
  = mkHandled (mkResponse "Content not found" 404 [])
      (Some (Js.External "ECONNRESET")).
Proof. vm_compute. reflexivity. Qed.

(** The root route reads the slug from [path_prefix]. *)
Example root_article_is_served :
  Root.slugOf Sample.rootRequest = "apps/blog"
  /\ status (response (Root.GET Sample.secret Sample.rootStore Sample.rootRequest)) = 200
  /\ Js.includes
       (body (response (Root.GET Sample.secret Sample.rootStore Sample.rootRequest)))
       "<h1>Titre</h1>" = true.
Proof. vm_compute. repeat split. Qed.
